(** * OperateID assembly: identity URLs, partner URLs and the Qoboto data client

  A shallow embedding of [src/js/operateIdAssembly.js].

  Conventions of the embedding.
  - A JavaScript string is a [string] of the Standard Library: a sequence of
    code units in the range U+0000..U+00FF.  On that range
    [String.prototype.toLowerCase] acts code unit by code unit (A-Z and the
    Latin-1 capitals U+00C0..U+00DE except U+00D7 move up by 32), which is
    what [toLowerCase] below does; the white space of [trim] is
    U+0009..U+000D, U+0020 and U+00A0.
  - A JavaScript value (the result of [JSON.parse], a property read, an
    override) is a [value]; a missing property reads as [VUndefined].
  - Mutable objects are records threaded explicitly through the calls; an
    [async] method runs to its end before the next call starts (no two
    pending calls interleave), and what it awaits from the world (the clock,
    the outcome of [fetch]) is an argument.
  - [console.*] calls write nothing the program reads back and are left
    out; the string conversions performed while building their arguments
    are kept where they can throw. *)

From Stdlib Require Import ZArith String Ascii List Floats.PrimFloat.
From stdpp Require Import gmap strings list fin_maps.

Set Warnings "-register-all".

(** Let [simpl] compute the append of a string that starts with known
    characters. *)
Arguments String.append !_ _ / : simpl nomatch.

Open Scope string_scope.
Open Scope list_scope.
Open Scope stdpp_scope.

(* ===================================================================== *)
(** ** String primitives of the host language                             *)
(* ===================================================================== *)

Module JsString.

(** One code unit of [toLowerCase]. *)
Definition lower_unit (c : ascii) : ascii :=
  let n := N_of_ascii c in
  if ((65 <=? n) && (n <=? 90))%N
     || ((192 <=? n) && (n <=? 222) && negb (n =? 215))%N
  then ascii_of_N (n + 32) else c.

Fixpoint toLowerCase (s : string) : string :=
  match s with
  | EmptyString => EmptyString
  | String c r => String (lower_unit c) (toLowerCase r)
  end.

(** [s.startsWith(p)] *)
Fixpoint startsWith (p s : string) : bool :=
  match p, s with
  | EmptyString, _ => true
  | String _ _, EmptyString => false
  | String a p', String b s' => Ascii.eqb a b && startsWith p' s'
  end.

(** [s.includes(p)] *)
Fixpoint includes (p s : string) : bool :=
  startsWith p s ||
  match s with
  | EmptyString => false
  | String _ r => includes p r
  end.

(** [s.substring(n)]: the code units from index [n] on. *)
Fixpoint substring (n : nat) (s : string) : string :=
  match n, s with
  | O, _ => s
  | S _, EmptyString => EmptyString
  | S n', String _ r => substring n' r
  end.

(** [s.split(sep)] for a one-character separator; never the empty list. *)
Fixpoint split (sep : ascii) (s : string) : list string :=
  match s with
  | EmptyString => [EmptyString]
  | String c r =>
      if Ascii.eqb c sep then EmptyString :: split sep r
      else match split sep r with
           | h :: t => String c h :: t
           | [] => [String c EmptyString]
           end
  end.

(** [parts.join(sep)] *)
Fixpoint join (sep : string) (parts : list string) : string :=
  match parts with
  | [] => EmptyString
  | [p] => p
  | p :: rest => p +:+ sep +:+ join sep rest
  end.

(** White space and line terminators below U+0100, as [trim] sees them. *)
Definition is_ws (c : ascii) : bool :=
  let n := N_of_ascii c in
  ((9 <=? n) && (n <=? 13) || (n =? 32) || (n =? 160))%N.

Fixpoint trimStart (s : string) : string :=
  match s with
  | EmptyString => EmptyString
  | String c r => if is_ws c then trimStart r else s
  end.

Fixpoint trimEnd (s : string) : string :=
  match s with
  | EmptyString => EmptyString
  | String c r =>
      match trimEnd r with
      | EmptyString => if is_ws c then EmptyString else String c EmptyString
      | r' => String c r'
      end
  end.

Definition trim (s : string) : string := trimEnd (trimStart s).

(** [s.replace(pat, rep)] with a string pattern: the first occurrence only. *)
Fixpoint replace (pat rep s : string) : string :=
  if startsWith pat s then rep +:+ substring (String.length pat) s
  else match s with
       | EmptyString => EmptyString
       | String c r => String c (replace pat rep r)
       end.

(** [s.replace(/c/g, rep)] for a one-character pattern. *)
Fixpoint replaceAll (c : ascii) (rep : string) (s : string) : string :=
  match s with
  | EmptyString => EmptyString
  | String d r =>
      (if Ascii.eqb d c then rep else String d EmptyString) +:+ replaceAll c rep r
  end.

(** [s.replace(/\/+$/, '')]: the trailing run of slashes is removed. *)
Fixpoint stripTrailingSlashes (s : string) : string :=
  match s with
  | EmptyString => EmptyString
  | String c r =>
      match stripTrailingSlashes r with
      | EmptyString => if Ascii.eqb c "/" then EmptyString else String c EmptyString
      | r' => String c r'
      end
  end.

(** The string of [k] slashes. *)
Fixpoint slashes (k : nat) : string :=
  match k with
  | O => EmptyString
  | S k' => String "/" (slashes k')
  end.

(** Every code unit is white space (true of the empty string too). *)
Fixpoint all_ws (s : string) : bool :=
  match s with
  | EmptyString => true
  | String c r => is_ws c && all_ws r
  end.

(** The code unit [c] occurs in [s]. *)
Fixpoint contains_char (c : ascii) (s : string) : bool :=
  match s with
  | EmptyString => false
  | String d r => Ascii.eqb d c || contains_char c r
  end.

(** The last code unit of [s] is [c]. *)
Fixpoint ends_with_char (c : ascii) (s : string) : bool :=
  match s with
  | EmptyString => false
  | String d EmptyString => Ascii.eqb d c
  | String _ r => ends_with_char c r
  end.

(** JavaScript truthiness of a string: [!s] is [isEmpty s]. *)
Definition isEmpty (s : string) : bool :=
  match s with EmptyString => true | _ => false end.

End JsString.

(* ===================================================================== *)
(** ** JavaScript values                                                  *)
(* ===================================================================== *)

Inductive value : Type :=
| VUndefined
| VNull
| VBool (b : bool)
| VNum (x : float)
| VStr (s : string)
| VArr (items : list value)
| VObj (props : gmap string value).

(** [ToBoolean]. *)
Definition truthy (v : value) : bool :=
match v with
| VUndefined | VNull => false
| VBool b => b
| VNum x => negb (PrimFloat.eqb x 0%float) && negb (PrimFloat.is_nan x)
| VStr s => negb (JsString.isEmpty s)
| VArr _ | VObj _ => true
end.

(** A property read [o.k] on an object used as a map. *)
Definition prop (o : gmap string value) (k : string) : value :=
default VUndefined (o !! k).

(** [v?.k]: a property read on any value that came out of [JSON.parse].
  Strings, numbers, booleans and arrays have no own property of the names
  read by this program, and neither have their prototypes. *)
Definition getField (v : value) (k : string) : value :=
match v with
| VObj o => prop o k
| _ => VUndefined
end.

(** [a || b] *)
Definition orElse (a b : value) : value := if truthy a then a else b.

(* ===================================================================== *)
(** ** NetworkNameServiceClass                                            *)
(* ===================================================================== *)

Module NetworkNameService.

Record t := { _currentNetwork : string }.

Definition new : t := {| _currentNetwork := "mainnet" |}.

Definition currentNetworkName (ns : t) : string := _currentNetwork ns.

Definition switchNetworkName (networkName : string) (ns : t) : t :=
  {| _currentNetwork := networkName |}.

Definition currentNetwork_IsMainnet (ns : t) : bool :=
  String.eqb (currentNetworkName ns) "mainnet".

End NetworkNameService.

(* ===================================================================== *)
(** ** IdentityFormatterClass                                             *)
(* ===================================================================== *)

Module IdentityFormatter.
Import JsString.

Definition formatIdentity (identityUrl : string) : string :=
  if isEmpty identityUrl then identityUrl
  else
    let identityUrl := toLowerCase identityUrl in
    let identityUrl :=
      if negb (includes "acc://" identityUrl) then "acc://" +:+ identityUrl
      else identityUrl in
    let identityUrl :=
      if negb (includes ".acme" identityUrl) then identityUrl +:+ ".acme"
      else identityUrl in
    identityUrl.

End IdentityFormatter.

(* ===================================================================== *)
(** ** AdiStringHelper                                                    *)
(* ===================================================================== *)

Module AdiStringHelper.
Import JsString.

(** The object built by [parseAdi2]. *)
Record adi := {
  url : string;
  path : string;
  name : string;
  rootUrl : string;
  subPath : string
}.

Definition fixAdiUrl (url : string) : string :=
  if isEmpty url then url
  else stripTrailingSlashes (toLowerCase url).

(** [None] is the [null] the source returns. *)
Definition parseAdi2 (adiUrl : string) : option adi :=
  if isEmpty adiUrl || isEmpty (trim adiUrl) then None
  else
    let adiUrl := fixAdiUrl adiUrl in
    let adiUrl :=
      if negb (startsWith "acc://" adiUrl) then "acc://" +:+ adiUrl else adiUrl in
    let path := substring 6 adiUrl in
    let arr1 := split "." path in
    let name := hd EmptyString arr1 in
    let arr_remaining := nth 1 arr1 EmptyString in
    Some {| url := adiUrl;
            path := path;
            name := name;
            rootUrl := "acc://" +:+ name +:+ ".acme";
            subPath := if (5 <? String.length arr_remaining)%nat
                       then substring 5 arr_remaining else EmptyString |}.

(** [segments[segments.length - 1]] of the split at slashes. *)
Definition getLastSegment (adiUrl : string) : string :=
  if isEmpty adiUrl then EmptyString
  else List.last (split "/" adiUrl) EmptyString.

End AdiStringHelper.

(* ===================================================================== *)
(** ** AdiUrlClass                                                        *)
(* ===================================================================== *)

(** String conversion of a possibly [undefined] string in a concatenation. *)
Definition str (o : option string) : string :=
  match o with Some s => s | None => "undefined" end.

Module AdiUrlClass.
Import JsString.

(** [url], [name] and [path] stay [undefined] ([None]) until
    [init_ByAdiUrl] assigns them; [adiParsed] is [null] when parsing fails. *)
Record t := {
  url : option string;
  adiParsed : option AdiStringHelper.adi;
  name : option string;
  path : option string;
  pathEnd : string;
  networkName : string;
  serverName : string
}.

Definition _calc_Server (ns : NetworkNameService.t) (a : t) : t :=
  let networkName := NetworkNameService.currentNetworkName ns in
  {| url := url a; adiParsed := adiParsed a; name := name a; path := path a;
     pathEnd := pathEnd a;
     networkName := networkName;
     serverName := if String.eqb networkName "mainnet" then "" else networkName |}.

(** The constructor. *)
Definition new (ns : NetworkNameService.t) : t :=
  _calc_Server ns
    {| url := None; adiParsed := None; name := None; path := None;
       pathEnd := ""; networkName := ""; serverName := "" |}.

Definition init_ByAdiUrl (u : string) (a : t) : t :=
  match AdiStringHelper.parseAdi2 u with
  | Some p =>
      {| url := Some u; adiParsed := Some p;
         name := Some (AdiStringHelper.name p);
         path := Some (AdiStringHelper.path p);
         pathEnd := AdiStringHelper.subPath p;
         networkName := networkName a; serverName := serverName a |}
  | None =>
      {| url := Some u; adiParsed := None; name := name a; path := path a;
         pathEnd := pathEnd a;
         networkName := networkName a; serverName := serverName a |}
  end.

Definition createByUrl (ns : NetworkNameService.t) (u : string) : t :=
  init_ByAdiUrl u (new ns).

Definition createByIdentityName (ns : NetworkNameService.t) (n : string) : t :=
  init_ByAdiUrl ("acc://" +:+ n +:+ ".acme") (new ns).

(** Returns the URL and the object with its refreshed network fields. *)
Definition calculate_app_Url (ns : NetworkNameService.t) (appSite : string) (a : t)
  : string * t :=
  let a := _calc_Server ns a in
  ("https://" +:+ str (name a) +:+ "." +:+ appSite +:+ "/" +:+ pathEnd a
     +:+ "?current-network=" +:+ networkName a, a).

Definition qoboto_Url (ns : NetworkNameService.t) (a : t) : string * t :=
  calculate_app_Url ns "Qoboto.com" a.

Definition bankOnLedger_Url (ns : NetworkNameService.t) (a : t) : string * t :=
  calculate_app_Url ns "BankOnLedger.com" a.

End AdiUrlClass.

(* ===================================================================== *)
(** ** OpIdInfoClass and its factory                                      *)
(* ===================================================================== *)

Module OpIdInfo.

(** [adiInfo] is assigned by [init] only. *)
Record t := {
  identityTrain : string;
  identityName : string;
  identityUrl : string;
  adiInfo : option AdiUrlClass.t
}.

Definition new : t :=
  {| identityTrain := ""; identityName := ""; identityUrl := ""; adiInfo := None |}.

Definition init (ns : NetworkNameService.t) (info : t) : t :=
  {| identityTrain := identityTrain info;
     identityName := identityName info;
     identityUrl := identityUrl info;
     adiInfo := Some (AdiUrlClass.createByUrl ns (identityUrl info)) |}.

End OpIdInfo.

Module OpIdInfoFactory.
Import JsString.

(** [c] is none of the two characters excluded by [[^\/\.]]. *)
Definition name_char (c : ascii) : bool :=
  negb (Ascii.eqb c "/") && negb (Ascii.eqb c ".").

(** The longest prefix of name characters, and what follows it. *)
Fixpoint span_name (s : string) : string * string :=
  match s with
  | EmptyString => (EmptyString, EmptyString)
  | String c r =>
      if name_char c then let '(n, rest) := span_name r in (String c n, rest)
      else (EmptyString, s)
  end.

(** The characters the regular-expression dot rejects (below U+0100). *)
Fixpoint has_line_terminator (s : string) : bool :=
  match s with
  | EmptyString => false
  | String c r =>
      Ascii.eqb c "010" || Ascii.eqb c "013" || has_line_terminator r
  end.

(** [identityUrl.match(re)] for the anchored pattern of the source: the
    literal [acc://], a first group of one or more characters other than
    slash and dot, the literal [.acme], then optionally a slash and a second
    group of any characters the dot accepts, up to the end of the subject.
    The result holds the two groups, the second [None] when it did not take
    part.  The first group is greedy and excludes the dot, so only its
    longest candidate can be followed by [.acme]; after [.acme] the subject
    either ends or continues with a slash and a tail free of line
    terminators. *)
Definition match_identity (s : string) : option (string * option string) :=
  if startsWith "acc://" s then
    let '(n, after) := span_name (substring 6 s) in
    if isEmpty n then None
    else if startsWith ".acme" after then
      match substring 5 after with
      | EmptyString => Some (n, None)
      | String c tail =>
          if Ascii.eqb c "/" && negb (has_line_terminator tail)
          then Some (n, Some tail) else None
      end
    else None
  else None.

(** [None] is the [null] returned after "Invalid identity url format". *)
Definition createByIdentityUrl (ns : NetworkNameService.t) (identityUrl : string)
  : option OpIdInfo.t :=
  let identityUrl := IdentityFormatter.formatIdentity identityUrl in
  match match_identity identityUrl with
  | Some (identityName, group2) =>
      let path := match group2 with Some p => p | None => "" end in
      let identityTrain :=
        join "." (identityName
                    :: filter (fun seg => negb (isEmpty seg)) (split "/" path)) in
      Some (OpIdInfo.init ns
              {| OpIdInfo.identityTrain := identityTrain;
                 OpIdInfo.identityName := identityName;
                 OpIdInfo.identityUrl := identityUrl;
                 OpIdInfo.adiInfo := None |})
  | None => None
  end.

Definition createByIdentityName (ns : NetworkNameService.t) (identityName : string)
  : OpIdInfo.t :=
  OpIdInfo.init ns
    {| OpIdInfo.identityTrain := identityName;
       OpIdInfo.identityName := identityName;
       OpIdInfo.identityUrl := IdentityFormatter.formatIdentity identityName;
       OpIdInfo.adiInfo := None |}.

End OpIdInfoFactory.

(* ===================================================================== *)
(** ** QobotoApiService                                                   *)
(* ===================================================================== *)

(** The outcome of a call that may throw. *)
Inductive completion (A : Type) : Type :=
| Return (a : A)
| Throw.
Arguments Return {A} a.
Arguments Throw {A}.

(** Built-ins of the host the service calls.  [JSON_parse] is [None] on a
    [SyntaxError] and never yields [VUndefined]. *)
Class Host := {
  JSON_parse : string -> option value;
  encodeURIComponent : string -> string
}.

(** [ToString v] throws a [TypeError]: an object parsed from JSON converts
    through [Object.prototype.toString] unless an own [toString] property
    (never callable in parsed JSON) shadows it, in which case the conversion
    falls to [valueOf], gets an object back and throws; an array converts
    through [join], that is through the conversion of its elements. *)
Fixpoint toString_throws (v : value) : bool :=
  match v with
  | VObj o => bool_decide (is_Some (o !! "toString"))
  | VArr items => existsb toString_throws items
  | _ => false
  end.

Module QobotoApiService.
Import JsString.

Record CacheEntry := { data : value; timestamp : Z }.

(** [requests] is not a field of the source: it logs, oldest first, the URL
    of every call of [fetch] made by the instance. *)
Record t := {
  baseUrl : string;
  cache : gmap string CacheEntry;
  debugMode : bool;
  developmentMode : bool;
  requests : list string
}.

(** [this.cacheTimeout], assigned once by the constructor. *)
Definition cacheTimeout : Z := 5 * 60 * 1000.

Definition new : t :=
  {| baseUrl := "https://localhost:7033"; cache := ∅; debugMode := true;
     developmentMode := false; requests := [] |}.

Definition setDebugMode (enabled : bool) (svc : t) : t :=
  {| baseUrl := baseUrl svc; cache := cache svc; debugMode := enabled;
     developmentMode := developmentMode svc; requests := requests svc |}.

Definition setBaseUrl (b : string) (svc : t) : t :=
  {| baseUrl := b; cache := cache svc; debugMode := debugMode svc;
     developmentMode := developmentMode svc; requests := requests svc |}.

Definition setDevelopmentMode (enabled : bool) (svc : t) : t :=
  {| baseUrl := baseUrl svc; cache := cache svc; debugMode := debugMode svc;
     developmentMode := enabled; requests := requests svc |}.

Definition with_cache (c : gmap string CacheEntry) (svc : t) : t :=
  {| baseUrl := baseUrl svc; cache := c; debugMode := debugMode svc;
     developmentMode := developmentMode svc; requests := requests svc |}.

Definition with_request (u : string) (svc : t) : t :=
  {| baseUrl := baseUrl svc; cache := cache svc; debugMode := debugMode svc;
     developmentMode := developmentMode svc; requests := requests svc ++ [u] |}.

(** What the world answers to one call of [getIdentityData]: the clock read
    at the cache check, the outcome of [fetch] and of [response.text()], and
    the clock read when the result is stored. *)
Inductive fetch_result :=
| FetchRejects
| Response (ok : bool) (text : option string).

Record env := { now_check : Z; response : fetch_result; now_store : Z }.

(** [_cleanText]; of its replacements only the one of U+00A0 has a pattern
    below U+0100 (the others match U+FFFD, U+2019, U+201C, U+201D, U+2013,
    U+2014 and U+2026, which no string of this embedding contains). *)
Definition _cleanText (text : value) : value :=
  match text with
  | VStr s => if isEmpty s then text else VStr (trim (replaceAll "160" " " s))
  | _ => text
  end.

(** The lookup at the head of [getIdentityData]: the hit, if any, and the
    store after the lookup. *)
Definition cache_get (now : Z) (cacheKey : string) (c : gmap string CacheEntry)
  : option value * gmap string CacheEntry :=
  match c !! cacheKey with
  | Some cached =>
      if (now - timestamp cached <? cacheTimeout)%Z then (Some (data cached), c)
      else (None, delete cacheKey c)
  | None => (None, c)
  end.

(** [this.cache.set(cacheKey, {data, timestamp: Date.now()})] *)
Definition cache_set (now : Z) (cacheKey : string) (d : value)
  (c : gmap string CacheEntry) : gmap string CacheEntry :=
  <[cacheKey := {| data := d; timestamp := now |}]> c.

(** [item && item.name === 'main'] *)
Definition is_main (item : value) : bool :=
  truthy item &&
  match getField item "name" with
  | VStr s => String.eqb s "main"
  | _ => false
  end.

(** [responseData.find(item => ...)]: the callback computes [isMain], then
    builds the debug message, which converts [item?.name] to a string. *)
Fixpoint find_main (items : list value) : completion (option value) :=
  match items with
  | [] => Return None
  | item :: rest =>
      let isMain := is_main item in
      if toString_throws (getField item "name") then Throw
      else if isMain then Return (Some item)
      else find_main rest
  end.

Definition _findMainSection (responseData : value) : completion value :=
  match responseData with
  | VObj _ => Return responseData
  | VArr items =>
      match find_main items with
      | Throw => Throw
      | Return (Some mainSection) => Return mainSection
      | Return None =>
          if (0 <? length items)%nat
             && existsb toString_throws
                  (map (fun item => orElse (getField item "name") (VStr "unnamed"))
                       items)
          then Throw else Return VNull
      end
  | _ => Return VNull
  end.

Definition getIdentityData `{Host} (e : env) (identityUrl : string) (svc : t)
  : value * t :=
  let cacheKey := "qoboto_" +:+ identityUrl in
  match cache_get (now_check e) cacheKey (cache svc) with
  | (Some d, _) => (d, svc)
  | (None, c) =>
      let apiUrl := baseUrl svc +:+ "/api/v1/Qoboto/GetDataValue/All?DataAccountUrl="
                      +:+ encodeURIComponent identityUrl in
      let svc := with_request apiUrl (with_cache c svc) in
      match response e with
      | FetchRejects => (VNull, svc)
      | Response false _ => (VNull, svc)
      | Response true None => (VNull, svc)
      | Response true (Some responseText) =>
          match JSON_parse responseText with
          | None => (VNull, svc)
          | Some responseData =>
              let reparsed :=
                match responseData with
                | VStr s => JSON_parse s
                | _ => Some responseData
                end in
              match reparsed with
              | None => (VNull, svc)
              | Some responseData =>
                  match _findMainSection responseData with
                  | Throw => (VNull, svc)
                  | Return mainData =>
                      if negb (truthy mainData) then (VNull, svc)
                      else (mainData,
                            with_cache
                              (cache_set (now_store e) cacheKey mainData (cache svc))
                              svc)
                  end
              end
          end
      end
  end.

Definition getLogoUrl `{Host} (e : env) (identityUrl : string) (svc : t)
  : completion value * t :=
  let '(d, svc) := getIdentityData e identityUrl svc in
  let logoUrl := orElse (getField d "logoUrl") VNull in
  (if toString_throws logoUrl then Throw else Return logoUrl, svc).

(** The debug message calls [cleanedDescription?.substring(0, 100)], which
    is not a function unless the value is a string. *)
Definition getSectionMain1Description `{Host} (e : env) (identityUrl : string)
  (svc : t) : completion value * t :=
  let '(d, svc) := getIdentityData e identityUrl svc in
  let rawDescription := orElse (getField d "sectionMain1Description") VNull in
  let cleanedDescription :=
    if truthy rawDescription then _cleanText rawDescription else VNull in
  (match cleanedDescription with
   | VNull | VUndefined | VStr _ => Return cleanedDescription
   | _ => Throw
   end, svc).

Definition getSectionMain1Background2ImageUrl `{Host} (e : env)
  (identityUrl : string) (svc : t) : completion value * t :=
  let '(d, svc) := getIdentityData e identityUrl svc in
  (Return (orElse (getField d "sectionMain1Background2ImageUrl") VNull), svc).

Record MainData := {
  md_logoUrl : value;
  md_sectionMain1Description : value;
  md_sectionMain1Background2ImageUrl : value;
  md_rawData : value
}.

Definition getAllMainData `{Host} (e : env) (identityUrl : string) (svc : t)
  : MainData * t :=
  let '(d, svc) := getIdentityData e identityUrl svc in
  let rawDescription := orElse (getField d "sectionMain1Description") VNull in
  let cleanedDescription :=
    if truthy rawDescription then _cleanText rawDescription else VNull in
  ({| md_logoUrl := orElse (getField d "logoUrl") VNull;
      md_sectionMain1Description := cleanedDescription;
      md_sectionMain1Background2ImageUrl :=
        orElse (getField d "sectionMain1Background2ImageUrl") VNull;
      md_rawData := d |}, svc).

(** [clearCache(identityUrl = null)]: a falsy argument clears everything. *)
Definition clearCache (identityUrl : option string) (svc : t) : t :=
  match identityUrl with
  | Some u =>
      if isEmpty u then with_cache ∅ svc
      else with_cache (delete ("qoboto_" +:+ u) (cache svc)) svc
  | None => with_cache ∅ svc
  end.

(** [getMockData]; [lastUpdated] is what [new Date().toISOString()] gives
    at the call. *)
Definition getMockData (lastUpdated : string) (identityUrl : string) : value :=
  let identityName := replace "acc://" "" (hd EmptyString (split "." identityUrl)) in
  VObj {[ "name" := VStr "main";
          "logoUrl" :=
            VStr ("https://pub-1c0e543900fc40318aa4c4aec39fb352.r2.dev/logo-"
                    +:+ identityName +:+ ".png");
          "sectionMain1Description" :=
            VStr ("Welcome to " +:+ identityName
                    +:+ "'s digital identity space. This is a comprehensive platform for managing your digital presence and accessing various blockchain services.");
          "sectionMain1Background2ImageUrl" :=
            VStr "https://images.unsplash.com/photo-1557804506-669a67965ba0?ixlib=rb-4.0.3&ixid=M3wxMjA3fDB8MHxwaG90by1wYWdlfHx8fGVufDB8fHx8fA%3D%3D&auto=format&fit=crop&w=1074&q=80";
          "lastUpdated" := VStr lastUpdated;
          "identityUrl" := VStr identityUrl ]}.

(** [getIdentityDataWithMock]; the simulated delay has no other effect. *)
Definition getIdentityDataWithMock `{Host} (lastUpdated : string) (e : env)
  (identityUrl : string) (svc : t) : value * t :=
  if developmentMode svc then (getMockData lastUpdated identityUrl, svc)
  else getIdentityData e identityUrl svc.

(** The instance every record uses: created, then put in development mode. *)
Definition qobotoApiService : t := setDevelopmentMode true new.

End QobotoApiService.

(* ===================================================================== *)
(** ** OpIdResourceClass                                                  *)
(* ===================================================================== *)

Module OpIdResource.
Import JsString.

Record t := {
  opIdInfo : OpIdInfo.t;
  _dataCache : gmap string value;
  _customOverrides : gmap string value
}.

(** The constructor. *)
Definition new (info : OpIdInfo.t) : t :=
  {| opIdInfo := info; _dataCache := ∅; _customOverrides := ∅ |}.

Definition with_dataCache (c : gmap string value) (r : t) : t :=
  {| opIdInfo := opIdInfo r; _dataCache := c; _customOverrides := _customOverrides r |}.

Definition with_customOverrides (o : gmap string value) (r : t) : t :=
  {| opIdInfo := opIdInfo r; _dataCache := _dataCache r; _customOverrides := o |}.

Definition _getSimpleIdentityUrl (r : t) : string :=
  replace "acc://" "" (OpIdInfo.identityUrl (opIdInfo r)).

Definition defaultLogoUrl : string :=
  "https://pub-1c0e543900fc40318aa4c4aec39fb352.r2.dev/logo.png".

Definition defaultDescription (r : t) : string :=
  "Welcome to " +:+ OpIdInfo.identityName (opIdInfo r)
    +:+ "'s digital identity dashboard.".

Definition defaultBackgroundUrl : string :=
  "https://images.unsplash.com/photo-1557804506-669a67965ba0?ixlib=rb-4.0.3&auto=format&fit=crop&w=1074&q=80".

(** Each accessor returns its value, the record and the service after the
    call.  A [Throw] of the service is caught and leads to the default. *)
Definition logoUrl `{Host} (e : QobotoApiService.env) (r : t)
  (svc : QobotoApiService.t) : value * t * QobotoApiService.t :=
  if truthy (prop (_customOverrides r) "logoUrl")
  then (prop (_customOverrides r) "logoUrl", r, svc)
  else if truthy (prop (_dataCache r) "logoUrl")
  then (prop (_dataCache r) "logoUrl", r, svc)
  else
    let identityUrl := _getSimpleIdentityUrl r in
    let '(res, svc) := QobotoApiService.getLogoUrl e identityUrl svc in
    let fallback :=
      (VStr defaultLogoUrl,
       with_dataCache (<["logoUrl" := VStr defaultLogoUrl]> (_dataCache r)) r, svc) in
    match res with
    | Return logoUrl =>
        if truthy logoUrl
        then (logoUrl, with_dataCache (<["logoUrl" := logoUrl]> (_dataCache r)) r, svc)
        else fallback
    | Throw => fallback
    end.

Definition sectionMain1Description `{Host} (e : QobotoApiService.env) (r : t)
  (svc : QobotoApiService.t) : value * t * QobotoApiService.t :=
  if truthy (prop (_customOverrides r) "sectionMain1Description")
  then (prop (_customOverrides r) "sectionMain1Description", r, svc)
  else if truthy (prop (_dataCache r) "sectionMain1Description")
  then (prop (_dataCache r) "sectionMain1Description", r, svc)
  else
    let identityUrl := _getSimpleIdentityUrl r in
    let '(res, svc) :=
      QobotoApiService.getSectionMain1Description e identityUrl svc in
    let fallback :=
      (VStr (defaultDescription r),
       with_dataCache
         (<["sectionMain1Description" := VStr (defaultDescription r)]> (_dataCache r))
         r, svc) in
    match res with
    | Return description =>
        if truthy description
        then (description,
              with_dataCache
                (<["sectionMain1Description" := description]> (_dataCache r)) r, svc)
        else fallback
    | Throw => fallback
    end.

Definition sectionMain1Background2ImageUrl `{Host} (e : QobotoApiService.env)
  (r : t) (svc : QobotoApiService.t) : value * t * QobotoApiService.t :=
  if truthy (prop (_customOverrides r) "sectionMain1Background2ImageUrl")
  then (prop (_customOverrides r) "sectionMain1Background2ImageUrl", r, svc)
  else if truthy (prop (_dataCache r) "sectionMain1Background2ImageUrl")
  then (prop (_dataCache r) "sectionMain1Background2ImageUrl", r, svc)
  else
    let identityUrl := _getSimpleIdentityUrl r in
    let '(res, svc) :=
      QobotoApiService.getSectionMain1Background2ImageUrl e identityUrl svc in
    let fallback :=
      (VStr defaultBackgroundUrl,
       with_dataCache
         (<["sectionMain1Background2ImageUrl" := VStr defaultBackgroundUrl]>
            (_dataCache r)) r, svc) in
    match res with
    | Return backgroundImageUrl =>
        if truthy backgroundImageUrl
        then (backgroundImageUrl,
              with_dataCache
                (<["sectionMain1Background2ImageUrl" := backgroundImageUrl]>
                   (_dataCache r)) r, svc)
        else fallback
    | Throw => fallback
    end.

(** The answers of the world to the four service calls [getAllMainData] may
    make: the combined one, then one per accessor. *)
Record envs := {
  e_all : QobotoApiService.env;
  e_logo : QobotoApiService.env;
  e_description : QobotoApiService.env;
  e_background : QobotoApiService.env
}.

(** Nothing the [try] block calls can throw here, so its [catch] is not
    reached. *)
Definition getAllMainData `{Host} (es : envs) (r : t) (svc : QobotoApiService.t)
  : QobotoApiService.MainData * t * QobotoApiService.t :=
  let identityUrl := _getSimpleIdentityUrl r in
  let '(allData, svc) := QobotoApiService.getAllMainData (e_all es) identityUrl svc in
  let store (k : string) (v : value) (r : t) : t :=
    if truthy v then with_dataCache (<[k := v]> (_dataCache r)) r else r in
  let r := store "logoUrl" (QobotoApiService.md_logoUrl allData) r in
  let r := store "sectionMain1Description"
             (QobotoApiService.md_sectionMain1Description allData) r in
  let r := store "sectionMain1Background2ImageUrl"
             (QobotoApiService.md_sectionMain1Background2ImageUrl allData) r in
  let '(v1, r, svc) :=
    if truthy (QobotoApiService.md_logoUrl allData)
    then (QobotoApiService.md_logoUrl allData, r, svc)
    else logoUrl (e_logo es) r svc in
  let '(v2, r, svc) :=
    if truthy (QobotoApiService.md_sectionMain1Description allData)
    then (QobotoApiService.md_sectionMain1Description allData, r, svc)
    else sectionMain1Description (e_description es) r svc in
  let '(v3, r, svc) :=
    if truthy (QobotoApiService.md_sectionMain1Background2ImageUrl allData)
    then (QobotoApiService.md_sectionMain1Background2ImageUrl allData, r, svc)
    else sectionMain1Background2ImageUrl (e_background es) r svc in
  ({| QobotoApiService.md_logoUrl := v1;
      QobotoApiService.md_sectionMain1Description := v2;
      QobotoApiService.md_sectionMain1Background2ImageUrl := v3;
      QobotoApiService.md_rawData := QobotoApiService.md_rawData allData |}, r, svc).

Definition setCustomLogoUrl (v : value) (r : t) : t :=
  with_customOverrides (<["logoUrl" := v]> (_customOverrides r)) r.

Definition setCustomDescription (v : value) (r : t) : t :=
  with_customOverrides (<["sectionMain1Description" := v]> (_customOverrides r)) r.

Definition setCustomBackgroundImageUrl (v : value) (r : t) : t :=
  with_customOverrides
    (<["sectionMain1Background2ImageUrl" := v]> (_customOverrides r)) r.

(** [clearCache(dataType = null)]: a falsy [dataType] empties the memo. *)
Definition clearCache (dataType : option string) (r : t) (svc : QobotoApiService.t)
  : t * QobotoApiService.t :=
  let r' :=
    match dataType with
    | Some k => if isEmpty k then with_dataCache ∅ r
                else with_dataCache (delete k (_dataCache r)) r
    | None => with_dataCache ∅ r
    end in
  (r', QobotoApiService.clearCache (Some (_getSimpleIdentityUrl r)) svc).

Definition clearOverrides (r : t) : t := with_customOverrides ∅ r.

End OpIdResource.

(* ===================================================================== *)
(** ** OpIdResourceFactoryClass and the AdiParse facade                   *)
(* ===================================================================== *)

Module OpIdResourceFactory.

Definition createByIdentityUrl (ns : NetworkNameService.t) (identityUrl : string)
  : option OpIdResource.t :=
  match OpIdInfoFactory.createByIdentityUrl ns identityUrl with
  | None => None
  | Some info => Some (OpIdResource.new info)
  end.

Definition createByIdentityName (ns : NetworkNameService.t) (identityName : string)
  : option OpIdResource.t :=
  Some (OpIdResource.new (OpIdInfoFactory.createByIdentityName ns identityName)).

End OpIdResourceFactory.

Module AdiParse.

(** [None] is [null]. *)
Definition getBankOnLedgerUrl (ns : NetworkNameService.t) (identityUrl : string)
  : option string :=
  match OpIdResourceFactory.createByIdentityUrl ns identityUrl with
  | Some opIdResource =>
      match OpIdInfo.adiInfo (OpIdResource.opIdInfo opIdResource) with
      | Some adiInfo => Some (fst (AdiUrlClass.bankOnLedger_Url ns adiInfo))
      | None => None
      end
  | None => None
  end.

Definition getQobotoUrl (ns : NetworkNameService.t) (identityUrl : string)
  : option string :=
  match OpIdResourceFactory.createByIdentityUrl ns identityUrl with
  | Some opIdResource =>
      match OpIdInfo.adiInfo (OpIdResource.opIdInfo opIdResource) with
      | Some adiInfo => Some (fst (AdiUrlClass.qoboto_Url ns adiInfo))
      | None => None
      end
  | None => None
  end.

Definition setNetwork (networkName : string) (ns : NetworkNameService.t)
  : NetworkNameService.t :=
  NetworkNameService.switchNetworkName networkName ns.

Definition getNetwork (ns : NetworkNameService.t) : string :=
  NetworkNameService.currentNetworkName ns.

(** The asynchronous methods build a new record at every call, resolve the
    field on it and drop it; they return the value and the data client
    after the call.  [VNull] is the [null] of a rejected locator. *)
Definition getLogoUrl `{Host} (ns : NetworkNameService.t) (e : QobotoApiService.env)
  (identityUrl : string) (svc : QobotoApiService.t) : value * QobotoApiService.t :=
  match OpIdResourceFactory.createByIdentityUrl ns identityUrl with
  | Some opIdResource =>
      let '(v, _, svc) := OpIdResource.logoUrl e opIdResource svc in (v, svc)
  | None => (VNull, svc)
  end.

Definition getSectionMain1Description `{Host} (ns : NetworkNameService.t)
  (e : QobotoApiService.env) (identityUrl : string) (svc : QobotoApiService.t)
  : value * QobotoApiService.t :=
  match OpIdResourceFactory.createByIdentityUrl ns identityUrl with
  | Some opIdResource =>
      let '(v, _, svc) := OpIdResource.sectionMain1Description e opIdResource svc in
      (v, svc)
  | None => (VNull, svc)
  end.

Definition getSectionMain1Background2ImageUrl `{Host} (ns : NetworkNameService.t)
  (e : QobotoApiService.env) (identityUrl : string) (svc : QobotoApiService.t)
  : value * QobotoApiService.t :=
  match OpIdResourceFactory.createByIdentityUrl ns identityUrl with
  | Some opIdResource =>
      let '(v, _, svc) :=
        OpIdResource.sectionMain1Background2ImageUrl e opIdResource svc in
      (v, svc)
  | None => (VNull, svc)
  end.

(** [None] is [null]. *)
Definition getAllMainData `{Host} (ns : NetworkNameService.t)
  (es : OpIdResource.envs) (identityUrl : string) (svc : QobotoApiService.t)
  : option QobotoApiService.MainData * QobotoApiService.t :=
  match OpIdResourceFactory.createByIdentityUrl ns identityUrl with
  | Some opIdResource =>
      let '(d, _, svc) := OpIdResource.getAllMainData es opIdResource svc in
      (Some d, svc)
  | None => (None, svc)
  end.

Definition getOpIdResource (ns : NetworkNameService.t) (identityUrl : string)
  : option OpIdResource.t :=
  OpIdResourceFactory.createByIdentityUrl ns identityUrl.

Definition setApiBaseUrl (baseUrl : string) (svc : QobotoApiService.t)
  : QobotoApiService.t :=
  QobotoApiService.setBaseUrl baseUrl svc.

(** [clearCache(identityUrl = null)]: with a truthy locator, the cache
    clear of a record built for it, if the factory builds one; otherwise
    the clear of the whole store. *)
Definition clearCache (ns : NetworkNameService.t) (identityUrl : option string)
  (svc : QobotoApiService.t) : QobotoApiService.t :=
  match identityUrl with
  | Some x =>
      if JsString.isEmpty x then QobotoApiService.clearCache None svc
      else match OpIdResourceFactory.createByIdentityUrl ns x with
           | Some opIdResource => snd (OpIdResource.clearCache None opIdResource svc)
           | None => svc
           end
  | None => QobotoApiService.clearCache None svc
  end.

End AdiParse.

(* ===================================================================== *)
(** ** The three display fields, and sequences of calls                   *)
(* ===================================================================== *)

(** The fields an identity record resolves; each function below selects the
    method of the source that serves the field. *)
Inductive field := LogoUrl | SectionMain1Description | SectionMain1Background2ImageUrl.

Module Field.

(** The property name of the field in [_dataCache] and [_customOverrides]. *)
Definition key (f : field) : string :=
  match f with
  | LogoUrl => "logoUrl"
  | SectionMain1Description => "sectionMain1Description"
  | SectionMain1Background2ImageUrl => "sectionMain1Background2ImageUrl"
  end.

Definition default (f : field) (r : OpIdResource.t) : string :=
  match f with
  | LogoUrl => OpIdResource.defaultLogoUrl
  | SectionMain1Description => OpIdResource.defaultDescription r
  | SectionMain1Background2ImageUrl => OpIdResource.defaultBackgroundUrl
  end.

(** The method of the data client behind the field. *)
Definition client `{Host} (f : field)
  : QobotoApiService.env -> string -> QobotoApiService.t
    -> completion value * QobotoApiService.t :=
  match f with
  | LogoUrl => QobotoApiService.getLogoUrl
  | SectionMain1Description => QobotoApiService.getSectionMain1Description
  | SectionMain1Background2ImageUrl =>
      QobotoApiService.getSectionMain1Background2ImageUrl
  end.

(** The accessor of the record. *)
Definition accessor `{Host} (f : field)
  : QobotoApiService.env -> OpIdResource.t -> QobotoApiService.t
    -> value * OpIdResource.t * QobotoApiService.t :=
  match f with
  | LogoUrl => OpIdResource.logoUrl
  | SectionMain1Description => OpIdResource.sectionMain1Description
  | SectionMain1Background2ImageUrl => OpIdResource.sectionMain1Background2ImageUrl
  end.

(** The manual-override setter. *)
Definition setCustom (f : field) : value -> OpIdResource.t -> OpIdResource.t :=
  match f with
  | LogoUrl => OpIdResource.setCustomLogoUrl
  | SectionMain1Description => OpIdResource.setCustomDescription
  | SectionMain1Background2ImageUrl => OpIdResource.setCustomBackgroundImageUrl
  end.

(** The method of the [AdiParse] facade. *)
Definition facade `{Host} (f : field)
  : NetworkNameService.t -> QobotoApiService.env -> string -> QobotoApiService.t
    -> value * QobotoApiService.t :=
  match f with
  | LogoUrl => AdiParse.getLogoUrl
  | SectionMain1Description => AdiParse.getSectionMain1Description
  | SectionMain1Background2ImageUrl => AdiParse.getSectionMain1Background2ImageUrl
  end.

(** The field in the object [getAllMainData] returns. *)
Definition of_main_data (f : field) (d : QobotoApiService.MainData) : value :=
  match f with
  | LogoUrl => QobotoApiService.md_logoUrl d
  | SectionMain1Description => QobotoApiService.md_sectionMain1Description d
  | SectionMain1Background2ImageUrl =>
      QobotoApiService.md_sectionMain1Background2ImageUrl d
  end.

Definition eqb (f g : field) : bool :=
  match f, g with
  | LogoUrl, LogoUrl
  | SectionMain1Description, SectionMain1Description
  | SectionMain1Background2ImageUrl, SectionMain1Background2ImageUrl => true
  | _, _ => false
  end.

End Field.

(** One call on the data client, with the answers of the world it needs. *)
Inductive service_call :=
| SGetIdentityData (e : QobotoApiService.env) (identityUrl : string)
| SGetField (f : field) (e : QobotoApiService.env) (identityUrl : string)
| SGetAllMainData (e : QobotoApiService.env) (identityUrl : string)
| SGetIdentityDataWithMock (lastUpdated : string) (e : QobotoApiService.env)
    (identityUrl : string)
| SClearCache (identityUrl : option string)
| SSetBaseUrl (baseUrl : string)
| SSetDebugMode (enabled : bool)
| SSetDevelopmentMode (enabled : bool).

(** The data client after the call. *)
Definition run_service `{Host} (c : service_call) (svc : QobotoApiService.t)
  : QobotoApiService.t :=
  match c with
  | SGetIdentityData e u => snd (QobotoApiService.getIdentityData e u svc)
  | SGetField f e u => snd (Field.client f e u svc)
  | SGetAllMainData e u => snd (QobotoApiService.getAllMainData e u svc)
  | SGetIdentityDataWithMock d e u =>
      snd (QobotoApiService.getIdentityDataWithMock d e u svc)
  | SClearCache o => QobotoApiService.clearCache o svc
  | SSetBaseUrl b => QobotoApiService.setBaseUrl b svc
  | SSetDebugMode b => QobotoApiService.setDebugMode b svc
  | SSetDevelopmentMode b => QobotoApiService.setDevelopmentMode b svc
  end.

(** The calls of a list on the data client, first to last. *)
Definition run_services `{Host} (cs : list service_call) (svc : QobotoApiService.t)
  : QobotoApiService.t :=
  fold_left (fun svc c => run_service c svc) cs svc.

(** One call on an identity record, or on the data client it shares. *)
Inductive record_call :=
| RAccess (f : field) (e : QobotoApiService.env)
| RGetAllMainData (es : OpIdResource.envs)
| RSetCustom (f : field) (v : value)
| RClearCache (dataType : option string)
| RClearOverrides
| RService (c : service_call).

Definition run_record `{Host} (c : record_call)
  (st : OpIdResource.t * QobotoApiService.t) : OpIdResource.t * QobotoApiService.t :=
  let '(r, svc) := st in
  match c with
  | RAccess f e => let '(_, r, svc) := Field.accessor f e r svc in (r, svc)
  | RGetAllMainData es =>
      let '(_, r, svc) := OpIdResource.getAllMainData es r svc in (r, svc)
  | RSetCustom f v => (Field.setCustom f v r, svc)
  | RClearCache dt => OpIdResource.clearCache dt r svc
  | RClearOverrides => (OpIdResource.clearOverrides r, svc)
  | RService c => (r, run_service c svc)
  end.

(** The calls of a list, first to last. *)
Definition run_records `{Host} (cs : list record_call)
  (st : OpIdResource.t * QobotoApiService.t) : OpIdResource.t * QobotoApiService.t :=
  fold_left (fun st c => run_record c st) cs st.

(** The call leaves the override of field [f] in place: it neither clears
    the overrides nor sets that of [f] anew. *)
Definition keeps_override (f : field) (c : record_call) : bool :=
  match c with
  | RClearOverrides => false
  | RSetCustom g _ => negb (Field.eqb f g)
  | _ => true
  end.

(** A host for examples: [JSON.parse] knows the listed texts only, and
    [encodeURIComponent] leaves its argument as it is (as the real one does
    on letters, digits and [- _ . ! ~ * ' ( )]). *)
Definition canned_host (texts : list (string * value)) : Host :=
  {| JSON_parse := fun s =>
       match List.find (fun kv => String.eqb (fst kv) s) texts with
       | Some kv => Some (snd kv)
       | None => None
       end;
     encodeURIComponent := fun s => s |}.

(* ===================================================================== *)
(** ** Vocabulary of the statements, and data for the examples            *)
(* ===================================================================== *)

Module Spec.
Import JsString QobotoApiService.

(** A locator in canonical form: lower case, with scheme and suffix. *)
Definition canonical (y : string) : Prop :=
  toLowerCase y = y /\ includes "acc://" y = true /\ includes ".acme" y = true.

(** The element is an object whose [name] is the string [main]. *)
Definition named_main (x : value) : Prop :=
  exists o, x = VObj o /\ o !! "name" = Some (VStr "main").

(** The debug message of the scan can be built for the element: converting
    its [name] to a string does not throw. *)
Definition name_converts (x : value) : Prop :=
  toString_throws (getField x "name") = false.

(** The response in which a section placed before [main] has a [name] that
    is an object with a [toString] entry. *)
Definition poisoned_response : value :=
  VArr [ VObj {[ "name" := VObj {[ "toString" := VNum 0 ]} ]};
         VObj {[ "name" := VStr "main"; "logoUrl" := VStr "L" ]} ].

(** The call looks the locator [u] up at the clock of [e]. *)
Definition looks_up (c : service_call) (e : env) (u : string) : Prop :=
  c = SGetIdentityData e u \/ (exists f, c = SGetField f e u)
  \/ c = SGetAllMainData e u \/ (exists d, c = SGetIdentityDataWithMock d e u).

(** The data client has nothing for the field: it threw, or returned a
    falsy value (it returns [null] for every field it does not find). *)
Definition absent (c : completion value) : Prop :=
  match c with
  | Return v => truthy v = false
  | Throw => True
  end.

(** The record [AdiParse] builds for [sunstream.acme]. *)
Definition sunstream : OpIdResource.t :=
  OpIdResource.new (OpIdInfoFactory.createByIdentityName NetworkNameService.new "sunstream").

(** A world in which the network is down. *)
Definition offline : env :=
  {| now_check := 1000; response := FetchRejects; now_store := 1000 |}.

(** The data client holding one section for [sunstream.acme], stored at
    clock 1000. *)
Definition warm : QobotoApiService.t :=
  with_cache
    {[ "qoboto_sunstream.acme" :=
         {| data := VObj {[ "name" := VStr "main"; "logoUrl" := VStr "L" ]};
            timestamp := 1000 |} ]}
    qobotoApiService.

(** The response of the specification's example. *)
Definition sections : value :=
  VArr [ VObj {[ "name" := VStr "header" ]};
         VObj {[ "name" := VStr "main"; "logoUrl" := VStr "L";
                 "sectionMain1Description" := VStr " D ";
                 "sectionMain1Background2ImageUrl" := VStr "B" ]};
         VObj {[ "name" := VStr "footer" ]} ].

(** A response without a [main] section. *)
Definition no_main : value :=
  VArr [ VObj {[ "name" := VStr "header" ]}; VObj {[ "name" := VStr "footer" ]} ].

Definition answers (body : string) : env :=
  {| now_check := 1000; response := Response true (Some body); now_store := 1005 |}.

End Spec.

(* ===================================================================== *)
(** ** Further vocabulary of the statements                               *)
(* ===================================================================== *)

Module Vocabulary.
Import JsString AdiStringHelper QobotoApiService.

(** The locator [parseAdi2] works on, once the input passed the guard. *)
Definition locator_of (x : string) : string :=
  if startsWith "acc://" (fixAdiUrl x) then fixAdiUrl x else "acc://" +:+ fixAdiUrl x.

(** The record [parseAdi2] builds from that locator. *)
Definition record_of (u : string) : adi :=
  let pieces := split "." (substring 6 u) in
  {| url := u;
     path := substring 6 u;
     name := hd EmptyString pieces;
     rootUrl := "acc://" +:+ hd EmptyString pieces +:+ ".acme";
     subPath := if (5 <? String.length (nth 1 pieces EmptyString))%nat
                then substring 5 (nth 1 pieces EmptyString) else EmptyString |}.

(** The tail of a locator the pattern accepts: nothing, or a slash and the
    second group. *)
Definition tail_of (group2 : option string) : string :=
  match group2 with
  | Some t => "/" +:+ t
  | None => EmptyString
  end.

(** The URL [getIdentityData] fetches for a locator. *)
Definition apiUrl `{Host} (svc : QobotoApiService.t) (identityUrl : string) : string :=
  baseUrl svc +:+ "/api/v1/Qoboto/GetDataValue/All?DataAccountUrl="
    +:+ encodeURIComponent identityUrl.

(** Every entry of the store holds a plain object. *)
Definition objects_only (c : gmap string CacheEntry) : Prop :=
  forall k entry, c !! k = Some entry -> exists o, data entry = VObj o.

(** The two mode flags of the data client, set together. *)
Definition with_flags (debug development : bool) (svc : QobotoApiService.t)
  : QobotoApiService.t :=
  setDebugMode debug (setDevelopmentMode development svc).

(** The string is empty or starts with a character that is not white space. *)
Definition starts_clean (s : string) : bool :=
  match s with
  | EmptyString => true
  | String c _ => negb (is_ws c)
  end.

(** The record without the manual override of field [f]. *)
Definition without_override (f : field) (r : OpIdResource.t) : OpIdResource.t :=
  OpIdResource.with_customOverrides
    (delete (Field.key f) (OpIdResource._customOverrides r)) r.

End Vocabulary.

(* ===================================================================== *)
(** * Properties                                                          *)
(* ===================================================================== *)

(** ** Strings *)

Module JsStringFacts.
Import JsString.

Lemma isEmpty_true (s : string) : isEmpty s = true <-> s = "".
Proof. destruct s; simpl; split; congruence. Qed.

Lemma isEmpty_false (s : string) : isEmpty s = false <-> s <> "".
Proof. destruct s; simpl; split; congruence. Qed.

Lemma isEmpty_app (s t : string) : isEmpty (s +:+ t) = isEmpty s && isEmpty t.
Proof. destruct s; reflexivity. Qed.

Lemma append_nil_r (s : string) : s +:+ "" = s.
Proof. induction s as [|c r IH]; cbn [append]; [reflexivity | now f_equal]. Qed.

Lemma append_assoc (a b c : string) : (a +:+ b) +:+ c = a +:+ (b +:+ c).
Proof. induction a as [|x r IH]; cbn [append]; [reflexivity | now f_equal]. Qed.

Lemma lower_unit_idem (c : ascii) : lower_unit (lower_unit c) = lower_unit c.
Proof. destruct c as [[] [] [] [] [] [] [] []]; reflexivity. Qed.

Lemma toLowerCase_idem (s : string) : toLowerCase (toLowerCase s) = toLowerCase s.
Proof.
  induction s as [|c r IH]; simpl; [reflexivity|].
  now rewrite lower_unit_idem, IH.
Qed.

Lemma toLowerCase_app (a b : string) :
  toLowerCase (a +:+ b) = toLowerCase a +:+ toLowerCase b.
Proof.
  induction a as [|c r IH]; cbn [append toLowerCase]; [reflexivity | now f_equal].
Qed.

Lemma toLowerCase_slashes (k : nat) : toLowerCase (slashes k) = slashes k.
Proof. induction k as [|k IH]; simpl; [reflexivity | now rewrite IH]. Qed.

Lemma toLowerCase_all_ws (s : string) : all_ws s = true -> toLowerCase s = s.
Proof.
  induction s as [|c r IH]; simpl; [reflexivity|].
  intros [Hc Hr]%andb_prop. rewrite (IH Hr). f_equal.
  revert Hc. destruct c as [[] [] [] [] [] [] [] []]; vm_compute; congruence.
Qed.

Lemma startsWith_app_self (p s : string) : startsWith p (p +:+ s) = true.
Proof.
  induction p as [|c r IH]; simpl; [reflexivity|].
  now rewrite Ascii.eqb_refl, IH.
Qed.

Lemma startsWith_app_mono (p s t : string) :
  startsWith p s = true -> startsWith p (s +:+ t) = true.
Proof.
  revert s; induction p as [|c r IH]; intros s; simpl; [reflexivity|].
  destruct s as [|d s']; simpl; [discriminate|].
  intros [Hc Hr]%andb_prop. now rewrite Hc, (IH _ Hr).
Qed.

Lemma includes_unfold (p s : string) :
  includes p s =
  startsWith p s || match s with "" => false | String _ r => includes p r end.
Proof. destruct s; reflexivity. Qed.

Lemma includes_app_self (p s : string) : includes p (p +:+ s) = true.
Proof. now rewrite includes_unfold, startsWith_app_self. Qed.

Lemma includes_app_l (p s t : string) :
  includes p s = true -> includes p (s +:+ t) = true.
Proof.
  induction s as [|c r IH]; rewrite (includes_unfold p).
  - rewrite orb_false_r. intros H.
    now rewrite includes_unfold, (startsWith_app_mono _ _ t H).
  - change (String c r +:+ t) with (String c (r +:+ t)).
    intros [H|H]%orb_prop; rewrite includes_unfold.
    + change (String c (r +:+ t)) with (String c r +:+ t).
      now rewrite (startsWith_app_mono _ _ t H).
    + rewrite (IH H). apply orb_true_r.
Qed.

Lemma includes_app_r (p s t : string) :
  includes p t = true -> includes p (s +:+ t) = true.
Proof.
  intros H. induction s as [|c r IH]; [exact H|].
  change (String c r +:+ t) with (String c (r +:+ t)).
  rewrite includes_unfold, IH. apply orb_true_r.
Qed.

Lemma all_ws_app (s t : string) : all_ws (s +:+ t) = all_ws s && all_ws t.
Proof.
  induction s as [|c r IH]; simpl; [reflexivity|].
  now rewrite IH, andb_assoc.
Qed.

Lemma trimStart_empty (s : string) : trimStart s = "" <-> all_ws s = true.
Proof.
  induction s as [|c r IH]; simpl; [tauto|].
  destruct (is_ws c); simpl; [exact IH|]. split; discriminate.
Qed.

Lemma trimEnd_empty (s : string) : trimEnd s = "" <-> all_ws s = true.
Proof.
  induction s as [|c r IH]; simpl; [tauto|].
  destruct (trimEnd r) as [|d r'] eqn:E.
  - assert (Hr : all_ws r = true) by now apply IH.
    rewrite Hr, andb_true_r. destruct (is_ws c); split; congruence.
  - destruct (all_ws r) eqn:Hr.
    + assert (String d r' = "") by now apply IH. discriminate.
    + rewrite andb_false_r. split; discriminate.
Qed.

Lemma all_ws_trimStart (s : string) : all_ws (trimStart s) = all_ws s.
Proof.
  induction s as [|c r IH]; simpl; [reflexivity|].
  destruct (is_ws c) eqn:E; simpl; [exact IH | now rewrite E].
Qed.

Lemma trim_empty (s : string) : trim s = "" <-> all_ws s = true.
Proof. unfold trim. now rewrite trimEnd_empty, all_ws_trimStart. Qed.

Lemma stripTrailingSlashes_slashes (k : nat) : stripTrailingSlashes (slashes k) = "".
Proof. induction k as [|k IH]; simpl; [reflexivity | now rewrite IH]. Qed.

Lemma stripTrailingSlashes_app_slashes (s : string) (k : nat) :
  stripTrailingSlashes (s +:+ slashes k) = stripTrailingSlashes s.
Proof.
  induction s as [|c r IH]; simpl.
  - apply stripTrailingSlashes_slashes.
  - now rewrite IH.
Qed.

End JsStringFacts.

(** ** IdentityFormatter *)

Module IdentityFormatterFacts.
Import JsString JsStringFacts IdentityFormatter Spec.

Lemma formatIdentity_canonical_fixed (y : string) :
  canonical y -> formatIdentity y = y.
Proof.
  intros (Hl & Ha & Hs). unfold formatIdentity.
  destruct (isEmpty y); [reflexivity|].
  rewrite Hl, Ha. cbn [negb]. now rewrite Hs.
Qed.

Lemma formatIdentity_canonical (x : string) :
  x <> "" -> canonical (formatIdentity x).
Proof.
  intros Hx. unfold formatIdentity, canonical.
  apply isEmpty_false in Hx. rewrite Hx.
  pose proof (toLowerCase_idem x) as Hl.
  set (a := toLowerCase x) in *.
  assert (Hb : exists b, (if negb (includes "acc://" a) then "acc://" +:+ a else a) = b
                         /\ toLowerCase b = b /\ includes "acc://" b = true).
  { destruct (includes "acc://" a) eqn:Ea; cbn [negb]; eexists; split; try reflexivity.
    - now split.
    - split; [now rewrite toLowerCase_app, Hl | apply includes_app_self]. }
  destruct Hb as (b & -> & Hbl & Hba).
  destruct (includes ".acme" b) eqn:Eb; cbn [negb].
  - now repeat split.
  - repeat split.
    + now rewrite toLowerCase_app, Hbl.
    + now apply includes_app_l.
    + now apply includes_app_r.
Qed.

(** What [formatIdentity] does to a non-empty input, in one expression. *)
Lemma formatIdentity_shape (x : string) :
  x <> "" ->
  formatIdentity x =
    (if includes "acc://" (toLowerCase x) then "" else "acc://")
      +:+ toLowerCase x
      +:+ (if includes ".acme" (toLowerCase x) then "" else ".acme").
Proof.
  intros Hx. unfold formatIdentity. apply isEmpty_false in Hx. rewrite Hx.
  set (a := toLowerCase x).
  destruct (includes "acc://" a) eqn:Ea; cbn [negb].
  - destruct (includes ".acme" a); cbn [negb append]; [now rewrite append_nil_r | reflexivity].
  - assert (E : includes ".acme" ("acc://" +:+ a) = includes ".acme" a) by reflexivity.
    rewrite E. destruct (includes ".acme" a); cbn [negb].
    + now rewrite append_nil_r.
    + apply append_assoc.
Qed.

(** C8.  Normalization is idempotent: formatting an already formatted
    identity changes nothing.  This holds for every input string, hence for
    every input that lacks the [acc://] prefix, the [.acme] suffix or both. *)
Theorem formatIdentity_idempotent (x : string) :
  formatIdentity (formatIdentity x) = formatIdentity x.
Proof.
  destruct (isEmpty x) eqn:Ex.
  - apply isEmpty_true in Ex. now subst x.
  - apply formatIdentity_canonical_fixed, formatIdentity_canonical.
    now apply isEmpty_false.
Qed.

Example formatIdentity_bare : formatIdentity "SunStream" = "acc://sunstream.acme".
Proof. reflexivity. Qed.

Example formatIdentity_no_scheme : formatIdentity "sunstream.ACME" = "acc://sunstream.acme".
Proof. reflexivity. Qed.

Example formatIdentity_empty : formatIdentity "" = "".
Proof. reflexivity. Qed.

End IdentityFormatterFacts.

(** ** AdiStringHelper *)

Module AdiStringHelperFacts.
Import JsString JsStringFacts AdiStringHelper.

Lemma fixAdiUrl_app_slashes (x : string) (k : nat) :
  x <> "" -> fixAdiUrl (x +:+ slashes k) = fixAdiUrl x.
Proof.
  intros Hx. unfold fixAdiUrl.
  rewrite isEmpty_app. apply isEmpty_false in Hx. rewrite Hx. cbn [andb].
  now rewrite toLowerCase_app, toLowerCase_slashes, stripTrailingSlashes_app_slashes.
Qed.

(** [parseAdi2] answers [null] exactly on the inputs that trim to nothing. *)
Lemma parseAdi2_None (x : string) : parseAdi2 x = None <-> all_ws x = true.
Proof.
  unfold parseAdi2. destruct (isEmpty x || isEmpty (trim x)) eqn:E.
  - split; [intros _|reflexivity].
    apply orb_prop in E as [E|E]; apply isEmpty_true in E.
    + now subst x.
    + now apply trim_empty.
  - split; [discriminate|]. intros H.
    apply orb_false_elim in E as [_ E]. apply isEmpty_false in E.
    now apply trim_empty in H.
Qed.

(** C7.  Parsing the canonical locator [acc://sunstream.acme] gives the root
    name [sunstream] and an empty sub-path; parsing
    [acc://sunstream.acme/somepath] gives the non-empty sub-path [somepath],
    which is the segment after the first dot, [acme/somepath], without its
    first five characters. *)
Theorem parseAdi2_canonical_locators :
  (exists p, parseAdi2 "acc://sunstream.acme" = Some p
             /\ name p = "sunstream" /\ subPath p = "")
  /\ (exists q, parseAdi2 "acc://sunstream.acme/somepath" = Some q
                /\ name q = "sunstream"
                /\ nth 1 (split "." (path q)) "" = "acme/somepath"
                /\ subPath q = substring 5 "acme/somepath"
                /\ subPath q = "somepath"
                /\ subPath q <> "").
Proof.
  split; eexists; (split; [reflexivity|]); cbn; repeat split; discriminate.
Qed.

(** C10.  Trailing slashes do not matter to the parser: an input whose
    trimmed form is not empty is parsed, and the same input followed by any
    number [k] of slashes is parsed to the very same record. *)
Theorem parseAdi2_trailing_slashes (x : string) (k : nat) :
  trim x <> "" ->
  exists p, parseAdi2 x = Some p /\ parseAdi2 (x +:+ slashes k) = Some p.
Proof.
  intros Ht.
  assert (Hws : all_ws x = false).
  { destruct (all_ws x) eqn:E; [|reflexivity]. now apply trim_empty in E. }
  assert (Hx : x <> "") by (intros ->; discriminate).
  assert (Ht' : isEmpty (trim (x +:+ slashes k)) = false).
  { apply isEmpty_false. intros E%trim_empty.
    rewrite all_ws_app, Hws in E. discriminate. }
  unfold parseAdi2.
  rewrite Ht', isEmpty_app, (proj2 (isEmpty_false x) Hx),
    (proj2 (isEmpty_false (trim x)) Ht), fixAdiUrl_app_slashes by assumption.
  cbn [andb orb]. eexists; split; reflexivity.
Qed.

Lemma parseAdi2_trailing_slashes_witness :
  trim "Sunstream.acme/Docs" <> ""
  /\ exists p, parseAdi2 "Sunstream.acme/Docs" = Some p
               /\ parseAdi2 ("Sunstream.acme/Docs" +:+ slashes 3) = Some p.
Proof.
  split; [discriminate|].
  apply (parseAdi2_trailing_slashes "Sunstream.acme/Docs" 3). discriminate.
Defined.

Example parseAdi2_slashes_demo :
  parseAdi2 "Sunstream.acme/Docs///" =
  Some {| url := "acc://sunstream.acme/docs"; path := "sunstream.acme/docs";
          name := "sunstream"; rootUrl := "acc://sunstream.acme";
          subPath := "docs" |}.
Proof. reflexivity. Qed.

Example parseAdi2_blank : parseAdi2 "   " = None.
Proof. reflexivity. Qed.

End AdiStringHelperFacts.

(** ** AdiUrlClass and the URL builders *)

Module AdiUrlFacts.
Import JsString JsStringFacts.

Lemma createByUrl_parsed (ns : NetworkNameService.t) (u : string)
  (p : AdiStringHelper.adi) :
  AdiStringHelper.parseAdi2 u = Some p ->
  AdiUrlClass.name (AdiUrlClass.createByUrl ns u) = Some (AdiStringHelper.name p)
  /\ AdiUrlClass.pathEnd (AdiUrlClass.createByUrl ns u) = AdiStringHelper.subPath p.
Proof.
  intros H. unfold AdiUrlClass.createByUrl, AdiUrlClass.init_ByAdiUrl.
  rewrite H. split; reflexivity.
Qed.

(** C5.  For an identity that parsed, whatever the network was when the
    object was created, [calculate_app_Url] returns
    [https://<rootName>.<partnerDomain>/<subPath>?current-network=<network>]
    with the network name current at the call; with root name [sunstream],
    empty sub-path, partner domain [BankOnLedger.com] and network [mainnet]
    this is [https://sunstream.BankOnLedger.com/?current-network=mainnet]. *)
Theorem calculate_app_Url_shape (ns0 ns : NetworkNameService.t) (u : string)
  (p : AdiStringHelper.adi) (appSite : string) :
  AdiStringHelper.parseAdi2 u = Some p ->
  fst (AdiUrlClass.calculate_app_Url ns appSite (AdiUrlClass.createByUrl ns0 u))
  = "https://" +:+ AdiStringHelper.name p +:+ "." +:+ appSite +:+ "/"
      +:+ AdiStringHelper.subPath p +:+ "?current-network="
      +:+ NetworkNameService.currentNetworkName ns
  /\ (AdiStringHelper.name p = "sunstream" ->
      AdiStringHelper.subPath p = "" ->
      NetworkNameService.currentNetworkName ns = "mainnet" ->
      fst (AdiUrlClass.bankOnLedger_Url ns (AdiUrlClass.createByUrl ns0 u))
      = "https://sunstream.BankOnLedger.com/?current-network=mainnet").
Proof.
  intros H. destruct (createByUrl_parsed ns0 u p H) as [Hn Hp].
  unfold AdiUrlClass.bankOnLedger_Url, AdiUrlClass.calculate_app_Url.
  cbn [fst AdiUrlClass._calc_Server AdiUrlClass.name AdiUrlClass.pathEnd
       AdiUrlClass.networkName].
  rewrite Hn, Hp. cbn [str]. split; [reflexivity|].
  intros -> -> ->. reflexivity.
Qed.

Lemma calculate_app_Url_shape_witness :
  AdiStringHelper.parseAdi2 "acc://sunstream.acme"
  = Some {| AdiStringHelper.url := "acc://sunstream.acme";
            AdiStringHelper.path := "sunstream.acme";
            AdiStringHelper.name := "sunstream";
            AdiStringHelper.rootUrl := "acc://sunstream.acme";
            AdiStringHelper.subPath := "" |}
  /\ fst (AdiUrlClass.bankOnLedger_Url NetworkNameService.new
            (AdiUrlClass.createByUrl
               (NetworkNameService.switchNetworkName "kermit" NetworkNameService.new)
               "acc://sunstream.acme"))
     = "https://sunstream.BankOnLedger.com/?current-network=mainnet".
Proof.
  split; [reflexivity|].
  apply (calculate_app_Url_shape
           (NetworkNameService.switchNetworkName "kermit" NetworkNameService.new)
           NetworkNameService.new "acc://sunstream.acme"
           {| AdiStringHelper.url := "acc://sunstream.acme";
              AdiStringHelper.path := "sunstream.acme";
              AdiStringHelper.name := "sunstream";
              AdiStringHelper.rootUrl := "acc://sunstream.acme";
              AdiStringHelper.subPath := "" |}
           "BankOnLedger.com");
    reflexivity.
Defined.

Example getBankOnLedgerUrl_sunstream :
  AdiParse.getBankOnLedgerUrl NetworkNameService.new "sunstream.acme"
  = Some "https://sunstream.BankOnLedger.com/?current-network=mainnet".
Proof. reflexivity. Qed.

Example getQobotoUrl_sunstream_kermit :
  AdiParse.getQobotoUrl (AdiParse.setNetwork "kermit" NetworkNameService.new)
    "acc://SunStream.acme/docs"
  = Some "https://sunstream.Qoboto.com/docs?current-network=kermit".
Proof. reflexivity. Qed.

(** C6.  Two builds of the partner URL from the same object, the first
    under network [n1], the second after the network was switched to [n2]:
    the two strings share everything up to and including
    [?current-network=] (scheme, root name, partner domain, sub-path) and
    end in [n1] and [n2]; the network name is read at each call. *)
Theorem calculate_app_Url_network_switch (ns : NetworkNameService.t)
  (a : AdiUrlClass.t) (appSite n1 n2 : string) :
  let ns1 := NetworkNameService.switchNetworkName n1 ns in
  let '(url1, a1) := AdiUrlClass.calculate_app_Url ns1 appSite a in
  let ns2 := NetworkNameService.switchNetworkName n2 ns1 in
  let '(url2, a2) := AdiUrlClass.calculate_app_Url ns2 appSite a1 in
  let common := "https://" +:+ str (AdiUrlClass.name a) +:+ "." +:+ appSite
                  +:+ "/" +:+ AdiUrlClass.pathEnd a +:+ "?current-network=" in
  url1 = common +:+ n1 /\ url2 = common +:+ n2
  /\ AdiUrlClass.name a2 = AdiUrlClass.name a
  /\ AdiUrlClass.pathEnd a2 = AdiUrlClass.pathEnd a.
Proof.
  cbn -[String.append].
  rewrite !append_assoc. cbn. repeat split; now rewrite !append_assoc.
Qed.

Example network_switch_demo :
  let a := AdiUrlClass.createByUrl NetworkNameService.new "acc://sunstream.acme/docs" in
  let '(url1, a1) := AdiUrlClass.bankOnLedger_Url NetworkNameService.new a in
  let ns2 := NetworkNameService.switchNetworkName "kermit" NetworkNameService.new in
  let '(url2, _) := AdiUrlClass.bankOnLedger_Url ns2 a1 in
  url1 = "https://sunstream.BankOnLedger.com/docs?current-network=mainnet"
  /\ url2 = "https://sunstream.BankOnLedger.com/docs?current-network=kermit".
Proof. split; reflexivity. Qed.

End AdiUrlFacts.

(** ** QobotoApiService: section selection *)

Module SectionFacts.
Import JsString JsStringFacts QobotoApiService Spec.

Lemma is_main_named (x : value) : is_main x = true <-> named_main x.
Proof.
  unfold is_main, named_main. split.
  - destruct x as [| | | | |?|o]; cbn; rewrite ?andb_false_r; try discriminate.
    unfold prop. destruct (o !! "name") as [[]|] eqn:E; cbn; try discriminate.
    intros ->%String.eqb_eq. now exists o.
  - intros (o & -> & E). cbn. unfold prop. now rewrite E.
Qed.

Lemma named_main_converts (x : value) : named_main x -> name_converts x.
Proof. intros (o & -> & E). unfold name_converts, getField, prop. now rewrite E. Qed.

Lemma find_main_first (pre post : list value) (x : value) :
  Forall (fun y => ~ named_main y /\ name_converts y) pre ->
  named_main x ->
  find_main (pre ++ x :: post) = Return (Some x).
Proof.
  intros Hpre Hx. induction Hpre as [|y pre [Hy Hc] _ IH]; cbn [app find_main].
  - rewrite (named_main_converts x Hx). now apply is_main_named in Hx as ->.
  - rewrite Hc. destruct (is_main y) eqn:E; [|exact IH].
    now apply is_main_named in E.
Qed.

Lemma find_main_none (items : list value) :
  Forall (fun y => ~ named_main y) items ->
  find_main items = Return None \/ find_main items = Throw.
Proof.
  induction 1 as [|y items Hy _ IH]; cbn [find_main]; [now left|].
  destruct (toString_throws (getField y "name")); [now right|].
  destruct (is_main y) eqn:E; [|exact IH].
  now apply is_main_named in E.
Qed.

(** A plain object is returned as it is, whatever its [name]. *)
Lemma findMainSection_plain_object (o : gmap string value) :
  _findMainSection (VObj o) = Return (VObj o).
Proof. reflexivity. Qed.

(** The scan returns the first element named [main], provided the debug
    message could be built for the elements before it. *)
Lemma findMainSection_first_main (pre post : list value) (x : value) :
  Forall (fun y => ~ named_main y /\ name_converts y) pre ->
  named_main x ->
  _findMainSection (VArr (pre ++ x :: post)) = Return x.
Proof.
  intros Hpre Hx. unfold _findMainSection.
  now rewrite (find_main_first pre post x Hpre Hx).
Qed.

(** Without an element named [main] the scan yields [null] or throws. *)
Lemma findMainSection_no_main (items : list value) :
  Forall (fun y => ~ named_main y) items ->
  _findMainSection (VArr items) = Return VNull \/ _findMainSection (VArr items) = Throw.
Proof.
  intros H. unfold _findMainSection.
  destruct (find_main_none items H) as [-> | ->]; [|now right].
  destruct (_ && _); [now right | now left].
Qed.

(** What is neither an object nor an array selects nothing. *)
Lemma findMainSection_scalar (v : value) :
  (forall o, v <> VObj o) -> (forall l, v <> VArr l) ->
  _findMainSection v = Return VNull.
Proof. destruct v; intros Ho Ha; try reflexivity; [now destruct (Ha items) | now destruct (Ho props)]. Qed.

(** The call of [getIdentityData] that misses the cache and receives a
    successful response whose body parses to [v], not a string. *)
Lemma getIdentityData_parsed `{Host} (e : env) (u text : string) (svc : t) (v : value) :
  fst (cache_get (now_check e) ("qoboto_" +:+ u) (cache svc)) = None ->
  response e = Response true (Some text) ->
  JSON_parse text = Some v ->
  (forall s, v <> VStr s) ->
  fst (getIdentityData e u svc) =
    match _findMainSection v with
    | Return mainData => if truthy mainData then mainData else VNull
    | Throw => VNull
    end.
Proof.
  intros Hmiss Hresp Hparse Hstr. unfold getIdentityData.
  destruct (cache_get _ _ _) as [[d|] c]; [discriminate|].
  rewrite Hresp, Hparse.
  replace (match v with VStr s => JSON_parse s | _ => Some v end) with (Some v)
    by (destruct v; try reflexivity; now destruct (Hstr s)).
  destruct (_findMainSection v) as [d|]; [destruct (truthy d)|]; reflexivity.
Qed.

(** C1.  The code at the failing input: the second element of
    [poisoned_response] is named [main], the first is not, yet
    [_findMainSection] does not return the second element: the scan throws
    while building the debug message for the first one, and
    [getIdentityData], which catches the exception, answers [null] and
    caches nothing. *)
Theorem findMainSection_debug_message_throws :
  (exists first second,
      poisoned_response = VArr [first; second]
      /\ ~ named_main first /\ named_main second)
  /\ _findMainSection poisoned_response = Throw
  /\ let H := canned_host [("body", poisoned_response)] in
     let e := {| now_check := 0; response := Response true (Some "body");
                 now_store := 0 |} in
     fst (getIdentityData e "sunstream.acme" qobotoApiService) = VNull
     /\ cache (snd (getIdentityData e "sunstream.acme" qobotoApiService)) = ∅.
Proof.
  split; [|repeat split].
  do 2 eexists. split; [reflexivity|]. split.
  - intros (o & [= <-] & E). vm_compute in E. discriminate.
  - eexists. split; [reflexivity|]. vm_compute. reflexivity.
Qed.

(** The data client answers [null] to that response, under every host. *)
Lemma getIdentityData_poisoned `{Host} (e : env) (u text : string) (svc : t) :
  fst (cache_get (now_check e) ("qoboto_" +:+ u) (cache svc)) = None ->
  response e = Response true (Some text) ->
  JSON_parse text = Some poisoned_response ->
  fst (getIdentityData e u svc) = VNull.
Proof.
  intros Hmiss Hresp Hparse.
  now rewrite (getIdentityData_parsed e u text svc _ Hmiss Hresp Hparse).
Qed.

Example findMainSection_header_main_footer :
  _findMainSection
    (VArr [ VObj {[ "name" := VStr "header" ]};
            VObj {[ "name" := VStr "main"; "logoUrl" := VStr "L" ]};
            VObj {[ "name" := VStr "footer" ]} ])
  = Return (VObj {[ "name" := VStr "main"; "logoUrl" := VStr "L" ]}).
Proof. vm_compute. reflexivity. Qed.

Example findMainSection_no_main_demo :
  _findMainSection (VArr [ VObj {[ "name" := VStr "header" ]}; VNull; VStr "main" ])
  = Return VNull.
Proof. vm_compute. reflexivity. Qed.

End SectionFacts.

(** ** QobotoApiService: the response cache *)

Module CacheFacts.
Import JsString QobotoApiService Spec.

Lemma cacheTimeout_five_minutes : cacheTimeout = 300000%Z.
Proof. reflexivity. Qed.

Lemma cache_get_fresh (now : Z) (k : string) (c : gmap string CacheEntry)
  (entry : CacheEntry) :
  c !! k = Some entry -> (now - timestamp entry < cacheTimeout)%Z ->
  cache_get now k c = (Some (data entry), c).
Proof.
  intros E Hage. unfold cache_get. rewrite E.
  now rewrite (proj2 (Z.ltb_lt _ _) Hage).
Qed.

Lemma cache_get_expired (now : Z) (k : string) (c : gmap string CacheEntry)
  (entry : CacheEntry) :
  c !! k = Some entry -> (now - timestamp entry >= cacheTimeout)%Z ->
  cache_get now k c = (None, delete k c).
Proof.
  intros E Hage. unfold cache_get. rewrite E.
  now rewrite (proj2 (Z.ltb_ge _ _)) by lia.
Qed.

Lemma cache_get_absent (now : Z) (k : string) (c : gmap string CacheEntry) :
  c !! k = None -> cache_get now k c = (None, c).
Proof. intros E. unfold cache_get. now rewrite E. Qed.

Lemma cache_get_set (t : Z) (k : string) (v : value) (c : gmap string CacheEntry) :
  cache_get t k (cache_set t k v c) = (Some v, cache_set t k v c).
Proof.
  apply (cache_get_fresh t k _ {| data := v; timestamp := t |}).
  - apply lookup_insert_eq.
  - cbn. rewrite Z.sub_diag. reflexivity.
Qed.

(** A lookup leaves every other key alone. *)
Lemma cache_get_other (now : Z) (k k' : string) (c : gmap string CacheEntry) :
  k' <> k -> snd (cache_get now k c) !! k' = c !! k'.
Proof.
  intros Hne. unfold cache_get. destruct (c !! k) as [entry|]; [|reflexivity].
  destruct (_ <? _)%Z; [reflexivity|]. cbn. now rewrite lookup_delete_ne.
Qed.

(** The store after [getIdentityData]: the store after the lookup, with at
    most one entry written, under the key of the call. *)
Lemma getIdentityData_cache `{Host} (e : env) (u : string) (svc : t) :
  let c := snd (cache_get (now_check e) ("qoboto_" +:+ u) (cache svc)) in
  cache (snd (getIdentityData e u svc)) = c
  \/ exists d, cache (snd (getIdentityData e u svc))
               = cache_set (now_store e) ("qoboto_" +:+ u) d c.
Proof.
  unfold getIdentityData, cache_get.
  destruct (cache svc !! ("qoboto_" +:+ u)) as [entry|].
  - destruct (_ <? _)%Z; [now left|].
    repeat match goal with
           | |- context [match ?x with _ => _ end] => destruct x; cbn
           end; eauto.
  - repeat match goal with
           | |- context [match ?x with _ => _ end] => destruct x; cbn
           end; eauto.
Qed.

Lemma client_state `{Host} (f : field) (e : env) (u : string) (svc : t) :
  snd (Field.client f e u svc) = snd (getIdentityData e u svc).
Proof.
  destruct f; cbn;
    [unfold getLogoUrl | unfold getSectionMain1Description
     | unfold getSectionMain1Background2ImageUrl];
    now destruct (getIdentityData e u svc).
Qed.

Lemma getAllMainData_state `{Host} (e : env) (u : string) (svc : t) :
  snd (getAllMainData e u svc) = snd (getIdentityData e u svc).
Proof. unfold getAllMainData. now destruct (getIdentityData e u svc). Qed.

(** An entry disappears from the store only by an explicit clear or by a
    lookup of its own key that finds it expired. *)
Lemma removal_only_on_lookup_or_clear `{Host} (call : service_call) (svc : t)
  (k : string) (entry : CacheEntry) :
  cache svc !! k = Some entry ->
  cache (run_service call svc) !! k = None ->
  (exists o, call = SClearCache o)
  \/ exists e u, looks_up call e u /\ k = "qoboto_" +:+ u
                 /\ (now_check e - timestamp entry >= cacheTimeout)%Z.
Proof.
  intros E Hgone.
  assert (Hlook : forall e u,
             cache (snd (getIdentityData e u svc)) !! k = None ->
             k = "qoboto_" +:+ u
             /\ (now_check e - timestamp entry >= cacheTimeout)%Z).
  { intros e u Hk.
    destruct (decide (k = "qoboto_" +:+ u)) as [->|Hne].
    - split; [reflexivity|].
      destruct (Z_lt_ge_dec (now_check e - timestamp entry) cacheTimeout) as [Hlt|Hge];
        [|exact Hge].
      exfalso. destruct (getIdentityData_cache e u svc) as [Hc | [d Hc]];
        rewrite Hc, ?(cache_get_fresh _ _ _ _ E Hlt) in Hk; cbn [snd] in Hk.
      + congruence.
      + unfold cache_set in Hk. now rewrite lookup_insert_eq in Hk.
    - exfalso. destruct (getIdentityData_cache e u svc) as [Hc | [d Hc]];
        rewrite Hc in Hk.
      + rewrite cache_get_other in Hk by assumption. congruence.
      + unfold cache_set in Hk.
        rewrite lookup_insert_ne, cache_get_other in Hk by congruence. congruence. }
  destruct call as [e u|f e u|e u|d e u|o|b|b|b]; cbn [run_service] in Hgone.
  - right. exists e, u. destruct (Hlook e u Hgone) as [? ?].
    repeat split; try assumption. now left.
  - right. exists e, u. rewrite client_state in Hgone.
    destruct (Hlook e u Hgone) as [? ?].
    repeat split; try assumption. right; left. now exists f.
  - right. exists e, u. rewrite getAllMainData_state in Hgone.
    destruct (Hlook e u Hgone) as [? ?].
    repeat split; try assumption. now right; right; left.
  - unfold getIdentityDataWithMock in Hgone.
    destruct (developmentMode svc); [cbn [snd] in Hgone; congruence|].
    right. exists e, u. destruct (Hlook e u Hgone) as [? ?].
    repeat split; try assumption. right; right; right. now exists d.
  - left. now exists o.
  - cbn in Hgone. congruence.
  - cbn in Hgone. congruence.
  - cbn in Hgone. congruence.
Qed.

End CacheFacts.

(** ** OpIdResourceClass: the fallback chain *)

Module ResourceFacts.
Import JsString QobotoApiService OpIdResource Spec SectionFacts.

Lemma default_truthy (f : field) (r : OpIdResource.t) :
  truthy (VStr (Field.default f r)) = true.
Proof. destruct f; reflexivity. Qed.

Lemma accessor_override `{Host} (f : field) (e : env) (r : OpIdResource.t)
  (svc : QobotoApiService.t) :
  truthy (prop (_customOverrides r) (Field.key f)) = true ->
  Field.accessor f e r svc = (prop (_customOverrides r) (Field.key f), r, svc).
Proof.
  intros Ho. destruct f; cbn [Field.accessor Field.key] in *;
    [unfold logoUrl | unfold sectionMain1Description
     | unfold sectionMain1Background2ImageUrl]; now rewrite Ho.
Qed.

Lemma accessor_memo `{Host} (f : field) (e : env) (r : OpIdResource.t)
  (svc : QobotoApiService.t) :
  truthy (prop (_customOverrides r) (Field.key f)) = false ->
  truthy (prop (_dataCache r) (Field.key f)) = true ->
  Field.accessor f e r svc = (prop (_dataCache r) (Field.key f), r, svc).
Proof.
  intros Ho Hm. destruct f; cbn [Field.accessor Field.key] in *;
    [unfold logoUrl | unfold sectionMain1Description
     | unfold sectionMain1Background2ImageUrl]; now rewrite Ho, Hm.
Qed.

(** The step that asks the data client, when neither an override nor a
    memo serves the field. *)
Lemma accessor_resolve `{Host} (f : field) (e : env) (r : OpIdResource.t)
  (svc : QobotoApiService.t) :
  truthy (prop (_customOverrides r) (Field.key f)) = false ->
  truthy (prop (_dataCache r) (Field.key f)) = false ->
  let res := Field.client f e (_getSimpleIdentityUrl r) svc in
  let v := match fst res with
           | Return v => if truthy v then v else VStr (Field.default f r)
           | Throw => VStr (Field.default f r)
           end in
  Field.accessor f e r svc
  = (v, with_dataCache (<[Field.key f := v]> (_dataCache r)) r, snd res).
Proof.
  intros Ho Hm.
  destruct f; cbn [Field.accessor Field.key Field.client Field.default] in *;
    [unfold logoUrl | unfold sectionMain1Description
     | unfold sectionMain1Background2ImageUrl];
    rewrite Ho, Hm;
    match goal with
    | |- context [let '(_, _) := ?c in _] => destruct c as [[v|] svc1]
    end; cbn [fst snd]; try reflexivity; now destruct (truthy v).
Qed.

Lemma accessor_fallback `{Host} (f : field) (e : env) (r : OpIdResource.t)
  (svc : QobotoApiService.t) :
  truthy (prop (_customOverrides r) (Field.key f)) = false ->
  truthy (prop (_dataCache r) (Field.key f)) = false ->
  absent (fst (Field.client f e (_getSimpleIdentityUrl r) svc)) ->
  Field.accessor f e r svc
  = (VStr (Field.default f r),
     with_dataCache (<[Field.key f := VStr (Field.default f r)]> (_dataCache r)) r,
     snd (Field.client f e (_getSimpleIdentityUrl r) svc)).
Proof.
  intros Ho Hm Ha. rewrite (accessor_resolve f e r svc Ho Hm). cbn zeta.
  destruct (fst (Field.client f e (_getSimpleIdentityUrl r) svc)) as [v|];
    [|reflexivity].
  cbn in Ha. now rewrite Ha.
Qed.

(** Whatever the state of the record and of the client, and whatever the
    world answers, the value of an accessor is truthy: neither [null] nor
    [undefined], nor an empty string. *)
Lemma accessor_truthy `{Host} (f : field) (e : env) (r : OpIdResource.t)
  (svc : QobotoApiService.t) :
  truthy (fst (fst (Field.accessor f e r svc))) = true.
Proof.
  destruct (truthy (prop (_customOverrides r) (Field.key f))) eqn:Ho.
  { now rewrite accessor_override. }
  destruct (truthy (prop (_dataCache r) (Field.key f))) eqn:Hm.
  { now rewrite accessor_memo. }
  rewrite (accessor_resolve f e r svc Ho Hm). cbn [fst].
  destruct (fst (Field.client f e (_getSimpleIdentityUrl r) svc)) as [v|].
  - destruct (truthy v) eqn:Hv; [exact Hv | apply default_truthy].
  - apply default_truthy.
Qed.

Lemma truthy_not_null (v : value) : truthy v = true -> v <> VNull /\ v <> VUndefined.
Proof. destruct v; cbn; intros; split; congruence. Qed.

(** An accessor writes the memo only. *)
Lemma accessor_frame `{Host} (f : field) (e : env) (r : OpIdResource.t)
  (svc : QobotoApiService.t) :
  let r' := snd (fst (Field.accessor f e r svc)) in
  opIdInfo r' = opIdInfo r /\ _customOverrides r' = _customOverrides r.
Proof.
  destruct (truthy (prop (_customOverrides r) (Field.key f))) eqn:Ho.
  { now rewrite accessor_override. }
  destruct (truthy (prop (_dataCache r) (Field.key f))) eqn:Hm.
  { now rewrite accessor_memo. }
  now rewrite (accessor_resolve f e r svc Ho Hm).
Qed.

(** When the data client answers [null] for the section, it has nothing
    for any field and does not throw. *)
Lemma client_of_null `{Host} (f : field) (e : env) (u : string)
  (svc : QobotoApiService.t) :
  fst (getIdentityData e u svc) = VNull ->
  fst (Field.client f e u svc) = Return VNull.
Proof.
  intros E. destruct f; cbn [Field.client];
    [unfold getLogoUrl | unfold getSectionMain1Description
     | unfold getSectionMain1Background2ImageUrl];
    destruct (getIdentityData e u svc) as [d svc1]; cbn in E; now subst d.
Qed.

(** The fetch throws (or its promise rejects): the section is [null]. *)
Lemma getIdentityData_fetch_rejects `{Host} (e : env) (u : string)
  (svc : QobotoApiService.t) :
  fst (cache_get (now_check e) ("qoboto_" +:+ u) (cache svc)) = None ->
  response e = FetchRejects ->
  fst (getIdentityData e u svc) = VNull.
Proof.
  intros Hmiss Hresp. unfold getIdentityData.
  destruct (cache_get _ _ _) as [[d|] c]; [discriminate|]. now rewrite Hresp.
Qed.

(** The response is an array without a [main] section: the section is
    [null]. *)
Lemma getIdentityData_no_main `{Host} (e : env) (u text : string)
  (svc : QobotoApiService.t) (items : list value) :
  fst (cache_get (now_check e) ("qoboto_" +:+ u) (cache svc)) = None ->
  response e = Response true (Some text) ->
  JSON_parse text = Some (VArr items) ->
  Forall (fun y => ~ named_main y) items ->
  fst (getIdentityData e u svc) = VNull.
Proof.
  intros Hmiss Hresp Hparse Hno.
  rewrite (getIdentityData_parsed e u text svc _ Hmiss Hresp Hparse) by discriminate.
  now destruct (findMainSection_no_main items Hno) as [-> | ->].
Qed.

End ResourceFacts.

(** ** OpIdResourceClass: accessors and overrides *)

Module RecordFacts.
Import JsString QobotoApiService OpIdResource Spec SectionFacts ResourceFacts.

Example sunstream_created :
  OpIdResourceFactory.createByIdentityUrl NetworkNameService.new "sunstream.acme"
  = Some sunstream.
Proof. reflexivity. Qed.

Lemma created_fresh (ns : NetworkNameService.t) (x : string) (r0 : OpIdResource.t) :
  OpIdResourceFactory.createByIdentityUrl ns x = Some r0 ->
  _dataCache r0 = ∅ /\ _customOverrides r0 = ∅.
Proof.
  unfold OpIdResourceFactory.createByIdentityUrl.
  destruct (OpIdInfoFactory.createByIdentityUrl ns x); [|discriminate].
  now intros [= <-].
Qed.

Lemma default_same_info (f : field) (r r0 : OpIdResource.t) :
  opIdInfo r = opIdInfo r0 -> Field.default f r = Field.default f r0.
Proof.
  intros E. destruct f; cbn; try reflexivity. unfold defaultDescription. now rewrite E.
Qed.

(** C2.  Let [r0] be a record the factory built from a locator, and [r] any
    state of that record.  (1) The accessor of every field returns a truthy
    value, hence neither [null] nor [undefined]; it cannot throw.  (2) When
    neither an override nor a memo serves the field and the data client has
    nothing for it (it returned a falsy value or threw), the accessor
    returns the default of the field, stores it in the memo, and a repeated
    call returns it again leaving the data client, its log of requests
    included, as it was: no fetch is attempted.  (3) The data client has
    nothing in particular when the cache misses and the fetch throws, or
    the response is an array without a [main] section.  (4) The record as
    built has neither overrides nor memos. *)
Theorem accessor_never_fails `{Host} (ns : NetworkNameService.t) (x : string)
  (r0 r : OpIdResource.t) (f : field) (e e' : env) (svc : QobotoApiService.t) :
  OpIdResourceFactory.createByIdentityUrl ns x = Some r0 ->
  opIdInfo r = opIdInfo r0 ->
  let u := _getSimpleIdentityUrl r in
  let '(v, r1, svc1) := Field.accessor f e r svc in
  (truthy v = true /\ v <> VNull /\ v <> VUndefined)
  /\ (truthy (prop (_customOverrides r) (Field.key f)) = false ->
      truthy (prop (_dataCache r) (Field.key f)) = false ->
      absent (fst (Field.client f e u svc)) ->
      v = VStr (Field.default f r0)
      /\ prop (_dataCache r1) (Field.key f) = VStr (Field.default f r0)
      /\ Field.accessor f e' r1 svc1 = (VStr (Field.default f r0), r1, svc1))
  /\ (fst (cache_get (now_check e) ("qoboto_" +:+ u) (cache svc)) = None ->
      response e = FetchRejects
      \/ (exists text items,
             response e = Response true (Some text)
             /\ JSON_parse text = Some (VArr items)
             /\ Forall (fun y => ~ named_main y) items) ->
      absent (fst (Field.client f e u svc)))
  /\ (_dataCache r0 = ∅ /\ _customOverrides r0 = ∅).
Proof.
  intros Hcreated Hinfo u.
  pose proof (accessor_truthy f e r svc) as Ht.
  destruct (Field.accessor f e r svc) as [[v r1] svc1] eqn:Eacc. cbn [fst] in Ht.
  split; [split; [exact Ht | now apply truthy_not_null]|].
  split; [|split; [|now apply (created_fresh ns x)]].
  - intros Ho Hm Ha.
    rewrite (accessor_fallback f e r svc Ho Hm Ha) in Eacc.
    injection Eacc as <- <- <-. rewrite (default_same_info f r r0 Hinfo).
    split; [reflexivity|].
    assert (Hmemo : prop (_dataCache
                            (with_dataCache
                               (<[Field.key f := VStr (Field.default f r0)]> (_dataCache r)) r))
                         (Field.key f) = VStr (Field.default f r0)).
    { cbn [_dataCache with_dataCache]. unfold prop. now rewrite lookup_insert_eq. }
    split; [exact Hmemo|].
    rewrite accessor_memo; rewrite ?Hmemo; try reflexivity.
    + exact Ho.
    + apply default_truthy.
  - intros Hmiss [Hrej | (text & items & Hresp & Hparse & Hno)].
    + now rewrite (client_of_null f e u svc (getIdentityData_fetch_rejects e u svc Hmiss Hrej)).
    + now rewrite (client_of_null f e u svc
                     (getIdentityData_no_main e u text svc items Hmiss Hresp Hparse Hno)).
Qed.

Lemma accessor_never_fails_witness :
  OpIdResourceFactory.createByIdentityUrl NetworkNameService.new "sunstream.acme"
  = Some sunstream
  /\ let H := canned_host [] in
     let '(v, r1, svc1) := Field.accessor LogoUrl offline sunstream qobotoApiService in
     v = VStr defaultLogoUrl
     /\ Field.accessor LogoUrl offline r1 svc1 = (VStr defaultLogoUrl, r1, svc1)
     /\ requests svc1 = ["https://localhost:7033/api/v1/Qoboto/GetDataValue/All?DataAccountUrl=sunstream.acme"].
Proof.
  split; [reflexivity|]. intros H.
  pose proof (@accessor_never_fails H NetworkNameService.new "sunstream.acme"
                sunstream sunstream LogoUrl offline offline qobotoApiService
                eq_refl eq_refl) as W.
  cbv zeta in W.
  destruct (Field.accessor LogoUrl offline sunstream qobotoApiService)
    as [[v r1] svc1] eqn:E.
  destruct W as (_ & W & _).
  destruct W as (Hv & _ & Hagain); try reflexivity.
  split; [exact Hv|]. split; [exact Hagain|].
  vm_compute in E. injection E as _ _ <-. reflexivity.
Defined.

End RecordFacts.

(** ** OpIdResourceClass: manual overrides *)

Module OverrideFacts.
Import JsString QobotoApiService OpIdResource Spec ResourceFacts RecordFacts.

Lemma key_injective (f g : field) : Field.eqb f g = false -> Field.key g <> Field.key f.
Proof. destruct f, g; cbn; congruence. Qed.

Lemma setCustom_lookup (f : field) (v : value) (r : OpIdResource.t) :
  _customOverrides (Field.setCustom f v r) !! Field.key f = Some v.
Proof. destruct f; cbn; apply lookup_insert_eq. Qed.

Lemma store_frame (k : string) (v : value) (r : OpIdResource.t) :
  _customOverrides (if truthy v then with_dataCache (<[k := v]> (_dataCache r)) r else r)
  = _customOverrides r.
Proof. now destruct (truthy v). Qed.

Lemma getAllMainData_frame `{Host} (es : envs) (r : OpIdResource.t)
  (svc : QobotoApiService.t) :
  _customOverrides (snd (fst (OpIdResource.getAllMainData es r svc)))
  = _customOverrides r.
Proof.
  unfold OpIdResource.getAllMainData.
  destruct (QobotoApiService.getAllMainData _ _ _) as [allData svc0].
  set (ra := if truthy (md_logoUrl allData) then _ else r).
  set (rb := if truthy (md_sectionMain1Description allData) then _ else ra).
  set (rc := if truthy (md_sectionMain1Background2ImageUrl allData) then _ else rb).
  assert (Hc : _customOverrides rc = _customOverrides r).
  { subst rc rb ra. now rewrite !store_frame. }
  clearbody rc. clear ra rb.
  assert (Hstep : forall (f : field) (e : env) (b : bool) (w : value)
                         (r' : OpIdResource.t) (s : QobotoApiService.t),
             _customOverrides
               (snd (fst (if b then (w, r', s) else Field.accessor f e r' s)))
             = _customOverrides r').
  { intros f e [] w r' s; [reflexivity|]. apply accessor_frame. }
  pose proof (Hstep LogoUrl (e_logo es) (truthy (md_logoUrl allData))
                (md_logoUrl allData) rc svc0) as H1.
  cbn [Field.accessor] in H1.
  destruct (if truthy (md_logoUrl allData) then _ else _) as [[v1 r1] s1].
  pose proof (Hstep SectionMain1Description (e_description es)
                (truthy (md_sectionMain1Description allData))
                (md_sectionMain1Description allData) r1 s1) as H2.
  cbn [Field.accessor] in H2.
  destruct (if truthy (md_sectionMain1Description allData) then _ else _)
    as [[v2 r2] s2].
  pose proof (Hstep SectionMain1Background2ImageUrl (e_background es)
                (truthy (md_sectionMain1Background2ImageUrl allData))
                (md_sectionMain1Background2ImageUrl allData) r2 s2) as H3.
  cbn [Field.accessor] in H3.
  destruct (if truthy (md_sectionMain1Background2ImageUrl allData) then _ else _)
    as [[v3 r3] s3].
  cbn [fst snd] in *. congruence.
Qed.

(** A call that keeps the override of [f] leaves its entry as it is. *)
Lemma run_record_keeps `{Host} (f : field) (c : record_call)
  (r : OpIdResource.t) (svc : QobotoApiService.t) :
  keeps_override f c = true ->
  _customOverrides (fst (run_record c (r, svc))) !! Field.key f
  = _customOverrides r !! Field.key f.
Proof.
  intros Hk. destruct c as [g e|es|g v|dt| |c]; cbn [run_record keeps_override] in *.
  - pose proof (accessor_frame g e r svc) as [_ Hf].
    destruct (Field.accessor g e r svc) as [[v r'] svc']. cbn in Hf |- *. now rewrite Hf.
  - pose proof (getAllMainData_frame es r svc) as Hf.
    destruct (OpIdResource.getAllMainData es r svc) as [[v r'] svc'].
    cbn in Hf |- *. now rewrite Hf.
  - apply negb_true_iff, key_injective in Hk.
    destruct g; cbn; now rewrite lookup_insert_ne.
  - unfold OpIdResource.clearCache. cbn [fst].
    destruct dt as [k|]; [destruct (isEmpty k)|]; reflexivity.
  - discriminate.
  - reflexivity.
Qed.

Lemma run_records_keep `{Host} (f : field) (cs : list record_call)
  (r : OpIdResource.t) (svc : QobotoApiService.t) :
  forallb (keeps_override f) cs = true ->
  _customOverrides (fst (run_records cs (r, svc))) !! Field.key f
  = _customOverrides r !! Field.key f.
Proof.
  revert r svc. induction cs as [|c cs IH]; intros r svc Hk; [reflexivity|].
  cbn in Hk. apply andb_prop in Hk as [Hc Hcs].
  unfold run_records. cbn [fold_left]. fold (run_records cs (run_record c (r, svc))).
  rewrite <- (run_record_keeps f c r svc Hc).
  destruct (run_record c (r, svc)) as [r' svc']. now apply IH.
Qed.

(** An accessor that finds a falsy override goes on exactly as on the
    record without that override: same value, same memo, same data client;
    the overrides stay as they are. *)
Lemma accessor_falsy_override `{Host} (f : field) (e : env) (r : OpIdResource.t)
  (svc : QobotoApiService.t) :
  truthy (prop (_customOverrides r) (Field.key f)) = false ->
  let '(w, r1, svc1) := Field.accessor f e (Vocabulary.without_override f r) svc in
  Field.accessor f e r svc = (w, with_customOverrides (_customOverrides r) r1, svc1).
Proof.
  intros Ho.
  assert (Ho' : truthy (prop (_customOverrides (Vocabulary.without_override f r))
                          (Field.key f)) = false).
  { unfold Vocabulary.without_override, prop.
    cbn [_customOverrides with_customOverrides]. now rewrite lookup_delete_eq. }
  destruct (truthy (prop (_dataCache r) (Field.key f))) eqn:Hm.
  - rewrite (accessor_memo f e (Vocabulary.without_override f r) svc Ho' Hm).
    rewrite (accessor_memo f e r svc Ho Hm). now destruct r.
  - rewrite (accessor_resolve f e (Vocabulary.without_override f r) svc Ho' Hm).
    rewrite (accessor_resolve f e r svc Ho Hm). cbn zeta.
    assert (Hdef : Field.default f (Vocabulary.without_override f r) = Field.default f r)
      by now destruct f.
    rewrite Hdef. reflexivity.
Qed.

(** C4, as amended.  Let the override of field [f] be set to [v], and let
    any calls on the record and on the data client follow that neither
    clear the overrides nor set the override of [f] anew.  If [v] is truthy
    (a non-empty string, say), the accessor of [f] returns [v], whatever the
    memo holds and whatever the world would answer, and leaves the record
    and the data client as they were, so nothing is fetched.  If [v] is
    falsy, the override is treated as no override: the accessor returns
    what it returns on the same record without the override of [f], with
    the same memo and the same data client afterwards.  The empty string,
    [null], [undefined], [0] and [false] are falsy. *)
Theorem override_wins `{Host} (f : field) (v : value) (r : OpIdResource.t)
  (svc : QobotoApiService.t) (calls : list record_call) (e : env) :
  forallb (keeps_override f) calls = true ->
  let '(r', svc') := run_records calls (Field.setCustom f v r, svc) in
  (truthy v = true -> Field.accessor f e r' svc' = (v, r', svc'))
  /\ (truthy v = false ->
      let '(w, r1, svc1) :=
        Field.accessor f e (Vocabulary.without_override f r') svc' in
      Field.accessor f e r' svc'
      = (w, with_customOverrides (_customOverrides r') r1, svc1))
  /\ (truthy (VStr "") = false /\ truthy VNull = false /\ truthy VUndefined = false
      /\ truthy (VNum 0) = false /\ truthy (VBool false) = false).
Proof.
  intros Hk.
  pose proof (run_records_keep f calls (Field.setCustom f v r) svc Hk) as Hl.
  rewrite setCustom_lookup in Hl.
  destruct (run_records calls (Field.setCustom f v r, svc)) as [r' svc'].
  cbn [fst] in Hl.
  assert (Hp : prop (_customOverrides r') (Field.key f) = v)
    by (unfold prop; now rewrite Hl).
  split; [|split; [|repeat split]].
  - intros Hv. rewrite accessor_override; rewrite Hp; [reflexivity | exact Hv].
  - intros Hv. apply accessor_falsy_override. now rewrite Hp.
Qed.

(** A memo from an earlier resolution, a cache clear and a fresh fetch do
    not displace a truthy override; an empty override set on a record that
    holds a memo is passed over for the memo. *)
Lemma override_wins_witness :
  let H := canned_host [] in
  forallb (keeps_override LogoUrl)
    [RAccess LogoUrl offline; RClearCache None; RAccess SectionMain1Description offline]
  = true
  /\ (let '(r', svc') :=
        run_records [RAccess LogoUrl offline; RClearCache None;
                     RAccess SectionMain1Description offline]
          (Field.setCustom LogoUrl (VStr "https://example.org/logo.png") sunstream,
           qobotoApiService) in
      Field.accessor LogoUrl offline r' svc'
      = (VStr "https://example.org/logo.png", r', svc'))
  /\ (let '(r', svc') :=
        run_records [RAccess LogoUrl offline]
          (Field.setCustom LogoUrl (VStr "") sunstream, qobotoApiService) in
      fst (fst (Field.accessor LogoUrl offline r' svc'))
      = fst (fst (Field.accessor LogoUrl offline
                    (Vocabulary.without_override LogoUrl r') svc'))).
Proof.
  intros H. split; [reflexivity|]. split.
  - pose proof (@override_wins H LogoUrl (VStr "https://example.org/logo.png") sunstream
                  qobotoApiService
                  [RAccess LogoUrl offline; RClearCache None;
                   RAccess SectionMain1Description offline] offline eq_refl) as W.
    destruct (run_records _ _) as [r' svc']. now apply W.
  - pose proof (@override_wins H LogoUrl (VStr "") sunstream qobotoApiService
                  [RAccess LogoUrl offline] offline eq_refl) as W.
    destruct (run_records _ _) as [r' svc'].
    destruct W as (_ & W & _). specialize (W eq_refl).
    destruct (Field.accessor LogoUrl offline (Vocabulary.without_override LogoUrl r') svc')
      as [[w r1] svc1].
    now rewrite W.
Defined.

(** C4 as stated fails for a falsy override: after the override of the logo
    is set to the empty string, the accessor does not return the empty
    string but resolves the field as if no override were set (here, with the
    network down, to the default logo). *)
Lemma empty_override_ignored :
  let H := canned_host [] in
  let r := OpIdResource.setCustomLogoUrl (VStr "") sunstream in
  prop (_customOverrides r) "logoUrl" = VStr ""
  /\ fst (fst (OpIdResource.logoUrl offline r qobotoApiService)) = VStr defaultLogoUrl
  /\ fst (fst (OpIdResource.logoUrl offline r qobotoApiService)) <> VStr "".
Proof.
  intros H r. split; [reflexivity|]. split; [reflexivity|].
  intros E. vm_compute in E. discriminate.
Qed.

End OverrideFacts.

(** ** Empty and blank input *)

Module BlankInputFacts.
Import JsString JsStringFacts.

(** C9.  The code at the failing input: three spaces are white space only
    and [parseAdi2] rejects them, yet the URL-builder path does not return
    [null]: the formatter wraps them into [acc://   .acme], the pattern of
    the factory accepts that, and both builders return a URL whose host
    label is the three spaces. *)
Theorem blank_input_builds_url :
  all_ws "   " = true
  /\ AdiStringHelper.parseAdi2 "   " = None
  /\ IdentityFormatter.formatIdentity "   " = "acc://   .acme"
  /\ AdiParse.getBankOnLedgerUrl NetworkNameService.new "   "
     = Some "https://   .BankOnLedger.com/?current-network=mainnet"
  /\ AdiParse.getQobotoUrl NetworkNameService.new "   "
     = Some "https://   .Qoboto.com/?current-network=mainnet"
  /\ AdiParse.getBankOnLedgerUrl NetworkNameService.new "   " <> None.
Proof. repeat split; discriminate. Qed.

(** The part of the statement about blank input that the code keeps:
    [parseAdi2] returns [null] on every input made of white space only, the
    empty string included; on the empty string the formatter returns the
    empty string, the factory returns [null] and both URL builders return
    [null], under every network. *)
Lemma blank_input_rejected (ns : NetworkNameService.t) (s : string) :
  all_ws s = true ->
  AdiStringHelper.parseAdi2 s = None
  /\ IdentityFormatter.formatIdentity "" = ""
  /\ OpIdInfoFactory.createByIdentityUrl ns "" = None
  /\ OpIdResourceFactory.createByIdentityUrl ns "" = None
  /\ AdiParse.getBankOnLedgerUrl ns "" = None
  /\ AdiParse.getQobotoUrl ns "" = None.
Proof.
  intros Hs. split; [now apply AdiStringHelperFacts.parseAdi2_None|].
  repeat split.
Qed.

Lemma blank_input_rejected_witness :
  all_ws (String "009" (String " " (String "160" ""))) = true
  /\ AdiStringHelper.parseAdi2 (String "009" (String " " (String "160" ""))) = None
  /\ AdiParse.getBankOnLedgerUrl
       (NetworkNameService.switchNetworkName "kermit" NetworkNameService.new) ""
     = None.
Proof.
  split; [reflexivity|].
  destruct (blank_input_rejected
              (NetworkNameService.switchNetworkName "kermit" NetworkNameService.new)
              (String "009" (String " " (String "160" ""))) eq_refl)
    as (Hp & _ & _ & _ & Hb & _).
  split; [exact Hp | exact Hb].
Defined.

(** White space is neither a slash nor a dot, nor the first letter of
    [acc://]. *)
Lemma is_ws_plain (c : ascii) :
  is_ws c = true ->
  OpIdInfoFactory.name_char c = true
  /\ Ascii.eqb c "." = false /\ Ascii.eqb c "/" = false
  /\ Ascii.eqb "a" c = false /\ Ascii.eqb "." c = false.
Proof. destruct c as [[] [] [] [] [] [] [] []]; vm_compute; intros; repeat split; congruence. Qed.

Lemma all_ws_no_scheme (s : string) : all_ws s = true -> includes "acc://" s = false.
Proof.
  induction s as [|c r IH]; [reflexivity|].
  cbn [all_ws]. intros [Hc Hr]%andb_prop.
  rewrite includes_unfold, (IH Hr). cbn [startsWith].
  now rewrite (proj1 (proj2 (proj2 (proj2 (is_ws_plain c Hc))))).
Qed.

Lemma all_ws_no_suffix (s : string) : all_ws s = true -> includes ".acme" s = false.
Proof.
  induction s as [|c r IH]; [reflexivity|].
  cbn [all_ws]. intros [Hc Hr]%andb_prop.
  rewrite includes_unfold, (IH Hr). cbn [startsWith].
  now rewrite (proj2 (proj2 (proj2 (proj2 (is_ws_plain c Hc))))).
Qed.

Lemma formatIdentity_blank (s : string) :
  s <> "" -> all_ws s = true ->
  IdentityFormatter.formatIdentity s = "acc://" +:+ s +:+ ".acme".
Proof.
  intros Hne Hs. rewrite (IdentityFormatterFacts.formatIdentity_shape s Hne).
  rewrite (toLowerCase_all_ws s Hs).
  now rewrite (all_ws_no_scheme s Hs), (all_ws_no_suffix s Hs).
Qed.

Lemma span_name_blank (s : string) :
  all_ws s = true -> OpIdInfoFactory.span_name (s +:+ ".acme") = (s, ".acme").
Proof.
  induction s as [|c r IH]; [reflexivity|].
  cbn [all_ws]. intros [Hc Hr]%andb_prop.
  change (String c r +:+ ".acme") with (String c (r +:+ ".acme")).
  cbn [OpIdInfoFactory.span_name].
  now rewrite (proj1 (is_ws_plain c Hc)), (IH Hr).
Qed.

Lemma split_dot_blank (s : string) :
  all_ws s = true -> split "." (s +:+ ".acme") = [s; "acme"].
Proof.
  induction s as [|c r IH]; [reflexivity|].
  cbn [all_ws]. intros [Hc Hr]%andb_prop.
  change (String c r +:+ ".acme") with (String c (r +:+ ".acme")).
  cbn [split].
  now rewrite (proj1 (proj2 (is_ws_plain c Hc))), (IH Hr).
Qed.

Lemma stripTrailingSlashes_suffix (s : string) :
  stripTrailingSlashes (s +:+ ".acme") = s +:+ ".acme".
Proof.
  induction s as [|c r IH]; [reflexivity|].
  change (String c r +:+ ".acme") with (String c (r +:+ ".acme")).
  cbn [stripTrailingSlashes]. rewrite IH.
  now destruct r.
Qed.

Lemma parseAdi2_blank_name (s : string) :
  all_ws s = true ->
  AdiStringHelper.parseAdi2 ("acc://" +:+ s +:+ ".acme")
  = Some {| AdiStringHelper.url := "acc://" +:+ s +:+ ".acme";
            AdiStringHelper.path := s +:+ ".acme";
            AdiStringHelper.name := s;
            AdiStringHelper.rootUrl := "acc://" +:+ s +:+ ".acme";
            AdiStringHelper.subPath := "" |}.
Proof.
  intros Hs. unfold AdiStringHelper.parseAdi2, AdiStringHelper.fixAdiUrl.
  assert (Ht : isEmpty (trim ("acc://" +:+ s +:+ ".acme")) = false).
  { apply isEmpty_false. intros E%trim_empty. discriminate. }
  rewrite Ht. cbn [isEmpty append orb].
  change (String "a" (String "c" (String "c" (String ":" (String "/" (String "/"
            (s +:+ ".acme")))))))
    with ("acc://" +:+ (s +:+ ".acme")).
  rewrite toLowerCase_app, (toLowerCase_app s), (toLowerCase_all_ws s Hs).
  change (toLowerCase "acc://") with "acc://".
  change (toLowerCase ".acme") with ".acme".
  change ("acc://" +:+ s +:+ ".acme")
    with (String "a" (String "c" (String "c" (String ":" (String "/" (String "/"
            (s +:+ ".acme"))))))).
  cbn [stripTrailingSlashes]. rewrite stripTrailingSlashes_suffix.
  assert (Hne : exists d t, s +:+ ".acme" = String d t)
    by (destruct s; cbn; eauto).
  destruct Hne as (d & t & Hne). rewrite Hne. cbn -[split]. rewrite <- Hne.
  now rewrite (split_dot_blank s Hs).
Qed.

(** X27.  What the builder returns on a blank input that is not empty: the
    input itself becomes the host label of the partner URL. *)
Lemma blank_input_url (ns : NetworkNameService.t) (s : string) :
  s <> "" -> all_ws s = true ->
  AdiParse.getBankOnLedgerUrl ns s
  = Some ("https://" +:+ s +:+ ".BankOnLedger.com/?current-network="
            +:+ NetworkNameService.currentNetworkName ns).
Proof.
  intros Hne Hs.
  unfold AdiParse.getBankOnLedgerUrl, OpIdResourceFactory.createByIdentityUrl,
    OpIdInfoFactory.createByIdentityUrl.
  rewrite (formatIdentity_blank s Hne Hs).
  assert (Hm : OpIdInfoFactory.match_identity ("acc://" +:+ s +:+ ".acme")
               = Some (s, None)).
  { unfold OpIdInfoFactory.match_identity. cbn [startsWith append Ascii.eqb Bool.eqb andb substring].
    rewrite (span_name_blank s Hs).
    now rewrite (proj2 (isEmpty_false s) Hne). }
  rewrite Hm.
  cbn [OpIdResource.opIdInfo OpIdResource.new OpIdInfo.init OpIdInfo.adiInfo
       OpIdInfo.identityUrl].
  unfold AdiUrlClass.bankOnLedger_Url, AdiUrlClass.calculate_app_Url,
    AdiUrlClass.createByUrl, AdiUrlClass.init_ByAdiUrl.
  rewrite (parseAdi2_blank_name s Hs).
  cbn [fst AdiUrlClass._calc_Server AdiUrlClass.name AdiUrlClass.pathEnd
       AdiUrlClass.networkName AdiStringHelper.name AdiStringHelper.subPath str].
  reflexivity.
Qed.

End BlankInputFacts.

(** ** The response cache on a concrete store *)

Module CacheExamples.
Import JsString QobotoApiService Spec CacheFacts.

Example getIdentityData_hit_then_expired :
  let H := canned_host [] in
  let hit := {| now_check := 300999; response := FetchRejects; now_store := 300999 |} in
  let late := {| now_check := 301000; response := FetchRejects; now_store := 301000 |} in
  getIdentityData hit "sunstream.acme" warm
  = (VObj {[ "name" := VStr "main"; "logoUrl" := VStr "L" ]}, warm)
  /\ fst (getIdentityData late "sunstream.acme" warm) = VNull
  /\ cache (snd (getIdentityData late "sunstream.acme" warm)) = ∅
  /\ requests (snd (getIdentityData late "sunstream.acme" warm))
     = ["https://localhost:7033/api/v1/Qoboto/GetDataValue/All?DataAccountUrl=sunstream.acme"].
Proof. repeat split. Qed.

End CacheExamples.

(** ** The data client and a record, end to end *)

Module EndToEnd.
Import JsString QobotoApiService OpIdResource Spec.

Example getIdentityData_selects_main :
  let H := canned_host [("sections", sections)] in
  fst (getIdentityData (answers "sections") "sunstream.acme" qobotoApiService)
  = VObj {[ "name" := VStr "main"; "logoUrl" := VStr "L";
            "sectionMain1Description" := VStr " D ";
            "sectionMain1Background2ImageUrl" := VStr "B" ]}
  /\ fst (getLogoUrl (answers "sections") "sunstream.acme" qobotoApiService)
     = Return (VStr "L")
  /\ fst (getSectionMain1Description (answers "sections") "sunstream.acme"
            qobotoApiService)
     = Return (VStr "D").
Proof. repeat split. Qed.

Example accessors_resolve_from_main :
  let H := canned_host [("sections", sections)] in
  let '(v1, r1, svc1) := OpIdResource.logoUrl (answers "sections") sunstream qobotoApiService in
  let '(v2, r2, svc2) := OpIdResource.sectionMain1Background2ImageUrl offline r1 svc1 in
  v1 = VStr "L" /\ v2 = VStr "B" /\ length (requests svc2) = 1.
Proof. repeat split. Qed.

Example accessors_default_without_main :
  let H := canned_host [("no-main", no_main)] in
  fst (fst (OpIdResource.logoUrl (answers "no-main") sunstream qobotoApiService))
  = VStr defaultLogoUrl
  /\ fst (fst (OpIdResource.sectionMain1Description (answers "no-main") sunstream
                 qobotoApiService))
     = VStr "Welcome to sunstream's digital identity dashboard."
  /\ fst (fst (OpIdResource.sectionMain1Background2ImageUrl (answers "no-main")
                 sunstream qobotoApiService))
     = VStr defaultBackgroundUrl.
Proof. repeat split. Qed.

End EndToEnd.

(** ** More on strings *)

Module JsStringMore.
Import JsString JsStringFacts.

Lemma startsWith_split (p s : string) :
  startsWith p s = true -> s = p +:+ substring (String.length p) s.
Proof.
  revert s; induction p as [|a p IH]; intros s; [reflexivity|].
  destruct s as [|b s]; cbn [startsWith]; [discriminate|].
  intros [Hab Hp]%andb_prop. apply Ascii.eqb_eq in Hab as ->.
  cbn [String.length substring]. change (String b p +:+ substring (String.length p) s)
    with (String b (p +:+ substring (String.length p) s)).
  f_equal. now apply IH.
Qed.

Lemma length_app (s t : string) :
  String.length (s +:+ t) = (String.length s + String.length t)%nat.
Proof.
  induction s as [|c r IH]; [reflexivity|].
  change (String c r +:+ t) with (String c (r +:+ t)). cbn [String.length].
  now rewrite IH.
Qed.

Lemma contains_char_app (c : ascii) (s t : string) :
  contains_char c (s +:+ t) = contains_char c s || contains_char c t.
Proof.
  induction s as [|d r IH]; [reflexivity|].
  change (String d r +:+ t) with (String d (r +:+ t)).
  cbn [contains_char]. now rewrite IH, orb_assoc.
Qed.

Lemma contains_char_substring (c : ascii) (n : nat) (s : string) :
  contains_char c s = false -> contains_char c (substring n s) = false.
Proof.
  revert s; induction n as [|n IH]; intros s; [now destruct s|].
  destruct s as [|d r]; [reflexivity|]. cbn [contains_char substring].
  intros [_ H]%orb_false_elim. now apply IH.
Qed.

(** No piece of a split holds the separator. *)
Lemma split_pieces (sep : ascii) (s : string) :
  Forall (fun seg => contains_char sep seg = false) (split sep s).
Proof.
  induction s as [|c r IH]; cbn [split]; [repeat constructor|].
  destruct (Ascii.eqb c sep) eqn:E; [now constructor|].
  destruct (split sep r) as [|h t]; [repeat constructor; cbn; now rewrite E|].
  inversion IH as [|? ? Hh Ht]; subst. constructor; [|exact Ht].
  cbn [contains_char]. now rewrite E, Hh.
Qed.

Lemma split_nonempty (sep : ascii) (s : string) : split sep s <> [].
Proof.
  destruct s as [|c r]; cbn [split]; [discriminate|].
  destruct (Ascii.eqb c sep); [discriminate|]. now destruct (split sep r).
Qed.

(** The first piece is a prefix of the string, the last one a suffix that
    follows a separator or is the whole string. *)
Lemma split_hd_prefix (sep : ascii) (s : string) :
  exists rest, s = hd EmptyString (split sep s) +:+ rest.
Proof.
  induction s as [|c r [rest IH]]; [now exists EmptyString|].
  cbn [split]. destruct (Ascii.eqb c sep); [now exists (String c r)|].
  destruct (split sep r) as [|h t] eqn:E; [now destruct (split_nonempty sep r)|].
  cbn [hd] in *. exists rest. change (String c h +:+ rest) with (String c (h +:+ rest)).
  now f_equal.
Qed.

(** Joining the pieces of a split with the separator gives the string back. *)
Lemma join_split (sep : ascii) (s : string) :
  join (String sep EmptyString) (split sep s) = s.
Proof.
  induction s as [|c r IH]; [reflexivity|].
  cbn [split]. destruct (Ascii.eqb c sep) eqn:E.
  - apply Ascii.eqb_eq in E as ->.
    destruct (split sep r) as [|h t] eqn:Er; [now destruct (split_nonempty sep r)|].
    change (join (String sep EmptyString) (EmptyString :: h :: t))
      with (String sep (join (String sep EmptyString) (h :: t))).
    now rewrite IH.
  - destruct (split sep r) as [|h t] eqn:Er; [now destruct (split_nonempty sep r)|].
    rewrite <- IH. now destruct t.
Qed.

Lemma join_last (sep : string) (l : list string) :
  l <> [] ->
  join sep l = List.last l EmptyString
  \/ exists front, join sep l = front +:+ sep +:+ List.last l EmptyString.
Proof.
  induction l as [|p l IH]; [congruence|]. intros _.
  destruct l as [|q t]; [now left|].
  change (List.last (p :: q :: t) EmptyString) with (List.last (q :: t) EmptyString).
  change (join sep (p :: q :: t)) with (p +:+ sep +:+ join sep (q :: t)).
  right. destruct IH as [IH | [front IH]]; [discriminate| |].
  - exists p. now rewrite IH.
  - exists (p +:+ sep +:+ front). rewrite IH. now rewrite !append_assoc.
Qed.

End JsStringMore.

(** ** More on the formatter and the parser *)

Module ParserFacts.
Import Vocabulary.
Import JsString JsStringFacts JsStringMore IdentityFormatter AdiStringHelper Spec.

(** X1.  On a non-empty input the formatter keeps the lower-cased input
    whole, puts [acc://] in front of it unless it occurs in it, and [.acme]
    behind it unless it occurs in it; the result is in lower case and holds
    both. *)
Theorem formatIdentity_postcondition (x : string) :
  x <> "" ->
  (exists pre suf,
      formatIdentity x = pre +:+ toLowerCase x +:+ suf
      /\ (pre = "" \/ pre = "acc://") /\ (suf = "" \/ suf = ".acme")
      /\ (pre = "" <-> includes "acc://" (toLowerCase x) = true)
      /\ (suf = "" <-> includes ".acme" (toLowerCase x) = true))
  /\ toLowerCase (formatIdentity x) = formatIdentity x
  /\ includes "acc://" (formatIdentity x) = true
  /\ includes ".acme" (formatIdentity x) = true.
Proof.
  intros Hx. split; [|exact (IdentityFormatterFacts.formatIdentity_canonical x Hx)].
  rewrite (IdentityFormatterFacts.formatIdentity_shape x Hx).
  do 2 eexists. split; [reflexivity|].
  destruct (includes "acc://" (toLowerCase x)), (includes ".acme" (toLowerCase x));
    repeat split; auto; discriminate.
Qed.

Lemma formatIdentity_postcondition_witness :
  "Sunstream.ACME/Docs" <> ""
  /\ formatIdentity "Sunstream.ACME/Docs" = "acc://sunstream.acme/docs"
  /\ includes ".acme" (formatIdentity "Sunstream.ACME/Docs") = true.
Proof.
  split; [discriminate|]. split; [reflexivity|].
  apply (formatIdentity_postcondition "Sunstream.ACME/Docs"). discriminate.
Defined.

Lemma stripTrailingSlashes_cons (c : ascii) (r : string) :
  stripTrailingSlashes (String c r)
  = match stripTrailingSlashes r with
    | EmptyString => if Ascii.eqb c "/" then EmptyString else String c EmptyString
    | r' => String c r'
    end.
Proof. reflexivity. Qed.

Lemma stripTrailingSlashes_idem (s : string) :
  stripTrailingSlashes (stripTrailingSlashes s) = stripTrailingSlashes s.
Proof.
  induction s as [|c r IH]; [reflexivity|]. rewrite stripTrailingSlashes_cons.
  destruct (stripTrailingSlashes r) as [|d r'] eqn:E.
  - destruct (Ascii.eqb c "/") eqn:Ec; [reflexivity|].
    rewrite stripTrailingSlashes_cons. cbn [stripTrailingSlashes]. now rewrite Ec.
  - rewrite stripTrailingSlashes_cons. now rewrite IH.
Qed.

Lemma stripTrailingSlashes_no_slash (s : string) :
  ends_with_char "/" (stripTrailingSlashes s) = false.
Proof.
  induction s as [|c r IH]; [reflexivity|]. cbn [stripTrailingSlashes].
  destruct (stripTrailingSlashes r) as [|d r'] eqn:E.
  - destruct (Ascii.eqb c "/") eqn:Ec; [reflexivity | exact Ec].
  - exact IH.
Qed.

Lemma stripTrailingSlashes_lower (s : string) :
  toLowerCase s = s -> toLowerCase (stripTrailingSlashes s) = stripTrailingSlashes s.
Proof.
  induction s as [|c r IH]; [reflexivity|]. cbn [toLowerCase stripTrailingSlashes].
  intros [= Hc Hr]. specialize (IH Hr).
  destruct (stripTrailingSlashes r) as [|d r'] eqn:E.
  - destruct (Ascii.eqb c "/"); [reflexivity|]. cbn. now rewrite Hc.
  - change (toLowerCase (String c (String d r')))
      with (String (lower_unit c) (toLowerCase (String d r'))).
    now rewrite Hc, IH.
Qed.

(** A suffix that survives the stripping shields what is in front of it. *)
Lemma stripTrailingSlashes_app (a b : string) :
  stripTrailingSlashes b <> "" ->
  stripTrailingSlashes (a +:+ b) = a +:+ stripTrailingSlashes b.
Proof.
  intros Hb. induction a as [|c a IH]; [reflexivity|].
  change (String c a +:+ b) with (String c (a +:+ b)).
  change (String c a +:+ stripTrailingSlashes b)
    with (String c (a +:+ stripTrailingSlashes b)).
  rewrite stripTrailingSlashes_cons, IH.
  destruct (a +:+ stripTrailingSlashes b) eqn:E; [|reflexivity].
  destruct a; [now destruct Hb | discriminate].
Qed.

Lemma fixAdiUrl_lower (x : string) : toLowerCase (fixAdiUrl x) = fixAdiUrl x.
Proof.
  unfold fixAdiUrl. destruct (isEmpty x) eqn:E.
  - apply isEmpty_true in E. now subst.
  - apply stripTrailingSlashes_lower, toLowerCase_idem.
Qed.

Lemma fixAdiUrl_strip (x : string) :
  stripTrailingSlashes (fixAdiUrl x) = fixAdiUrl x.
Proof.
  unfold fixAdiUrl. destruct (isEmpty x) eqn:E.
  - apply isEmpty_true in E. now subst.
  - apply stripTrailingSlashes_idem.
Qed.

(** X2.  [fixAdiUrl] is idempotent, and its result is in lower case and
    does not end with a slash. *)
Theorem fixAdiUrl_normal_form (x : string) :
  fixAdiUrl (fixAdiUrl x) = fixAdiUrl x
  /\ toLowerCase (fixAdiUrl x) = fixAdiUrl x
  /\ ends_with_char "/" (fixAdiUrl x) = false.
Proof.
  split; [|split; [apply fixAdiUrl_lower|]].
  - unfold fixAdiUrl at 1. destruct (isEmpty (fixAdiUrl x)) eqn:E; [reflexivity|].
    now rewrite fixAdiUrl_lower, fixAdiUrl_strip.
  - unfold fixAdiUrl. destruct (isEmpty x) eqn:E.
    + apply isEmpty_true in E. now subst.
    + apply stripTrailingSlashes_no_slash.
Qed.

Lemma parseAdi2_accepts (x : string) :
  all_ws x = false -> parseAdi2 x = Some (record_of (locator_of x)).
Proof.
  intros Hws. unfold parseAdi2.
  assert (Hg : isEmpty x || isEmpty (trim x) = false).
  { apply orb_false_intro; apply isEmpty_false.
    - intros ->. discriminate.
    - intros E%trim_empty. congruence. }
  rewrite Hg. unfold locator_of, record_of.
  now destruct (startsWith "acc://" (fixAdiUrl x)).
Qed.

Lemma parseAdi2_Some (x : string) (p : adi) :
  parseAdi2 x = Some p -> all_ws x = false /\ p = record_of (locator_of x).
Proof.
  intros H.
  assert (Hws : all_ws x = false).
  { destruct (all_ws x) eqn:E; [|reflexivity].
    apply AdiStringHelperFacts.parseAdi2_None in E. congruence. }
  split; [exact Hws|]. rewrite (parseAdi2_accepts x Hws) in H. congruence.
Qed.

Lemma locator_of_scheme (x : string) : startsWith "acc://" (locator_of x) = true.
Proof.
  unfold locator_of. destruct (startsWith "acc://" (fixAdiUrl x)) eqn:E; [exact E|].
  apply startsWith_app_self.
Qed.

Lemma locator_of_lower (x : string) : toLowerCase (locator_of x) = locator_of x.
Proof.
  unfold locator_of. destruct (startsWith "acc://" (fixAdiUrl x)).
  - apply fixAdiUrl_lower.
  - now rewrite toLowerCase_app, fixAdiUrl_lower.
Qed.

Lemma record_of_subPath_no_dot (u : string) :
  contains_char "." (AdiStringHelper.subPath (record_of u)) = false.
Proof.
  unfold record_of. cbn [subPath].
  pose proof (split_pieces "." (substring 6 u)) as Hp.
  assert (Hn : contains_char "." (nth 1 (split "." (substring 6 u)) EmptyString) = false).
  { destruct (split "." (substring 6 u)) as [|h [|h' t]]; try reflexivity.
    inversion Hp as [|? ? _ Ht]; subst. now inversion Ht. }
  destruct (_ <? _)%nat; [|reflexivity]. now apply contains_char_substring.
Qed.

(** X3.  Whatever input it accepts, the record [parseAdi2] builds has a
    lower-case [url] that starts with [acc://] and continues with [path];
    [name] is a prefix of [path]; neither [name] nor [subPath] holds a dot
    (the sub-path is cut at the first dot behind the suffix); and [rootUrl]
    is [acc://] followed by [name] and [.acme]. *)
Theorem parseAdi2_record_shape (x : string) (p : adi) :
  parseAdi2 x = Some p ->
  url p = "acc://" +:+ path p
  /\ toLowerCase (url p) = url p
  /\ (exists rest, path p = name p +:+ rest)
  /\ contains_char "." (name p) = false
  /\ contains_char "." (subPath p) = false
  /\ rootUrl p = "acc://" +:+ name p +:+ ".acme".
Proof.
  intros H. destruct (parseAdi2_Some x p H) as [_ ->].
  unfold record_of. cbn [url path name rootUrl subPath].
  set (u := locator_of x). set (pieces := split "." (substring 6 u)).
  assert (Hp : Forall (fun seg => contains_char "." seg = false) pieces)
    by apply split_pieces.
  split; [exact (startsWith_split "acc://" u (locator_of_scheme x))|].
  split; [apply locator_of_lower|].
  split; [apply split_hd_prefix|].
  split.
  - destruct pieces as [|h t]; [reflexivity|]. now inversion Hp.
  - split; [|reflexivity].
    assert (Hn : contains_char "." (nth 1 pieces EmptyString) = false).
    { destruct pieces as [|h [|h' t]]; try reflexivity.
      inversion Hp as [|? ? _ Ht]; subst. now inversion Ht. }
    destruct (_ <? _)%nat; [|reflexivity]. now apply contains_char_substring.
Qed.

Lemma parseAdi2_record_shape_witness :
  parseAdi2 "Sunstream.acme/Docs/Read.Me"
  = Some {| url := "acc://sunstream.acme/docs/read.me";
            path := "sunstream.acme/docs/read.me";
            name := "sunstream";
            rootUrl := "acc://sunstream.acme";
            subPath := "docs/read" |}
  /\ contains_char "." "docs/read" = false.
Proof.
  split; [reflexivity|].
  apply (parseAdi2_record_shape "Sunstream.acme/Docs/Read.Me"
           {| url := "acc://sunstream.acme/docs/read.me";
              path := "sunstream.acme/docs/read.me";
              name := "sunstream";
              rootUrl := "acc://sunstream.acme";
              subPath := "docs/read" |}).
  reflexivity.
Defined.

(** X4.  Parsing again the [url] of a parsed record gives the same record,
    provided the input was more than slashes (so that [fixAdiUrl] left
    something of it). *)
Theorem parseAdi2_reparse (x : string) (p : adi) :
  parseAdi2 x = Some p ->
  fixAdiUrl x <> "" ->
  parseAdi2 (url p) = Some p.
Proof.
  intros H Hf. destruct (parseAdi2_Some x p H) as [_ ->]. cbn [url record_of].
  pose proof (locator_of_scheme x) as Hs.
  assert (Hu : exists t, locator_of x = String "a" t).
  { rewrite (startsWith_split _ _ Hs). eexists. reflexivity. }
  assert (Hfix : fixAdiUrl (locator_of x) = locator_of x).
  { unfold fixAdiUrl. destruct Hu as [t Hu]. rewrite Hu at 1. cbn [isEmpty].
    rewrite locator_of_lower. unfold locator_of.
    destruct (startsWith "acc://" (fixAdiUrl x)); [apply fixAdiUrl_strip|].
    rewrite stripTrailingSlashes_app; rewrite fixAdiUrl_strip; [reflexivity | exact Hf]. }
  assert (Hl : locator_of (locator_of x) = locator_of x).
  { unfold locator_of at 1. now rewrite Hfix, Hs. }
  rewrite parseAdi2_accepts; [now rewrite Hl|].
  destruct Hu as [t ->]. reflexivity.
Qed.

Lemma parseAdi2_reparse_witness :
  fixAdiUrl "Sunstream.acme/Docs//" <> ""
  /\ parseAdi2 "acc://sunstream.acme/docs"
     = parseAdi2 "Sunstream.acme/Docs//".
Proof.
  split; [discriminate|].
  transitivity (Some {| url := "acc://sunstream.acme/docs";
                        path := "sunstream.acme/docs";
                        name := "sunstream";
                        rootUrl := "acc://sunstream.acme";
                        subPath := "docs" |}); [|reflexivity].
  apply (parseAdi2_reparse "Sunstream.acme/Docs//"
           {| url := "acc://sunstream.acme/docs";
              path := "sunstream.acme/docs";
              name := "sunstream";
              rootUrl := "acc://sunstream.acme";
              subPath := "docs" |}); [reflexivity | discriminate].
Defined.

(** An input of slashes only is accepted, and its record does not parse to
    itself: the precondition of the round trip is needed. *)
Example parseAdi2_slashes_only :
  parseAdi2 "//" = Some {| url := "acc://"; path := ""; name := "";
                           rootUrl := "acc://.acme"; subPath := "" |}
  /\ parseAdi2 "acc://"
     = Some {| url := "acc://acc:"; path := "acc:"; name := "acc:";
               rootUrl := "acc://acc:.acme"; subPath := "" |}.
Proof. split; reflexivity. Qed.

(** X5.  [getLastSegment] returns a piece without a slash that ends the
    input: it is the whole input when the input has no slash, and otherwise
    what follows the last slash (nothing, when the input ends with one). *)
Theorem getLastSegment_suffix (s : string) :
  contains_char "/" (getLastSegment s) = false
  /\ (contains_char "/" s = false -> getLastSegment s = s)
  /\ (contains_char "/" s = true ->
      exists front, s = front +:+ "/" +:+ getLastSegment s).
Proof.
  unfold getLastSegment. destruct (isEmpty s) eqn:E.
  { apply isEmpty_true in E. subst. repeat split; discriminate. }
  pose proof (split_pieces "/" s) as Hp.
  pose proof (join_split "/" s) as Hj.
  pose proof (split_nonempty "/" s) as Hne.
  assert (Hlast : contains_char "/" (List.last (split "/" s) EmptyString) = false).
  { revert Hp Hne. generalize (split "/" s) as l.
    induction l as [|h [|h' t] IH]; intros Hp Hne; [congruence| |].
    - now inversion Hp.
    - inversion Hp; subst. apply IH; [assumption | discriminate]. }
  split; [exact Hlast|].
  destruct (join_last "/" (split "/" s) Hne) as [Hl | [front Hl]]; rewrite Hj in Hl.
  - split; [now intros _|]. intros Hc. rewrite Hl in Hc at 1. congruence.
  - split; [|intros _; now exists front].
    intros Hc. rewrite Hl in Hc at 1.
    rewrite contains_char_app in Hc. cbn in Hc. now rewrite orb_true_r in Hc.
Qed.

Lemma getLastSegment_suffix_witness :
  contains_char "/" "acc://sunstream.acme/docs/readme" = true
  /\ getLastSegment "acc://sunstream.acme/docs/readme" = "readme"
  /\ exists front,
       "acc://sunstream.acme/docs/readme"
       = front +:+ "/" +:+ getLastSegment "acc://sunstream.acme/docs/readme".
Proof.
  split; [reflexivity|]. split; [reflexivity|].
  apply (getLastSegment_suffix "acc://sunstream.acme/docs/readme"). reflexivity.
Defined.

End ParserFacts.

(** ** More on the factory and the URL builders *)

Module FactoryFacts.
Import Vocabulary.
Import JsString JsStringFacts JsStringMore ParserFacts Spec.

Lemma span_name_spec (s n after : string) :
  OpIdInfoFactory.span_name s = (n, after) ->
  s = n +:+ after /\ contains_char "/" n = false /\ contains_char "." n = false.
Proof.
  revert n after; induction s as [|c r IH]; intros n after; cbn [OpIdInfoFactory.span_name].
  - intros [= <- <-]. now repeat split.
  - destruct (OpIdInfoFactory.name_char c) eqn:Ec.
    + destruct (OpIdInfoFactory.span_name r) as [n' rest]. intros [= <- <-].
      destruct (IH n' rest eq_refl) as (-> & Hs & Hd).
      unfold OpIdInfoFactory.name_char in Ec.
      apply andb_prop in Ec as [Es Ed]. apply negb_true_iff in Es, Ed.
      cbn [contains_char]. rewrite Es, Ed, Hs, Hd. now repeat split.
    + intros [= <- <-]. now repeat split.
Qed.

Lemma match_identity_Some (y n : string) (g : option string) :
  OpIdInfoFactory.match_identity y = Some (n, g) ->
  y = "acc://" +:+ n +:+ ".acme" +:+ tail_of g
  /\ n <> "" /\ contains_char "/" n = false /\ contains_char "." n = false.
Proof.
  unfold OpIdInfoFactory.match_identity.
  destruct (startsWith "acc://" y) eqn:Hs; [|discriminate].
  destruct (OpIdInfoFactory.span_name (substring 6 y)) as [n' after] eqn:Hspan.
  destruct (isEmpty n') eqn:Hn; [discriminate|].
  destruct (startsWith ".acme" after) eqn:Ha; [|discriminate].
  apply span_name_spec in Hspan as (Hy & Hsl & Hd).
  apply startsWith_split in Hs, Ha. cbn [String.length] in Hs, Ha.
  assert (Hshape : forall g', substring 5 after = tail_of g' ->
             y = "acc://" +:+ n' +:+ ".acme" +:+ tail_of g').
  { intros g' Hg. rewrite Hs at 1. rewrite Hy. rewrite Ha at 1. now rewrite Hg. }
  destruct (substring 5 after) as [|c tail] eqn:Et.
  - intros [= <- <-]. split; [now apply (Hshape None)|].
    repeat split; try assumption. now apply isEmpty_false.
  - destruct (Ascii.eqb c "/" && negb (OpIdInfoFactory.has_line_terminator tail)) eqn:Ec;
      [|discriminate].
    apply andb_prop in Ec as [Ec _]. apply Ascii.eqb_eq in Ec as ->.
    intros [= <- <-]. split; [now apply (Hshape (Some tail))|].
    repeat split; try assumption. now apply isEmpty_false.
Qed.

Lemma split_app_sep (sep : ascii) (n w : string) :
  contains_char sep n = false ->
  split sep (n +:+ String sep w) = n :: split sep w.
Proof.
  induction n as [|c r IH]; cbn [contains_char].
  - intros _. cbn [append split]. now rewrite Ascii.eqb_refl.
  - intros [Hc Hr]%orb_false_elim.
    change (String c r +:+ String sep w) with (String c (r +:+ String sep w)).
    cbn [split]. now rewrite Hc, (IH Hr).
Qed.

(** The locator a formatted and accepted identity is parsed from. *)
Lemma accepted_locator (n : string) (g : option string) :
  n <> "" -> contains_char "." n = false ->
  toLowerCase ("acc://" +:+ n +:+ ".acme" +:+ tail_of g)
  = "acc://" +:+ n +:+ ".acme" +:+ tail_of g ->
  exists w,
    AdiStringHelper.parseAdi2 ("acc://" +:+ n +:+ ".acme" +:+ tail_of g)
    = Some (record_of ("acc://" +:+ n +:+ String "." w)).
Proof.
  intros Hn Hd Hl. set (y := "acc://" +:+ n +:+ ".acme" +:+ tail_of g) in *.
  assert (Hstrip : exists w, stripTrailingSlashes (".acme" +:+ tail_of g) = String "." w).
  { change (".acme" +:+ tail_of g) with (String "." ("acme" +:+ tail_of g)).
    rewrite stripTrailingSlashes_cons.
    destruct (stripTrailingSlashes ("acme" +:+ tail_of g)); eexists; reflexivity. }
  destruct Hstrip as [w Hw]. exists w.
  rewrite parseAdi2_accepts by reflexivity. f_equal. f_equal.
  unfold locator_of, AdiStringHelper.fixAdiUrl.
  change (isEmpty y) with false. cbn iota. rewrite Hl.
  assert (Hs : stripTrailingSlashes y = "acc://" +:+ n +:+ String "." w).
  { unfold y. rewrite <- (append_assoc "acc://" n), stripTrailingSlashes_app;
      rewrite Hw; [now rewrite append_assoc | discriminate]. }
  rewrite Hs. reflexivity.
Qed.

Lemma record_of_name (n w : string) :
  contains_char "." n = false ->
  AdiStringHelper.name (record_of ("acc://" +:+ n +:+ String "." w)) = n.
Proof.
  intros Hd. unfold record_of. cbn [AdiStringHelper.name].
  change (substring 6 ("acc://" +:+ n +:+ String "." w)) with (n +:+ String "." w).
  now rewrite (split_app_sep "." n w Hd).
Qed.

(** What the factory builds when it accepts its input. *)
Lemma createByIdentityUrl_Some (ns : NetworkNameService.t) (x : string)
  (info : OpIdInfo.t) :
  OpIdInfoFactory.createByIdentityUrl ns x = Some info ->
  exists n g w,
    IdentityFormatter.formatIdentity x = "acc://" +:+ n +:+ ".acme" +:+ tail_of g
    /\ n <> "" /\ contains_char "/" n = false /\ contains_char "." n = false
    /\ info
       = {| OpIdInfo.identityTrain :=
              join "." (n :: filter (fun seg => negb (isEmpty seg))
                               (split "/" (match g with Some t => t | None => "" end)));
            OpIdInfo.identityName := n;
            OpIdInfo.identityUrl := IdentityFormatter.formatIdentity x;
            OpIdInfo.adiInfo :=
              Some (AdiUrlClass.createByUrl ns (IdentityFormatter.formatIdentity x)) |}
    /\ AdiStringHelper.parseAdi2 (IdentityFormatter.formatIdentity x)
       = Some (record_of ("acc://" +:+ n +:+ String "." w)).
Proof.
  unfold OpIdInfoFactory.createByIdentityUrl.
  destruct (OpIdInfoFactory.match_identity (IdentityFormatter.formatIdentity x))
    as [[n g]|] eqn:Hm; [|discriminate].
  intros [= <-].
  destruct (match_identity_Some _ n g Hm) as (Hy & Hn & Hs & Hd).
  assert (Hx : x <> "").
  { intros ->. cbn in Hy. discriminate. }
  pose proof (IdentityFormatterFacts.formatIdentity_canonical x Hx) as (Hl & _).
  rewrite Hy in Hl. destruct (accepted_locator n g Hn Hd Hl) as [w Hw].
  exists n, g, w. rewrite <- Hy in Hw. repeat split; try assumption.
Qed.

(** X6.  When the factory accepts an input, the identity it records is the
    formatted input, which starts with [acc://]; the identity name is not
    empty and holds neither slash nor dot; and the root name of the URL
    object it creates is that same identity name. *)
Theorem factory_names_agree (ns : NetworkNameService.t) (x : string)
  (info : OpIdInfo.t) :
  OpIdInfoFactory.createByIdentityUrl ns x = Some info ->
  OpIdInfo.identityUrl info = IdentityFormatter.formatIdentity x
  /\ startsWith "acc://" (OpIdInfo.identityUrl info) = true
  /\ OpIdInfo.identityName info <> ""
  /\ contains_char "/" (OpIdInfo.identityName info) = false
  /\ contains_char "." (OpIdInfo.identityName info) = false
  /\ exists a, OpIdInfo.adiInfo info = Some a
               /\ AdiUrlClass.name a = Some (OpIdInfo.identityName info)
               /\ AdiUrlClass.networkName a = NetworkNameService.currentNetworkName ns.
Proof.
  intros H. destruct (createByIdentityUrl_Some ns x info H)
    as (n & g & w & Hy & Hn & Hs & Hd & -> & Hp).
  cbn [OpIdInfo.identityUrl OpIdInfo.identityName OpIdInfo.adiInfo].
  split; [reflexivity|]. split; [rewrite Hy; apply startsWith_app_self|].
  repeat (split; [assumption|]).
  eexists. split; [reflexivity|].
  unfold AdiUrlClass.createByUrl, AdiUrlClass.init_ByAdiUrl. rewrite Hp.
  cbn [AdiUrlClass.name AdiUrlClass.networkName AdiUrlClass.new AdiUrlClass._calc_Server].
  now rewrite (record_of_name n w Hd).
Qed.

Lemma factory_names_agree_witness :
  OpIdInfoFactory.createByIdentityUrl NetworkNameService.new "SunStream.acme/Docs"
  <> None
  /\ exists info a,
       OpIdInfoFactory.createByIdentityUrl NetworkNameService.new "SunStream.acme/Docs"
       = Some info
       /\ OpIdInfo.adiInfo info = Some a
       /\ AdiUrlClass.name a = Some (OpIdInfo.identityName info).
Proof.
  split; [discriminate|].
  destruct (OpIdInfoFactory.createByIdentityUrl NetworkNameService.new
              "SunStream.acme/Docs") as [info|] eqn:E; [|discriminate].
  destruct (factory_names_agree NetworkNameService.new "SunStream.acme/Docs" info E)
    as (_ & _ & _ & _ & _ & a & Ha & Hn & _).
  exists info, a. repeat split; assumption.
Defined.

(** X7.  The two URL builders go together: both return [null] exactly
    when the factory rejects the input, and otherwise they return
    [https://<identityName>.BankOnLedger.com/<subPath>?current-network=<network>]
    and the same with [Qoboto.com], for one sub-path that holds no dot. *)
Theorem builders_agree (ns : NetworkNameService.t) (x : string) :
  match OpIdInfoFactory.createByIdentityUrl ns x with
  | None =>
      AdiParse.getBankOnLedgerUrl ns x = None /\ AdiParse.getQobotoUrl ns x = None
  | Some info =>
      exists sub,
        contains_char "." sub = false
        /\ AdiParse.getBankOnLedgerUrl ns x
           = Some ("https://" +:+ OpIdInfo.identityName info +:+ ".BankOnLedger.com/"
                     +:+ sub +:+ "?current-network="
                     +:+ NetworkNameService.currentNetworkName ns)
        /\ AdiParse.getQobotoUrl ns x
           = Some ("https://" +:+ OpIdInfo.identityName info +:+ ".Qoboto.com/"
                     +:+ sub +:+ "?current-network="
                     +:+ NetworkNameService.currentNetworkName ns)
  end.
Proof.
  destruct (OpIdInfoFactory.createByIdentityUrl ns x) as [info|] eqn:E.
  - destruct (createByIdentityUrl_Some ns x info E)
      as (n & g & w & Hy & Hn & Hs & Hd & Hinfo & Hp).
    exists (AdiStringHelper.subPath (record_of ("acc://" +:+ n +:+ String "." w))).
    split; [apply record_of_subPath_no_dot|].
    unfold AdiParse.getBankOnLedgerUrl, AdiParse.getQobotoUrl,
      OpIdResourceFactory.createByIdentityUrl. rewrite E, Hinfo.
    cbn [OpIdResource.opIdInfo OpIdResource.new OpIdInfo.adiInfo OpIdInfo.identityName].
    unfold AdiUrlClass.bankOnLedger_Url, AdiUrlClass.qoboto_Url,
      AdiUrlClass.calculate_app_Url, AdiUrlClass.createByUrl, AdiUrlClass.init_ByAdiUrl.
    rewrite Hp.
    cbn [fst AdiUrlClass._calc_Server AdiUrlClass.name AdiUrlClass.pathEnd
         AdiUrlClass.networkName str].
    rewrite (record_of_name n w Hd).
    split; f_equal; cbn; now rewrite !append_assoc.
  - unfold AdiParse.getBankOnLedgerUrl, AdiParse.getQobotoUrl,
      OpIdResourceFactory.createByIdentityUrl. now rewrite E.
Qed.

Lemma join_prefix (sep p : string) (l : list string) :
  exists rest, join sep (p :: l) = p +:+ rest.
Proof.
  destruct l as [|q t]; [exists EmptyString; now rewrite append_nil_r|].
  eexists. reflexivity.
Qed.

Lemma join_no_char (c : ascii) (sep : string) (l : list string) :
  contains_char c sep = false ->
  Forall (fun seg => contains_char c seg = false) l ->
  contains_char c (join sep l) = false.
Proof.
  intros Hsep. induction 1 as [|p l Hp Hl IH]; [reflexivity|].
  destruct l as [|q t]; [exact Hp|].
  change (join sep (p :: q :: t)) with (p +:+ sep +:+ join sep (q :: t)).
  now rewrite !contains_char_app, Hp, Hsep, IH.
Qed.

(** X8.  The identity train of an accepted input starts with the identity
    name, holds no slash, and is the identity name alone when the formatted
    input has nothing behind [.acme]. *)
Theorem identityTrain_flat (ns : NetworkNameService.t) (x : string)
  (info : OpIdInfo.t) :
  OpIdInfoFactory.createByIdentityUrl ns x = Some info ->
  (exists rest, OpIdInfo.identityTrain info = OpIdInfo.identityName info +:+ rest)
  /\ contains_char "/" (OpIdInfo.identityTrain info) = false
  /\ (OpIdInfo.identityUrl info = "acc://" +:+ OpIdInfo.identityName info +:+ ".acme" ->
      OpIdInfo.identityTrain info = OpIdInfo.identityName info).
Proof.
  intros H. destruct (createByIdentityUrl_Some ns x info H)
    as (n & g & w & Hy & Hn & Hs & Hd & -> & Hp).
  cbn [OpIdInfo.identityTrain OpIdInfo.identityName OpIdInfo.identityUrl].
  split; [apply join_prefix|]. split.
  - apply join_no_char; [reflexivity|]. constructor; [exact Hs|].
    apply Forall_forall. intros seg [_ Hin]%list_elem_of_filter.
    pose proof (split_pieces "/" (match g with Some t => t | None => "" end)) as Hpieces.
    rewrite Forall_forall in Hpieces. now apply Hpieces.
  - rewrite Hy. intros Heq.
    assert (Hg : g = None).
    { destruct g as [t|]; [|reflexivity]. exfalso.
      apply (f_equal String.length) in Heq.
      rewrite !length_app in Heq. cbn in Heq. lia. }
    subst g. reflexivity.
Qed.

Lemma identityTrain_flat_witness :
  exists info,
    OpIdInfoFactory.createByIdentityUrl NetworkNameService.new "sunstream.acme/a//b/"
    = Some info
    /\ OpIdInfo.identityTrain info = "sunstream.a.b"
    /\ contains_char "/" (OpIdInfo.identityTrain info) = false.
Proof.
  destruct (OpIdInfoFactory.createByIdentityUrl NetworkNameService.new
              "sunstream.acme/a//b/") as [info|] eqn:E; [|discriminate].
  exists info. split; [reflexivity|].
  split; [now injection E as <-|].
  apply (identityTrain_flat NetworkNameService.new "sunstream.acme/a//b/" info E).
Defined.

End FactoryFacts.

(** ** More on the data client *)

Module ServiceFacts.
Import Vocabulary.
Import JsString JsStringFacts QobotoApiService Spec SectionFacts CacheFacts.

Lemma cacheKey_inj (u u' : string) : "qoboto_" +:+ u = "qoboto_" +:+ u' -> u = u'.
Proof. cbn. now intros [= ->]. Qed.

Lemma cache_get_hit (now : Z) (k : string) (c : gmap string CacheEntry) (d : value) :
  fst (cache_get now k c) = Some d ->
  cache_get now k c = (Some d, c)
  /\ exists entry, c !! k = Some entry /\ data entry = d
                   /\ (now - timestamp entry < cacheTimeout)%Z.
Proof.
  unfold cache_get. destruct (c !! k) as [entry|]; [|discriminate].
  destruct (_ <? _)%Z eqn:E; [|discriminate]. cbn. intros [= <-].
  split; [reflexivity|]. exists entry. repeat split. now apply Z.ltb_lt.
Qed.

Lemma cache_get_miss (now : Z) (k : string) (c : gmap string CacheEntry) :
  fst (cache_get now k c) = None -> snd (cache_get now k c) !! k = None.
Proof.
  unfold cache_get. destruct (c !! k) as [entry|] eqn:Ek; [|now intros _].
  destruct (_ <? _)%Z; [discriminate|]. intros _. apply lookup_delete_eq.
Qed.

Lemma cache_get_sub (now : Z) (k k' : string) (c : gmap string CacheEntry)
  (entry : CacheEntry) :
  snd (cache_get now k c) !! k' = Some entry -> c !! k' = Some entry.
Proof.
  unfold cache_get. destruct (c !! k) as [cached|]; [|easy].
  destruct (_ <? _)%Z; [easy|]. cbn [snd]. now intros [_ ?]%lookup_delete_Some.
Qed.

(** The two outcomes of a call that misses the cache: [null] with nothing
    stored, or a truthy section stored under the key of the call. *)
Lemma getIdentityData_miss `{Host} (e : env) (u : string) (svc : QobotoApiService.t) :
  fst (cache_get (now_check e) ("qoboto_" +:+ u) (cache svc)) = None ->
  let asked :=
    with_request (apiUrl svc u)
      (with_cache (snd (cache_get (now_check e) ("qoboto_" +:+ u) (cache svc))) svc) in
  getIdentityData e u svc = (VNull, asked)
  \/ exists d, truthy d = true
               /\ (exists v, _findMainSection v = Return d)
               /\ getIdentityData e u svc
                  = (d, with_cache
                          (cache_set (now_store e) ("qoboto_" +:+ u) d (cache asked))
                          asked).
Proof.
  intros Hmiss. unfold getIdentityData, apiUrl.
  destruct (cache_get _ _ _) as [[d|] c]; [discriminate|]. cbn [snd].
  destruct (response e) as [|[] [text|]]; try now left.
  destruct (JSON_parse text) as [v|]; [|now left].
  destruct (match v with VStr s => JSON_parse s | _ => Some v end) as [v'|]; [|now left].
  destruct (_findMainSection v') as [d|] eqn:Ef; [|now left].
  destruct (truthy d) eqn:Et; [|now left].
  right. exists d. split; [exact Et|]. split; [now exists v'|]. reflexivity.
Qed.

Lemma getIdentityData_hit `{Host} (e : env) (u : string) (svc : QobotoApiService.t)
  (d : value) :
  fst (cache_get (now_check e) ("qoboto_" +:+ u) (cache svc)) = Some d ->
  getIdentityData e u svc = (d, svc).
Proof.
  intros E. unfold getIdentityData.
  destruct (cache_get _ _ _) as [[d'|] c]; [|discriminate].
  cbn in E. now injection E as ->.
Qed.

Lemma find_main_Some (items : list value) (x : value) :
  find_main items = Return (Some x) -> is_main x = true.
Proof.
  induction items as [|y items IH]; cbn [find_main]; [discriminate|].
  destruct (toString_throws _); [discriminate|].
  destruct (is_main y) eqn:E; [now intros [= <-] | exact IH].
Qed.

(** What [_findMainSection] selects is [null] or a plain object. *)
Lemma findMainSection_object (v d : value) :
  _findMainSection v = Return d -> d = VNull \/ exists o, d = VObj o.
Proof.
  destruct v as [| | | | |items|o]; cbn [_findMainSection];
    try (intros [= <-]; now left).
  - destruct (find_main items) as [[x|]|] eqn:E; [| |discriminate].
    + intros [= <-]. apply find_main_Some, is_main_named in E as (o & -> & _).
      right. now exists o.
    + destruct (_ && _); [discriminate|]. intros [= <-]. now left.
  - intros [= <-]. right. now exists o.
Qed.

(** X9.  One call of [getIdentityData] calls [fetch] at most once: not at
    all on a cache hit, which returns the cached section and leaves the
    data client as it is; exactly once on a miss, for the URL made of the
    base URL, the path of the API and the encoded locator.  The base URL
    and the two mode flags are never written. *)
Theorem one_fetch_per_call `{Host} (e : env) (u : string) (svc : QobotoApiService.t) :
  match fst (cache_get (now_check e) ("qoboto_" +:+ u) (cache svc)) with
  | Some d => getIdentityData e u svc = (d, svc)
  | None =>
      requests (snd (getIdentityData e u svc))
      = requests svc
          ++ [baseUrl svc +:+ "/api/v1/Qoboto/GetDataValue/All?DataAccountUrl="
                +:+ encodeURIComponent u]
  end
  /\ baseUrl (snd (getIdentityData e u svc)) = baseUrl svc
  /\ debugMode (snd (getIdentityData e u svc)) = debugMode svc
  /\ developmentMode (snd (getIdentityData e u svc)) = developmentMode svc.
Proof.
  destruct (fst (cache_get (now_check e) ("qoboto_" +:+ u) (cache svc))) as [d|] eqn:E.
  - rewrite (getIdentityData_hit e u svc d E). now repeat split.
  - destruct (getIdentityData_miss e u svc E) as [-> | (d & _ & _ & ->)];
      now repeat split.
Qed.

(** X10.  A call of [getIdentityData] for one locator leaves the cache
    entries of every other locator as they are. *)
Theorem other_locators_untouched `{Host} (e : env) (u u' : string)
  (svc : QobotoApiService.t) :
  u' <> u ->
  cache (snd (getIdentityData e u svc)) !! ("qoboto_" +:+ u')
  = cache svc !! ("qoboto_" +:+ u').
Proof.
  intros Hne.
  assert (Hk : "qoboto_" +:+ u' <> "qoboto_" +:+ u)
    by (intros E%cacheKey_inj; contradiction).
  destruct (getIdentityData_cache e u svc) as [-> | [d ->]].
  - now apply cache_get_other.
  - unfold cache_set. rewrite lookup_insert_ne by congruence.
    now apply cache_get_other.
Qed.

Lemma other_locators_untouched_witness :
  let H := canned_host [("sections", sections)] in
  "other.acme" <> "sunstream.acme"
  /\ cache (snd (getIdentityData (answers "sections") "other.acme" warm))
       !! "qoboto_sunstream.acme"
     = cache warm !! "qoboto_sunstream.acme".
Proof.
  intros H. split; [discriminate|].
  apply (@other_locators_untouched H (answers "sections") "other.acme"
           "sunstream.acme" warm).
  discriminate.
Defined.

Lemma getIdentityData_objects `{Host} (e : env) (u : string)
  (svc : QobotoApiService.t) :
  objects_only (cache svc) -> objects_only (cache (snd (getIdentityData e u svc))).
Proof.
  intros Hinv k entry.
  destruct (fst (cache_get (now_check e) ("qoboto_" +:+ u) (cache svc))) as [d|] eqn:E.
  - rewrite (getIdentityData_hit e u svc d E). apply Hinv.
  - destruct (getIdentityData_miss e u svc E) as [-> | (d & Ht & [v Hv] & ->)];
      cbn [snd cache with_cache with_request].
    + intros Hk%cache_get_sub. now apply (Hinv k).
    + unfold cache_set. destruct (decide ("qoboto_" +:+ u = k)) as [<-|Hne].
      * rewrite lookup_insert_eq. intros [= <-]. cbn [data].
        destruct (findMainSection_object v d Hv) as [-> | Ho]; [discriminate | exact Ho].
      * rewrite lookup_insert_ne by exact Hne.
        intros Hk%cache_get_sub. now apply (Hinv k).
Qed.

Lemma clearCache_objects (o : option string) (svc : QobotoApiService.t) :
  objects_only (cache svc) -> objects_only (cache (clearCache o svc)).
Proof.
  intros Hinv k entry. unfold clearCache.
  destruct o as [u|]; [destruct (isEmpty u)|]; cbn [cache with_cache].
  - now rewrite lookup_empty.
  - intros [_ Hk]%lookup_delete_Some. now apply (Hinv k).
  - now rewrite lookup_empty.
Qed.

Lemma run_service_objects `{Host} (c : service_call) (svc : QobotoApiService.t) :
  objects_only (cache svc) -> objects_only (cache (run_service c svc)).
Proof.
  intros Hinv. destruct c as [e u|f e u|e u|d e u|o|b|b|b]; cbn [run_service].
  - now apply getIdentityData_objects.
  - rewrite client_state. now apply getIdentityData_objects.
  - rewrite getAllMainData_state. now apply getIdentityData_objects.
  - unfold getIdentityDataWithMock. destruct (developmentMode svc); [exact Hinv|].
    now apply getIdentityData_objects.
  - now apply clearCache_objects.
  - exact Hinv.
  - exact Hinv.
  - exact Hinv.
Qed.

(** X11.  Starting from a new data client, after any calls on it, every
    cache entry holds a plain object, and so [getIdentityData] returns a
    plain object or [null], never another kind of value. *)
Theorem cache_holds_objects `{Host} (calls : list service_call) (e : env) (u : string) :
  let svc := run_services calls QobotoApiService.new in
  objects_only (cache svc)
  /\ (fst (getIdentityData e u svc) = VNull
      \/ exists o, fst (getIdentityData e u svc) = VObj o).
Proof.
  assert (Hinv : forall svc0, objects_only (cache svc0) ->
                   objects_only (cache (run_services calls svc0))).
  { induction calls as [|c calls IH]; intros svc0 H0; [exact H0|].
    apply IH. now apply run_service_objects. }
  assert (Hnew : objects_only (cache (run_services calls QobotoApiService.new))).
  { apply Hinv. intros k entry. cbn. now rewrite lookup_empty. }
  cbn zeta. split; [exact Hnew|].
  set (svc := run_services calls QobotoApiService.new) in *.
  destruct (fst (cache_get (now_check e) ("qoboto_" +:+ u) (cache svc))) as [d|] eqn:E.
  - destruct (cache_get_hit _ _ _ _ E) as (_ & entry & Hk & Hd & _).
    destruct (Hnew _ _ Hk) as [o Ho]. right. exists o.
    rewrite (getIdentityData_hit e u svc d E). cbn [fst]. congruence.
  - destruct (getIdentityData_miss e u svc E) as [-> | (d & Ht & [v Hv] & ->)];
      [now left|].
    destruct (findMainSection_object v d Hv) as [-> | Ho]; [discriminate | now right].
Qed.

(** X12.  A section fetched on a cache miss is served from the cache by a
    later call for the same locator as long as the clock of that call is
    less than five minutes past the clock at which it was stored: the same
    section comes back, whatever the world would answer, and the data
    client, its log of requests included, stays as it is. *)
Theorem fetched_then_cached `{Host} (e e' : env) (u : string)
  (svc : QobotoApiService.t) :
  fst (cache_get (now_check e) ("qoboto_" +:+ u) (cache svc)) = None ->
  fst (getIdentityData e u svc) <> VNull ->
  (now_check e' - now_store e < 5 * 60 * 1000)%Z ->
  let '(d, svc1) := getIdentityData e u svc in
  getIdentityData e' u svc1 = (d, svc1).
Proof.
  intros Hmiss Hd Hage.
  destruct (getIdentityData_miss e u svc Hmiss) as [E | (d & Ht & _ & E)];
    rewrite E in Hd |- *; [now destruct Hd|].
  apply getIdentityData_hit. cbn [cache with_cache with_request].
  unfold cache_set.
  rewrite (cache_get_fresh _ _ _ {| data := d; timestamp := now_store e |});
    [reflexivity | apply lookup_insert_eq | exact Hage].
Qed.

Lemma fetched_then_cached_witness :
  let H := canned_host [("sections", sections)] in
  let later := {| now_check := 301004; response := FetchRejects; now_store := 301004 |} in
  fst (cache_get 1000 "qoboto_sunstream.acme" (cache qobotoApiService)) = None
  /\ let '(d, svc1) := getIdentityData (answers "sections") "sunstream.acme"
                         qobotoApiService in
     getIdentityData later "sunstream.acme" svc1 = (d, svc1).
Proof.
  intros H later. split; [reflexivity|].
  apply (@fetched_then_cached H (answers "sections") later "sunstream.acme"
           qobotoApiService); [reflexivity | discriminate | reflexivity].
Defined.

(** X13.  Failures are not cached: when a call misses the cache and ends
    in [null] (the fetch threw, the status was not a success, the body did
    not parse, no section was selected), the store has no entry for the
    locator afterwards, and the next call for it calls [fetch] again,
    whatever its clock. *)
Theorem failure_not_cached `{Host} (e e' : env) (u : string)
  (svc : QobotoApiService.t) :
  fst (cache_get (now_check e) ("qoboto_" +:+ u) (cache svc)) = None ->
  fst (getIdentityData e u svc) = VNull ->
  let svc1 := snd (getIdentityData e u svc) in
  cache svc1 !! ("qoboto_" +:+ u) = None
  /\ requests (snd (getIdentityData e' u svc1))
     = requests svc
         ++ [baseUrl svc +:+ "/api/v1/Qoboto/GetDataValue/All?DataAccountUrl="
               +:+ encodeURIComponent u;
             baseUrl svc +:+ "/api/v1/Qoboto/GetDataValue/All?DataAccountUrl="
               +:+ encodeURIComponent u].
Proof.
  intros Hmiss Hnull.
  destruct (getIdentityData_miss e u svc Hmiss) as [E | (d & Ht & _ & E)];
    rewrite E in Hnull |- *; cbn [fst snd] in *; [|subst d; discriminate].
  assert (Hgone : cache (with_request (apiUrl svc u)
                           (with_cache
                              (snd (cache_get (now_check e) ("qoboto_" +:+ u) (cache svc)))
                              svc))
                    !! ("qoboto_" +:+ u) = None)
    by (cbn [cache with_cache with_request]; now apply cache_get_miss).
  split; [exact Hgone|].
  set (svc1 := with_request _ _) in *.
  assert (Hmiss' : fst (cache_get (now_check e') ("qoboto_" +:+ u) (cache svc1)) = None).
  { unfold cache_get. now rewrite Hgone. }
  destruct (getIdentityData_miss e' u svc1 Hmiss') as [-> | (d & _ & _ & ->)];
    cbn [snd requests with_cache with_request]; unfold svc1, apiUrl;
    cbn [requests baseUrl with_cache with_request]; now rewrite <- app_assoc.
Qed.

Lemma failure_not_cached_witness :
  let H := canned_host [] in
  fst (cache_get 1000 "qoboto_sunstream.acme" (cache qobotoApiService)) = None
  /\ fst (getIdentityData offline "sunstream.acme" qobotoApiService) = VNull
  /\ length (requests
               (snd (getIdentityData offline "sunstream.acme"
                       (snd (getIdentityData offline "sunstream.acme"
                               qobotoApiService))))) = 2.
Proof.
  intros H. split; [reflexivity|]. split; [reflexivity|].
  destruct (@failure_not_cached H offline offline "sunstream.acme" qobotoApiService
              eq_refl eq_refl) as [_ ->].
  reflexivity.
Defined.

(** X14.  A body that is JSON text of a string which is itself JSON text
    (a double-encoded response) is handled like the inner text sent
    directly, as long as the inner text does not parse to a string again. *)
Theorem double_encoded_response `{Host} (outer inner : string) (v : value)
  (now1 now2 : Z) (u : string) (svc : QobotoApiService.t) :
  JSON_parse outer = Some (VStr inner) ->
  JSON_parse inner = Some v ->
  (forall s, v <> VStr s) ->
  getIdentityData
    {| now_check := now1; response := Response true (Some outer); now_store := now2 |}
    u svc
  = getIdentityData
      {| now_check := now1; response := Response true (Some inner); now_store := now2 |}
      u svc.
Proof.
  intros Ho Hi Hv. unfold getIdentityData. cbn [now_check response now_store].
  destruct (cache_get _ _ _) as [[d|] c]; [reflexivity|].
  rewrite Ho, Hi.
  replace (match v with VStr s => JSON_parse s | _ => Some v end) with (Some v)
    by (destruct v; try reflexivity; now destruct (Hv s)).
  reflexivity.
Qed.

Lemma double_encoded_response_witness :
  let H := canned_host [("outer", VStr "inner"); ("inner", sections)] in
  JSON_parse "outer" = Some (VStr "inner")
  /\ fst (getIdentityData
            {| now_check := 0; response := Response true (Some "outer"); now_store := 0 |}
            "sunstream.acme" qobotoApiService)
     = fst (getIdentityData
              {| now_check := 0; response := Response true (Some "inner"); now_store := 0 |}
              "sunstream.acme" qobotoApiService).
Proof.
  intros H. split; [reflexivity|].
  assert (Hv : forall s, sections <> VStr s) by discriminate.
  exact (f_equal fst
           (@double_encoded_response H "outer" "inner" sections 0%Z 0%Z
              "sunstream.acme" qobotoApiService eq_refl eq_refl Hv)).
Defined.

(** A text that parses to a string three levels deep selects nothing. *)
Example triple_encoded_response :
  let H := canned_host [("a", VStr "b"); ("b", VStr "c"); ("c", sections)] in
  fst (getIdentityData
         {| now_check := 0; response := Response true (Some "a"); now_store := 0 |}
         "sunstream.acme" qobotoApiService) = VNull.
Proof. reflexivity. Qed.

(** X15.  After [clearCache] for a locator, or for all of them, the next
    [getIdentityData] for that locator calls [fetch], even if a fresh entry
    was cached before; [clearCache] itself fetches nothing. *)
Theorem clearCache_forces_fetch `{Host} (e : env) (u : string)
  (svc : QobotoApiService.t) (all : bool) :
  let svc1 := clearCache (if all then None else Some u) svc in
  requests svc1 = requests svc
  /\ cache svc1 !! ("qoboto_" +:+ u) = None
  /\ requests (snd (getIdentityData e u svc1))
     = requests svc
         ++ [baseUrl svc +:+ "/api/v1/Qoboto/GetDataValue/All?DataAccountUrl="
               +:+ encodeURIComponent u].
Proof.
  cbn zeta. set (svc1 := clearCache _ svc).
  assert (Hr : requests svc1 = requests svc /\ baseUrl svc1 = baseUrl svc).
  { unfold svc1, clearCache. destruct all; [now split|].
    destruct (isEmpty u); now split. }
  assert (Hgone : cache svc1 !! ("qoboto_" +:+ u) = None).
  { unfold svc1, clearCache. destruct all; [apply lookup_empty|].
    destruct (isEmpty u); cbn [cache with_cache];
      [apply lookup_empty | apply lookup_delete_eq]. }
  destruct Hr as [Hr Hb]. split; [exact Hr|]. split; [exact Hgone|].
  assert (Hmiss : fst (cache_get (now_check e) ("qoboto_" +:+ u) (cache svc1)) = None).
  { unfold cache_get. now rewrite Hgone. }
  destruct (getIdentityData_miss e u svc1 Hmiss) as [-> | (d & _ & _ & ->)];
    cbn [snd requests with_cache with_request]; unfold apiUrl; now rewrite Hr, Hb.
Qed.

(** X16.  The combined [getAllMainData] of the data client agrees with the
    three single getters on the same answers of the world: it leaves the
    data client in the same state, each of its fields is the value the
    getter of the field returns, and where that getter throws (on a value
    it cannot put in its debug message) the combined call does not throw
    and returns the value, which is truthy. *)
Theorem getAllMainData_agrees `{Host} (f : field) (e : env) (u : string)
  (svc : QobotoApiService.t) :
  snd (getAllMainData e u svc) = snd (Field.client f e u svc)
  /\ match fst (Field.client f e u svc) with
     | Return v => Field.of_main_data f (fst (getAllMainData e u svc)) = v
     | Throw => truthy (Field.of_main_data f (fst (getAllMainData e u svc))) = true
     end.
Proof.
  split; [now rewrite getAllMainData_state, client_state|].
  destruct f; cbn [Field.client Field.of_main_data];
    [unfold getLogoUrl | unfold getSectionMain1Description
     | unfold getSectionMain1Background2ImageUrl];
    unfold getAllMainData; destruct (getIdentityData e u svc) as [d svc1];
    cbn [fst md_logoUrl md_sectionMain1Description md_sectionMain1Background2ImageUrl].
  - unfold orElse. destruct (truthy (getField d "logoUrl")) eqn:Et.
    + destruct (toString_throws _); [exact Et | reflexivity].
    + reflexivity.
  - unfold orElse. destruct (truthy (getField d "sectionMain1Description")) eqn:Et;
      [|reflexivity].
    rewrite Et. destruct (getField d "sectionMain1Description") as [| |b|x|s|items|o] eqn:Ev;
      cbn [_cleanText] in *; try reflexivity; try discriminate; try exact Et.
    now destruct (isEmpty s).
  - reflexivity.
Qed.

End ServiceFacts.

(** ** The response cache of the data client *)

Module CacheSemantics.
Import JsString QobotoApiService Spec Vocabulary CacheFacts ServiceFacts.

(** C3.  The response cache, in the helpers of the lookup and in
    [getIdentityData] itself.
    (1) For every key, store, value and instant, an entry stored and looked
    up at the same instant is returned.
    (2) [getIdentityData] stores what it fetched: after a call that missed
    the cache and returned a section, the store is the store after the
    lookup with that section written under the key of the locator at the
    clock of the store, and a later call whose clock is less than five
    minutes past that clock (the same instant, say) returns the section and
    changes nothing.
    (3) For an entry of key [k]: a lookup misses exactly when
    [now - timestamp >= 5 * 60 * 1000]; before that it returns the data and
    leaves the store as it is; from then on it removes the entry, after
    which a store under [k] creates a fresh entry that the next lookup
    returns; a lookup never touches another key.
    (4) For an entry cached for a locator: [getIdentityData] returns its data
    and changes nothing while the entry is fresh; once it is expired the
    call fetches (one request more) and the old entry is gone from the
    store, replaced by a fresh entry stamped with the clock of the store if
    a section came back, by nothing if [null] did.
    (5) No call on the data client removes an entry except an explicit clear
    or a lookup of its own key that finds it expired. *)
Theorem cache_expiry_semantics `{Host} :
  (forall (c : gmap string CacheEntry) (k : string) (v : value) (t : Z),
      cache_get t k (cache_set t k v c) = (Some v, cache_set t k v c))
  /\ (forall (svc : QobotoApiService.t) (u : string) (e e' : env),
        fst (cache_get (now_check e) ("qoboto_" +:+ u) (cache svc)) = None ->
        fst (getIdentityData e u svc) <> VNull ->
        let '(d, svc1) := getIdentityData e u svc in
        cache svc1
        = cache_set (now_store e) ("qoboto_" +:+ u) d
            (snd (cache_get (now_check e) ("qoboto_" +:+ u) (cache svc)))
        /\ cache svc1 !! ("qoboto_" +:+ u)
           = Some {| data := d; timestamp := now_store e |}
        /\ ((now_check e' - now_store e < 5 * 60 * 1000)%Z ->
            getIdentityData e' u svc1 = (d, svc1)))
  /\ (forall (c : gmap string CacheEntry) (k : string) (entry : CacheEntry)
             (now t : Z) (v : value),
        c !! k = Some entry ->
        (fst (cache_get now k c) = None <-> (now - timestamp entry >= 5 * 60 * 1000)%Z)
        /\ ((now - timestamp entry < 5 * 60 * 1000)%Z ->
            cache_get now k c = (Some (data entry), c))
        /\ ((now - timestamp entry >= 5 * 60 * 1000)%Z ->
            cache_get now k c = (None, delete k c)
            /\ delete k c !! k = None
            /\ cache_set t k v (delete k c) !! k = Some {| data := v; timestamp := t |}
            /\ fst (cache_get t k (cache_set t k v (delete k c))) = Some v)
        /\ (forall k', k' <> k -> snd (cache_get now k c) !! k' = c !! k'))
  /\ (forall (svc : QobotoApiService.t) (u : string) (entry : CacheEntry) (e : env),
        cache svc !! ("qoboto_" +:+ u) = Some entry ->
        ((now_check e - timestamp entry < 5 * 60 * 1000)%Z ->
         getIdentityData e u svc = (data entry, svc))
        /\ ((now_check e - timestamp entry >= 5 * 60 * 1000)%Z ->
            let '(d, svc1) := getIdentityData e u svc in
            requests svc1
            = requests svc
                ++ [baseUrl svc +:+ "/api/v1/Qoboto/GetDataValue/All?DataAccountUrl="
                      +:+ encodeURIComponent u]
            /\ (d = VNull \/ truthy d = true)
            /\ cache svc1
               = if truthy d
                 then <["qoboto_" +:+ u := {| data := d; timestamp := now_store e |}]>
                        (delete ("qoboto_" +:+ u) (cache svc))
                 else delete ("qoboto_" +:+ u) (cache svc)))
  /\ (forall (svc : QobotoApiService.t) (k : string) (entry : CacheEntry)
             (call : service_call),
        cache svc !! k = Some entry ->
        cache (run_service call svc) !! k = None ->
        (exists o, call = SClearCache o)
        \/ exists e u, looks_up call e u /\ k = "qoboto_" +:+ u
                       /\ (now_check e - timestamp entry >= 5 * 60 * 1000)%Z).
Proof.
  change (5 * 60 * 1000)%Z with cacheTimeout.
  split; [intros c k v t; apply cache_get_set|].
  split.
  { intros svc u e e' Hmiss Hd.
    destruct (getIdentityData_miss e u svc Hmiss) as [E | (d & Ht & _ & E)];
      rewrite E in Hd |- *; [now destruct Hd|].
    cbn [cache with_cache with_request].
    split; [reflexivity|]. split; [apply lookup_insert_eq|].
    intros Hage. apply getIdentityData_hit. cbn [cache with_cache with_request].
    unfold cache_set.
    rewrite (cache_get_fresh _ _ _ {| data := d; timestamp := now_store e |});
      [reflexivity | apply lookup_insert_eq | exact Hage]. }
  split.
  { intros c k entry now t v E.
    split.
    { destruct (Z_lt_ge_dec (now - timestamp entry) cacheTimeout) as [Hlt|Hge].
      - rewrite (cache_get_fresh _ _ _ _ E Hlt). cbn. split; [discriminate | lia].
      - now rewrite (cache_get_expired _ _ _ _ E Hge). }
    split; [now apply cache_get_fresh|].
    split.
    { intros Hge. split; [now apply (cache_get_expired _ _ _ entry)|].
      split; [apply lookup_delete_eq|].
      split; [apply lookup_insert_eq|]. now rewrite cache_get_set. }
    intros k' Hne. now apply cache_get_other. }
  split.
  { intros svc u entry e E. split.
    - intros Hlt. apply getIdentityData_hit.
      now rewrite (cache_get_fresh _ _ _ _ E Hlt).
    - intros Hge.
      pose proof (cache_get_expired _ _ _ _ E Hge) as Hget.
      assert (Hmiss : fst (cache_get (now_check e) ("qoboto_" +:+ u) (cache svc)) = None)
        by now rewrite Hget.
      destruct (getIdentityData_miss e u svc Hmiss) as [-> | (d & Ht & _ & ->)];
        rewrite Hget; cbn [cache requests with_cache with_request snd truthy];
        unfold apiUrl.
      + split; [reflexivity|]. split; [now left | reflexivity].
      + rewrite Ht. split; [reflexivity|]. split; [now right | reflexivity]. }
  intros svc k entry call. now apply removal_only_on_lookup_or_clear.
Qed.

(** On the store [warm], whose entry is stamped 1000: a call at 300999 is
    served from the cache, a call at 301000 fetches and replaces the entry,
    and the section it stored is served to a call at the clock of the
    store. *)
Lemma cache_expiry_semantics_witness :
  let H := canned_host [("sections", sections)] in
  let hit := {| now_check := 300999; response := FetchRejects; now_store := 300999 |} in
  let late := {| now_check := 301000; response := Response true (Some "sections");
                 now_store := 301005 |} in
  let again := {| now_check := 301005; response := FetchRejects; now_store := 301005 |} in
  cache warm !! "qoboto_sunstream.acme"
  = Some {| data := VObj {[ "name" := VStr "main"; "logoUrl" := VStr "L" ]};
            timestamp := 1000 |}
  /\ getIdentityData hit "sunstream.acme" warm
     = (VObj {[ "name" := VStr "main"; "logoUrl" := VStr "L" ]}, warm)
  /\ (let '(d, svc1) := getIdentityData late "sunstream.acme" warm in
      length (requests svc1) = 1
      /\ cache svc1 !! "qoboto_sunstream.acme"
         = Some {| data := d; timestamp := 301005 |}
      /\ getIdentityData again "sunstream.acme" svc1 = (d, svc1)).
Proof.
  intros H hit late again.
  assert (E : cache warm !! "qoboto_sunstream.acme"
              = Some {| data := VObj {[ "name" := VStr "main"; "logoUrl" := VStr "L" ]};
                        timestamp := 1000 |}) by reflexivity.
  destruct (@cache_expiry_semantics H) as (_ & Hstore & _ & Hentry & _).
  split; [exact E|]. split.
  - apply (proj1 (Hentry warm "sunstream.acme" _ hit E)). reflexivity.
  - pose proof (proj2 (Hentry warm "sunstream.acme" _ late E)) as Hlate.
    destruct (getIdentityData late "sunstream.acme" warm) as [d svc1] eqn:Eg.
    destruct Hlate as (Hreq & _ & Hcache); [discriminate|].
    split; [now rewrite Hreq|].
    assert (Hd : truthy d = true) by (vm_compute in Eg; now injection Eg as <- _).
    rewrite Hd in Hcache. split; [rewrite Hcache; apply lookup_insert_eq|].
    apply (@getIdentityData_hit H). rewrite Hcache.
    rewrite (cache_get_fresh _ _ _ {| data := d; timestamp := 301005 |});
      [reflexivity | apply lookup_insert_eq | reflexivity].
Defined.

End CacheSemantics.

(** ** More on identity records and the facade *)

Module RecordMore.
Import Vocabulary.
Import JsString JsStringFacts JsStringMore QobotoApiService OpIdResource Spec.
Import CacheFacts ResourceFacts RecordFacts OverrideFacts ServiceFacts FactoryFacts.

(** X17.  Every accessor is stable: in whatever state the record and the
    data client are, a second call right after the first returns the same
    value and changes nothing, whatever the world would answer; so it
    fetches nothing. *)
Theorem accessor_stable `{Host} (f : field) (e e' : env) (r : OpIdResource.t)
  (svc : QobotoApiService.t) :
  let '(v, r1, svc1) := Field.accessor f e r svc in
  Field.accessor f e' r1 svc1 = (v, r1, svc1).
Proof.
  destruct (truthy (prop (_customOverrides r) (Field.key f))) eqn:Ho.
  { rewrite (accessor_override f e r svc Ho). now apply accessor_override. }
  destruct (truthy (prop (_dataCache r) (Field.key f))) eqn:Hm.
  { rewrite (accessor_memo f e r svc Ho Hm). now apply accessor_memo. }
  pose proof (accessor_truthy f e r svc) as Ht.
  rewrite (accessor_resolve f e r svc Ho Hm) in Ht |- *. cbn zeta in Ht |- *.
  cbn [fst] in Ht. set (v := match _ with Return _ => _ | Throw => _ end) in *.
  assert (Hp : prop (_dataCache (with_dataCache (<[Field.key f := v]> (_dataCache r)) r))
                    (Field.key f) = v).
  { cbn [_dataCache with_dataCache]. unfold prop. now rewrite lookup_insert_eq. }
  rewrite accessor_memo; rewrite ?Hp; [reflexivity | exact Ho | exact Ht].
Qed.

Lemma record_clearCache_spec (dt : option string) (r : OpIdResource.t)
  (svc : QobotoApiService.t) :
  let '(r1, svc1) := OpIdResource.clearCache dt r svc in
  opIdInfo r1 = opIdInfo r
  /\ _customOverrides r1 = _customOverrides r
  /\ (forall k, dt = None \/ dt = Some k -> _dataCache r1 !! k = None)
  /\ requests svc1 = requests svc /\ baseUrl svc1 = baseUrl svc
  /\ cache svc1 !! ("qoboto_" +:+ _getSimpleIdentityUrl r) = None.
Proof.
  unfold OpIdResource.clearCache. split; [|split; [|split; [|split; [|split]]]].
  - destruct dt as [k|]; [destruct (isEmpty k)|]; reflexivity.
  - destruct dt as [k|]; [destruct (isEmpty k)|]; reflexivity.
  - intros k [-> | ->]; [apply lookup_empty|].
    destruct (isEmpty k); cbn [_dataCache with_dataCache];
      [apply lookup_empty | apply lookup_delete_eq].
  - unfold QobotoApiService.clearCache. now destruct (isEmpty _).
  - unfold QobotoApiService.clearCache. now destruct (isEmpty _).
  - unfold QobotoApiService.clearCache.
    destruct (isEmpty _); cbn [cache with_cache];
      [apply lookup_empty | apply lookup_delete_eq].
Qed.

(** X18.  After the cache clear of a record, for one field or for all, the
    accessor of a field without a truthy override asks the network again:
    the memo of the field and the cache entry of the identity are gone, so
    exactly one request is added to the log. *)
Theorem record_clearCache_refetches `{Host} (f : field) (e : env)
  (r : OpIdResource.t) (svc : QobotoApiService.t) (all : bool) :
  truthy (prop (_customOverrides r) (Field.key f)) = false ->
  let '(r1, svc1) :=
    OpIdResource.clearCache (if all then None else Some (Field.key f)) r svc in
  requests (snd (Field.accessor f e r1 svc1))
  = requests svc
      ++ [baseUrl svc +:+ "/api/v1/Qoboto/GetDataValue/All?DataAccountUrl="
            +:+ encodeURIComponent (_getSimpleIdentityUrl r)].
Proof.
  intros Ho.
  pose proof (record_clearCache_spec (if all then None else Some (Field.key f)) r svc)
    as Hspec.
  destruct (OpIdResource.clearCache _ r svc) as [r1 svc1].
  destruct Hspec as (Hinfo & Hover & Hmemo & Hreq & Hbase & Hgone).
  assert (Hu : _getSimpleIdentityUrl r1 = _getSimpleIdentityUrl r)
    by (unfold _getSimpleIdentityUrl; now rewrite Hinfo).
  assert (Hm : truthy (prop (_dataCache r1) (Field.key f)) = false).
  { unfold prop. rewrite (Hmemo (Field.key f)); [reflexivity|].
    destruct all; [now left | now right]. }
  rewrite <- Hover in Ho.
  rewrite (accessor_resolve f e r1 svc1 Ho Hm). cbn zeta. cbn [snd].
  rewrite client_state, Hu.
  assert (Hmiss : fst (cache_get (now_check e) ("qoboto_" +:+ _getSimpleIdentityUrl r)
                         (cache svc1)) = None).
  { unfold cache_get. now rewrite Hgone. }
  destruct (getIdentityData_miss e _ svc1 Hmiss) as [-> | (d & _ & _ & ->)];
    cbn [snd requests with_cache with_request]; unfold apiUrl; now rewrite Hreq, Hbase.
Qed.

Lemma record_clearCache_refetches_witness :
  let H := canned_host [("sections", sections)] in
  truthy (prop (_customOverrides sunstream) "logoUrl") = false
  /\ let '(_, r0, svc0) :=
       OpIdResource.logoUrl (answers "sections") sunstream qobotoApiService in
     let '(r1, svc1) := OpIdResource.clearCache (Some "logoUrl") r0 svc0 in
     length (requests (snd (OpIdResource.logoUrl (answers "sections") r1 svc1))) = 2.
Proof.
  intros H. split; [reflexivity|].
  destruct (OpIdResource.logoUrl (answers "sections") sunstream qobotoApiService)
    as [[v r0] svc0] eqn:E0.
  assert (Ho : truthy (prop (_customOverrides r0) (Field.key LogoUrl)) = false).
  { vm_compute in E0. injection E0 as _ <- _. reflexivity. }
  pose proof (@record_clearCache_refetches H LogoUrl (answers "sections") r0 svc0
                false Ho) as W.
  cbn [Field.key Field.accessor] in W.
  destruct (OpIdResource.clearCache (Some "logoUrl") r0 svc0) as [r1 svc1].
  rewrite W. vm_compute in E0. injection E0 as _ _ <-. reflexivity.
Defined.

(** One field of the object [getAllMainData] of a record returns: the value
    of the data client if it is truthy, the result of the accessor
    otherwise. *)
Lemma getAllMainData_fields `{Host} (es : envs) (r : OpIdResource.t)
  (svc : QobotoApiService.t) :
  let api := fst (QobotoApiService.getAllMainData (e_all es) (_getSimpleIdentityUrl r) svc) in
  forall f,
  exists e' r' svc',
    _customOverrides r' = _customOverrides r
    /\ Field.of_main_data f (fst (fst (OpIdResource.getAllMainData es r svc)))
       = if truthy (Field.of_main_data f api) then Field.of_main_data f api
         else fst (fst (Field.accessor f e' r' svc')).
Proof.
  cbn zeta. unfold OpIdResource.getAllMainData.
  destruct (QobotoApiService.getAllMainData _ _ _) as [allData svc0]. cbn [fst].
  set (ra := if truthy (md_logoUrl allData) then _ else r).
  set (rb := if truthy (md_sectionMain1Description allData) then _ else ra).
  set (rc := if truthy (md_sectionMain1Background2ImageUrl allData) then _ else rb).
  assert (Hc : _customOverrides rc = _customOverrides r).
  { subst rc rb ra. now rewrite !store_frame. }
  clearbody rc. clear ra rb.
  assert (Hstep : forall (g : field) (e : env) (b : bool) (w : value)
                         (r' : OpIdResource.t) (s : QobotoApiService.t),
             _customOverrides
               (snd (fst (if b then (w, r', s) else Field.accessor g e r' s)))
             = _customOverrides r'
             /\ fst (fst (if b then (w, r', s) else Field.accessor g e r' s))
                = if b then w else fst (fst (Field.accessor g e r' s))).
  { intros g e [] w r' s; [now split|]. split; [apply accessor_frame | reflexivity]. }
  pose proof (Hstep LogoUrl (e_logo es) (truthy (md_logoUrl allData))
                (md_logoUrl allData) rc svc0) as [H1 V1].
  cbn [Field.accessor] in H1, V1.
  destruct (if truthy (md_logoUrl allData) then _ else _) as [[v1 r1] s1].
  pose proof (Hstep SectionMain1Description (e_description es)
                (truthy (md_sectionMain1Description allData))
                (md_sectionMain1Description allData) r1 s1) as [H2 V2].
  cbn [Field.accessor] in H2, V2.
  destruct (if truthy (md_sectionMain1Description allData) then _ else _)
    as [[v2 r2] s2].
  pose proof (Hstep SectionMain1Background2ImageUrl (e_background es)
                (truthy (md_sectionMain1Background2ImageUrl allData))
                (md_sectionMain1Background2ImageUrl allData) r2 s2) as [H3 V3].
  cbn [Field.accessor] in H3, V3.
  destruct (if truthy (md_sectionMain1Background2ImageUrl allData) then _ else _)
    as [[v3 r3] s3].
  cbn [fst snd] in *.
  intros [| |]; cbn [Field.of_main_data md_logoUrl md_sectionMain1Description
                      md_sectionMain1Background2ImageUrl Field.accessor].
  - exists (e_logo es), rc, svc0. split; [exact Hc | exact V1].
  - exists (e_description es), r1, s1. split; [congruence | exact V2].
  - exists (e_background es), r2, s2. split; [congruence | exact V3].
Qed.

(** X19.  [getAllMainData] of a record always returns a fully populated
    object: each of its three fields is truthy, whatever the data client
    found, so a partial or failed response is filled with the defaults. *)
Theorem getAllMainData_populated `{Host} (es : envs) (r : OpIdResource.t)
  (svc : QobotoApiService.t) (f : field) :
  truthy (Field.of_main_data f (fst (fst (OpIdResource.getAllMainData es r svc)))) = true.
Proof.
  destruct (getAllMainData_fields es r svc f) as (e' & r' & svc' & _ & ->).
  destruct (truthy (Field.of_main_data f _)) eqn:E; [exact E | apply accessor_truthy].
Qed.

(** X20.  In [getAllMainData] of a record a value of the data client comes
    before a manual override: with the truthy override [v] set for a field,
    the field of the result is the value of the data client when that is
    truthy, and [v] only otherwise (the accessor of the field alone would
    return [v] in both cases). *)
Theorem getAllMainData_api_before_override `{Host} (f : field) (v : value)
  (es : envs) (r : OpIdResource.t) (svc : QobotoApiService.t) :
  truthy v = true ->
  let r0 := Field.setCustom f v r in
  let api :=
    fst (QobotoApiService.getAllMainData (e_all es) (_getSimpleIdentityUrl r) svc) in
  Field.of_main_data f (fst (fst (OpIdResource.getAllMainData es r0 svc)))
  = (if truthy (Field.of_main_data f api) then Field.of_main_data f api else v)
  /\ fst (fst (Field.accessor f (e_all es) r0 svc)) = v.
Proof.
  intros Hv r0 api.
  assert (Hu : _getSimpleIdentityUrl r0 = _getSimpleIdentityUrl r)
    by (unfold r0; now destruct f).
  assert (Hp : forall r', _customOverrides r' = _customOverrides r0 ->
                 prop (_customOverrides r') (Field.key f) = v).
  { intros r' ->. unfold prop, r0. now rewrite setCustom_lookup. }
  split.
  - destruct (getAllMainData_fields es r0 svc f) as (e' & r' & svc' & Hr' & ->).
    rewrite Hu. fold api. destruct (truthy (Field.of_main_data f api)); [reflexivity|].
    rewrite accessor_override; rewrite (Hp r' Hr'); [reflexivity | exact Hv].
  - rewrite accessor_override; rewrite (Hp r0 eq_refl); [reflexivity | exact Hv].
Qed.

Lemma getAllMainData_api_before_override_witness :
  let H := canned_host [("sections", sections)] in
  let es := {| e_all := answers "sections"; e_logo := offline;
               e_description := offline; e_background := offline |} in
  truthy (VStr "mine") = true
  /\ md_logoUrl
       (fst (fst (OpIdResource.getAllMainData es
                    (OpIdResource.setCustomLogoUrl (VStr "mine") sunstream)
                    qobotoApiService)))
     = VStr "L"
  /\ fst (fst (OpIdResource.logoUrl (answers "sections")
                 (OpIdResource.setCustomLogoUrl (VStr "mine") sunstream)
                 qobotoApiService))
     = VStr "mine".
Proof.
  intros H es. split; [reflexivity|].
  destruct (@getAllMainData_api_before_override H LogoUrl (VStr "mine") es sunstream
              qobotoApiService eq_refl) as [Hall Hone].
  split; [exact Hall | exact Hone].
Defined.

End RecordMore.

(** ** The asynchronous facade *)

Module FacadeFacts.
Import Vocabulary.
Import JsString JsStringFacts JsStringMore QobotoApiService OpIdResource Spec.
Import CacheFacts ResourceFacts RecordFacts ServiceFacts FactoryFacts.

Lemma replace_prefix (pat rep s : string) :
  startsWith pat s = true ->
  replace pat rep s = rep +:+ substring (String.length pat) s.
Proof. intros Hs. destruct s; cbn [replace]; now rewrite Hs. Qed.

(** The locator a record of the factory asks the data client about: the
    formatted input without its scheme, never empty. *)
Lemma created_simple_url (ns : NetworkNameService.t) (x : string)
  (r : OpIdResource.t) :
  OpIdResourceFactory.createByIdentityUrl ns x = Some r ->
  IdentityFormatter.formatIdentity x = "acc://" +:+ _getSimpleIdentityUrl r
  /\ isEmpty (_getSimpleIdentityUrl r) = false
  /\ _dataCache r = ∅ /\ _customOverrides r = ∅.
Proof.
  intros Hr. destruct (created_fresh ns x r Hr) as [Hm Ho].
  unfold OpIdResourceFactory.createByIdentityUrl in Hr.
  destruct (OpIdInfoFactory.createByIdentityUrl ns x) as [info|] eqn:E; [|discriminate].
  injection Hr as <-.
  destruct (createByIdentityUrl_Some ns x info E)
    as (n & g & w & Hy & Hn & _ & _ & -> & _).
  unfold _getSimpleIdentityUrl. cbn [opIdInfo OpIdResource.new OpIdInfo.identityUrl].
  rewrite Hy, replace_prefix by apply startsWith_app_self.
  cbn [String.length]. change (substring 6 ("acc://" +:+ n +:+ ".acme" +:+ tail_of g))
    with (n +:+ ".acme" +:+ tail_of g).
  split; [reflexivity|]. split; [|now split].
  change ("" +:+ n +:+ ".acme" +:+ tail_of g) with (n +:+ ".acme" +:+ tail_of g).
  rewrite isEmpty_app. now rewrite (proj2 (isEmpty_false n) Hn).
Qed.

(** X21.  A getter of the facade returns [null] and leaves the data client
    alone exactly when the factory rejects the locator.  Otherwise it
    returns a truthy value and, its record being new at every call, it
    always goes to the data client for the formatted locator without its
    scheme: the data client ends in the state [getIdentityData] leaves it
    in, so a default returned after a failure is not remembered and the
    next call of the getter fetches again. *)
Theorem facade_getter `{Host} (f : field) (ns : NetworkNameService.t) (e : env)
  (x : string) (svc : QobotoApiService.t) :
  match OpIdResourceFactory.createByIdentityUrl ns x with
  | None => Field.facade f ns e x svc = (VNull, svc)
  | Some r =>
      truthy (fst (Field.facade f ns e x svc)) = true
      /\ IdentityFormatter.formatIdentity x = "acc://" +:+ _getSimpleIdentityUrl r
      /\ snd (Field.facade f ns e x svc)
         = snd (getIdentityData e (_getSimpleIdentityUrl r) svc)
  end.
Proof.
  destruct (OpIdResourceFactory.createByIdentityUrl ns x) as [r|] eqn:Hr.
  - destruct (created_simple_url ns x r Hr) as (Hy & _ & Hm & Ho).
    assert (Hf : Field.facade f ns e x svc
                 = (fst (fst (Field.accessor f e r svc)), snd (Field.accessor f e r svc))).
    { destruct f; cbn [Field.facade Field.accessor].
      - unfold AdiParse.getLogoUrl. rewrite Hr.
        now destruct (OpIdResource.logoUrl e r svc) as [[? ?] ?].
      - unfold AdiParse.getSectionMain1Description. rewrite Hr.
        now destruct (OpIdResource.sectionMain1Description e r svc) as [[? ?] ?].
      - unfold AdiParse.getSectionMain1Background2ImageUrl. rewrite Hr.
        now destruct (OpIdResource.sectionMain1Background2ImageUrl e r svc)
          as [[? ?] ?]. }
    rewrite Hf. cbn [fst snd]. split; [apply accessor_truthy|]. split; [exact Hy|].
    rewrite accessor_resolve; [cbn zeta; cbn [snd]; apply client_state | |];
      unfold prop; rewrite ?Ho, ?Hm, lookup_empty; reflexivity.
  - destruct f; cbn [Field.facade];
      [unfold AdiParse.getLogoUrl | unfold AdiParse.getSectionMain1Description
       | unfold AdiParse.getSectionMain1Background2ImageUrl]; now rewrite Hr.
Qed.

Example facade_retries_after_failure :
  let H := canned_host [] in
  let '(v1, svc1) := AdiParse.getLogoUrl NetworkNameService.new offline "sunstream.acme"
                       qobotoApiService in
  let '(v2, svc2) := AdiParse.getLogoUrl NetworkNameService.new offline "sunstream.acme"
                       svc1 in
  v1 = VStr defaultLogoUrl /\ v2 = VStr defaultLogoUrl /\ length (requests svc2) = 2.
Proof. repeat split. Qed.

(** X22.  [AdiParse.clearCache] with a locator the factory accepts removes
    the cache entry of that identity and no other; with a non-empty locator
    the factory rejects it changes nothing; without a locator, or with the
    empty string, it empties the store. *)
Theorem facade_clearCache (ns : NetworkNameService.t) (x : string)
  (svc : QobotoApiService.t) :
  match OpIdResourceFactory.createByIdentityUrl ns x with
  | Some r =>
      cache (AdiParse.clearCache ns (Some x) svc)
      = delete ("qoboto_" +:+ _getSimpleIdentityUrl r) (cache svc)
  | None => x <> "" -> AdiParse.clearCache ns (Some x) svc = svc
  end
  /\ cache (AdiParse.clearCache ns None svc) = ∅
  /\ cache (AdiParse.clearCache ns (Some "") svc) = ∅.
Proof.
  split; [|split; reflexivity].
  destruct (OpIdResourceFactory.createByIdentityUrl ns x) as [r|] eqn:Hr.
  - destruct (created_simple_url ns x r Hr) as (Hy & Hne & _).
    assert (Hx : isEmpty x = false).
    { destruct x; [|reflexivity]. cbn in Hy. discriminate. }
    unfold AdiParse.clearCache. rewrite Hx, Hr.
    unfold OpIdResource.clearCache, QobotoApiService.clearCache. cbn [snd].
    now rewrite Hne.
  - intros Hx. unfold AdiParse.clearCache.
    rewrite (proj2 (isEmpty_false x) Hx). now rewrite Hr.
Qed.

Example facade_clearCache_demo :
  cache (AdiParse.clearCache NetworkNameService.new (Some "SunStream") warm) = ∅
  /\ AdiParse.clearCache NetworkNameService.new (Some "sun/stream") warm = warm.
Proof. split; reflexivity. Qed.

End FacadeFacts.

(** ** The two factories, the mode flags, text cleaning, section selection *)

Module MoreFacts.
Import Vocabulary.
Import JsString JsStringFacts JsStringMore QobotoApiService OpIdResource Spec.
Import SectionFacts CacheFacts ResourceFacts ServiceFacts FactoryFacts.

Lemma startsWith_chars (p s : string) (c : ascii) :
  startsWith p s = true -> contains_char c p = true -> contains_char c s = true.
Proof.
  revert s; induction p as [|a p IH]; intros s; [discriminate 2|].
  destruct s as [|b s]; cbn [startsWith contains_char]; [discriminate|].
  intros [Hab Hp]%andb_prop. apply Ascii.eqb_eq in Hab as ->.
  intros [H|H]%orb_prop; [now rewrite H | rewrite (IH s Hp H); apply orb_true_r].
Qed.

(** A string without a character of the pattern does not include it. *)
Lemma includes_chars (p s : string) (c : ascii) :
  contains_char c p = true -> contains_char c s = false -> includes p s = false.
Proof.
  intros Hp. induction s as [|d r IH]; intros Hs; rewrite includes_unfold.
  - destruct (startsWith p "") eqn:E; [|reflexivity].
    now rewrite (startsWith_chars p "" c E Hp) in Hs.
  - destruct (startsWith p (String d r)) eqn:E.
    + now rewrite (startsWith_chars p _ c E Hp) in Hs.
    + cbn [contains_char] in Hs. apply orb_false_elim in Hs as [_ Hs].
      now rewrite (IH Hs).
Qed.

Lemma span_name_plain (n : string) :
  contains_char "/" n = false -> contains_char "." n = false ->
  OpIdInfoFactory.span_name (n +:+ ".acme") = (n, ".acme").
Proof.
  induction n as [|c r IH]; [reflexivity|]. cbn [contains_char].
  intros [Hs Hr]%orb_false_elim [Hd Hr']%orb_false_elim.
  change (String c r +:+ ".acme") with (String c (r +:+ ".acme")).
  cbn [OpIdInfoFactory.span_name]. unfold OpIdInfoFactory.name_char.
  now rewrite Hs, Hd, (IH Hr Hr').
Qed.

(** X23.  For a non-empty name in lower case without slash or dot, the
    factory by name and the factory by locator build the same identity
    information, whose locator is [acc://<name>.acme] and whose train is
    the name. *)
Theorem factories_agree (ns : NetworkNameService.t) (n : string) :
  n <> "" -> toLowerCase n = n ->
  contains_char "/" n = false -> contains_char "." n = false ->
  OpIdInfoFactory.createByIdentityUrl ns n
  = Some (OpIdInfoFactory.createByIdentityName ns n)
  /\ OpIdInfo.identityUrl (OpIdInfoFactory.createByIdentityName ns n)
     = "acc://" +:+ n +:+ ".acme"
  /\ OpIdInfo.identityTrain (OpIdInfoFactory.createByIdentityName ns n) = n.
Proof.
  intros Hn Hl Hs Hd.
  assert (Hy : IdentityFormatter.formatIdentity n = "acc://" +:+ n +:+ ".acme").
  { rewrite (IdentityFormatterFacts.formatIdentity_shape n Hn), Hl.
    rewrite (includes_chars "acc://" n "/" eq_refl Hs).
    now rewrite (includes_chars ".acme" n "." eq_refl Hd). }
  unfold OpIdInfoFactory.createByIdentityUrl, OpIdInfoFactory.createByIdentityName.
  rewrite Hy.
  assert (Hm : OpIdInfoFactory.match_identity ("acc://" +:+ n +:+ ".acme")
               = Some (n, None)).
  { unfold OpIdInfoFactory.match_identity.
    cbn [startsWith append Ascii.eqb Bool.eqb andb substring].
    rewrite (span_name_plain n Hs Hd). now rewrite (proj2 (isEmpty_false n) Hn). }
  rewrite Hm. repeat split.
Qed.

Lemma factories_agree_witness :
  "sunstream" <> ""
  /\ OpIdInfoFactory.createByIdentityUrl
       (NetworkNameService.switchNetworkName "kermit" NetworkNameService.new) "sunstream"
     = Some (OpIdInfoFactory.createByIdentityName
               (NetworkNameService.switchNetworkName "kermit" NetworkNameService.new)
               "sunstream").
Proof.
  split; [discriminate|].
  apply (factories_agree
           (NetworkNameService.switchNetworkName "kermit" NetworkNameService.new)
           "sunstream"); [discriminate | reflexivity | reflexivity | reflexivity].
Defined.

(** With capitals the two differ: the factory by name keeps the name as
    given, the locator and the URL object are in lower case. *)
Example createByIdentityName_capitals :
  let info := OpIdInfoFactory.createByIdentityName NetworkNameService.new "SunStream" in
  OpIdInfo.identityName info = "SunStream"
  /\ OpIdInfo.identityUrl info = "acc://sunstream.acme"
  /\ (AdiUrlClass.name <$> OpIdInfo.adiInfo info) = Some (Some "sunstream").
Proof. repeat split. Qed.

Lemma getIdentityData_flags `{Host} (dbg dev : bool) (e : env) (u : string)
  (svc : QobotoApiService.t) :
  getIdentityData e u (with_flags dbg dev svc)
  = (fst (getIdentityData e u svc), with_flags dbg dev (snd (getIdentityData e u svc))).
Proof.
  unfold getIdentityData, with_flags.
  cbn [cache baseUrl setDebugMode setDevelopmentMode].
  destruct (cache_get _ _ _) as [[d|] c]; [reflexivity|].
  destruct (response e) as [|[] [text|]]; try reflexivity.
  destruct (JSON_parse text) as [v|]; [|reflexivity].
  destruct (match v with VStr s => JSON_parse s | _ => Some v end) as [v'|];
    [|reflexivity].
  destruct (_findMainSection v') as [d|]; [|reflexivity].
  destruct (truthy d); reflexivity.
Qed.

Lemma client_flags `{Host} (dbg dev : bool) (f : field) (e : env) (u : string)
  (svc : QobotoApiService.t) :
  Field.client f e u (with_flags dbg dev svc)
  = (fst (Field.client f e u svc), with_flags dbg dev (snd (Field.client f e u svc))).
Proof.
  destruct f; cbn [Field.client];
    [unfold getLogoUrl | unfold getSectionMain1Description
     | unfold getSectionMain1Background2ImageUrl];
    rewrite getIdentityData_flags; now destruct (getIdentityData e u svc).
Qed.

(** X24.  The debug flag and the development flag of the data client have
    no effect on what an accessor of a record returns, stores or fetches:
    with the flags set to any values the accessor returns the same value
    and the same record, and the data client ends in the same state up to
    the flags.  In particular the mock data of development mode is never
    served through a record. *)
Theorem flags_do_not_matter `{Host} (dbg dev : bool) (f : field) (e : env)
  (r : OpIdResource.t) (svc : QobotoApiService.t) :
  let '(v, r1, svc1) := Field.accessor f e r svc in
  Field.accessor f e r (with_flags dbg dev svc) = (v, r1, with_flags dbg dev svc1).
Proof.
  destruct (truthy (prop (_customOverrides r) (Field.key f))) eqn:Ho.
  { now rewrite !accessor_override. }
  destruct (truthy (prop (_dataCache r) (Field.key f))) eqn:Hm.
  { now rewrite !accessor_memo. }
  rewrite !(accessor_resolve f e r _ Ho Hm). cbn zeta.
  now rewrite client_flags.
Qed.

Example development_mode_not_used :
  let H := canned_host [("sections", sections)] in
  developmentMode qobotoApiService = true
  /\ fst (fst (OpIdResource.logoUrl (answers "sections") sunstream qobotoApiService))
     = VStr "L"
  /\ getField (fst (getIdentityDataWithMock "2024-01-01T00:00:00.000Z"
                      (answers "sections") "sunstream.acme" qobotoApiService))
       "logoUrl"
     = VStr "https://pub-1c0e543900fc40318aa4c4aec39fb352.r2.dev/logo-sunstream.png".
Proof. repeat split. Qed.

End MoreFacts.

(** ** Text cleaning and section selection *)

Module CleaningFacts.
Import Vocabulary.
Import JsString JsStringFacts JsStringMore QobotoApiService Spec SectionFacts.

Lemma trimEnd_cons (c : ascii) (r : string) :
  trimEnd (String c r)
  = match trimEnd r with
    | EmptyString => if is_ws c then EmptyString else String c EmptyString
    | r' => String c r'
    end.
Proof. reflexivity. Qed.

Lemma trimEnd_idem (s : string) : trimEnd (trimEnd s) = trimEnd s.
Proof.
  induction s as [|c r IH]; [reflexivity|]. rewrite trimEnd_cons.
  destruct (trimEnd r) as [|d r'] eqn:E.
  - destruct (is_ws c) eqn:Ec; [reflexivity|]. rewrite trimEnd_cons. cbn [trimEnd].
    now rewrite Ec.
  - rewrite trimEnd_cons. now rewrite IH.
Qed.

Lemma trimStart_clean (s : string) : starts_clean (trimStart s) = true.
Proof.
  induction s as [|c r IH]; [reflexivity|]. cbn [trimStart].
  destruct (is_ws c) eqn:E; [exact IH|]. cbn. now rewrite E.
Qed.

Lemma trimStart_fixed (s : string) : starts_clean s = true -> trimStart s = s.
Proof.
  destruct s as [|c r]; [reflexivity|]. cbn. now intros ->%negb_true_iff.
Qed.

Lemma trimEnd_clean (s : string) :
  starts_clean s = true -> starts_clean (trimEnd s) = true.
Proof.
  destruct s as [|c r]; [reflexivity|]. cbn [starts_clean]. intros Hc.
  rewrite trimEnd_cons. destruct (trimEnd r); [|exact Hc].
  apply negb_true_iff in Hc. rewrite Hc. cbn. now rewrite Hc.
Qed.

Lemma trim_idem (s : string) : trim (trim s) = trim s.
Proof.
  unfold trim.
  rewrite (trimStart_fixed (trimEnd (trimStart s)))
    by apply trimEnd_clean, trimStart_clean.
  apply trimEnd_idem.
Qed.

Lemma trim_ends_clean (s : string) :
  starts_clean (trim s) = true
  /\ (forall c, is_ws c = true -> ends_with_char c (trim s) = false).
Proof.
  split; [apply trimEnd_clean, trimStart_clean|].
  intros c Hc. unfold trim. set (t := trimStart s). clearbody t.
  induction t as [|d r IH]; [reflexivity|]. rewrite trimEnd_cons.
  destruct (trimEnd r) as [|d' r'] eqn:E.
  - destruct (is_ws d) eqn:Ed; [reflexivity|]. cbn.
    destruct (Ascii.eqb d c) eqn:Edc; [|reflexivity].
    apply Ascii.eqb_eq in Edc as ->. congruence.
  - exact IH.
Qed.

Lemma contains_char_trim (c : ascii) (s : string) :
  contains_char c s = false -> contains_char c (trim s) = false.
Proof.
  intros Hs. unfold trim.
  assert (Hstart : contains_char c (trimStart s) = false).
  { induction s as [|d r IH]; [reflexivity|]. cbn [trimStart].
    destruct (is_ws d); [|exact Hs].
    cbn [contains_char] in Hs. apply orb_false_elim in Hs as [_ Hs]. now apply IH. }
  revert Hstart. set (t := trimStart s). clearbody t.
  induction t as [|d r IH]; [reflexivity|]. cbn [contains_char].
  intros [Hd Hr]%orb_false_elim. rewrite trimEnd_cons. specialize (IH Hr).
  destruct (trimEnd r) as [|d' r'].
  - destruct (is_ws d); [reflexivity|]. cbn. now rewrite Hd.
  - cbn [contains_char] in *. now rewrite Hd, IH.
Qed.

Lemma replaceAll_gone (c : ascii) (rep s : string) :
  contains_char c rep = false -> contains_char c (replaceAll c rep s) = false.
Proof.
  intros Hrep. induction s as [|d r IH]; [reflexivity|]. cbn [replaceAll].
  rewrite contains_char_app, IH, orb_false_r.
  destruct (Ascii.eqb d c) eqn:E; [exact Hrep|]. cbn. now rewrite E.
Qed.

Lemma replaceAll_absent (c : ascii) (rep s : string) :
  contains_char c s = false -> replaceAll c rep s = s.
Proof.
  induction s as [|d r IH]; [reflexivity|]. cbn [contains_char replaceAll].
  intros [Hd Hr]%orb_false_elim. now rewrite Hd, (IH Hr).
Qed.

(** X25.  [_cleanText] leaves what is not a string as it is; of a string
    (of code units below U+0100) it returns a string without U+00A0 that
    neither starts nor ends with white space; and cleaning a cleaned value
    changes nothing. *)
Theorem cleanText_normal_form (v : value) :
  _cleanText (_cleanText v) = _cleanText v
  /\ ((forall s, v <> VStr s) -> _cleanText v = v)
  /\ (forall s, v = VStr s -> s <> "" ->
        exists t, _cleanText v = VStr t
                  /\ contains_char "160" t = false
                  /\ starts_clean t = true
                  /\ (forall c, is_ws c = true -> ends_with_char c t = false)).
Proof.
  assert (Hclean : forall s, s <> "" ->
            _cleanText (VStr s) = VStr (trim (replaceAll "160" " " s))).
  { intros s Hs%isEmpty_false. cbn [_cleanText]. now rewrite Hs. }
  assert (Hno : forall s, contains_char "160" (trim (replaceAll "160" " " s)) = false).
  { intros s. apply contains_char_trim, replaceAll_gone. reflexivity. }
  split; [|split].
  - destruct v as [| |b|x|s|items|o]; try reflexivity.
    destruct (isEmpty s) eqn:E.
    { apply isEmpty_true in E as ->. reflexivity. }
    rewrite (Hclean s) by now apply isEmpty_false.
    set (t := trim (replaceAll "160" " " s)).
    destruct (isEmpty t) eqn:Et.
    { apply isEmpty_true in Et. now rewrite Et. }
    rewrite (Hclean t) by now apply isEmpty_false.
    unfold t at 1. now rewrite (replaceAll_absent _ _ _ (Hno s)), trim_idem.
  - intros Hv. destruct v; try reflexivity. now destruct (Hv s).
  - intros s -> Hs. eexists. split; [now apply Hclean|].
    split; [apply Hno|]. apply trim_ends_clean.
Qed.

Lemma cleanText_normal_form_witness :
  exists t, _cleanText (VStr (String "160" " Welcome  ")) = VStr t
            /\ t = "Welcome" /\ contains_char "160" t = false.
Proof.
  destruct (cleanText_normal_form (VStr (String "160" " Welcome  ")))
    as (_ & _ & Hs).
  destruct (Hs (String "160" " Welcome  ") eq_refl) as (t & Ht & Hn & _);
    [discriminate|].
  exists t. split; [exact Ht|]. split; [|exact Hn].
  cbn in Ht. now injection Ht as <-.
Defined.

(** A description of white space only is cleaned to the empty string, which
    the getter returns as it is (not as [null]). *)
Example blank_description :
  _cleanText (VStr "   ") = VStr "".
Proof. reflexivity. Qed.

Lemma find_main_absent (items : list value) :
  Forall (fun y => ~ named_main y /\ name_converts y) items ->
  find_main items = Return None.
Proof.
  induction 1 as [|y items [Hy Hc] _ IH]; [reflexivity|]. cbn [find_main].
  rewrite Hc. destruct (is_main y) eqn:E; [|exact IH].
  now apply is_main_named in E.
Qed.

Lemma names_join (items : list value) :
  Forall (fun y => ~ named_main y /\ name_converts y) items ->
  existsb toString_throws
    (map (fun item => orElse (getField item "name") (VStr "unnamed")) items) = false.
Proof.
  induction 1 as [|y items [_ Hc] _ IH]; [reflexivity|]. cbn [map existsb].
  rewrite IH, orb_false_r. unfold orElse.
  destruct (truthy (getField y "name")); [exact Hc | reflexivity].
Qed.

(** X26.  Section selection, as far as the debug messages of the scan can be
    built.  A plain object is returned as it is, whatever its name.  In an
    array the first element named [main] is returned, provided the names of
    the elements before it convert to strings; an array without an element
    named [main] whose names all convert selects [null], and so does
    anything that is neither an object nor an array. *)
Theorem section_selection (v : value) :
  (forall o, v = VObj o -> _findMainSection v = Return v)
  /\ (forall pre x post,
        v = VArr (pre ++ x :: post) ->
        Forall (fun y => ~ named_main y /\ name_converts y) pre ->
        named_main x ->
        _findMainSection v = Return x)
  /\ (forall items,
        v = VArr items ->
        Forall (fun y => ~ named_main y /\ name_converts y) items ->
        _findMainSection v = Return VNull)
  /\ ((forall o, v <> VObj o) -> (forall items, v <> VArr items) ->
      _findMainSection v = Return VNull).
Proof.
  split; [now intros o ->|]. split; [|split].
  - intros pre x post -> Hpre Hx. now apply findMainSection_first_main.
  - intros items -> Hitems. unfold _findMainSection.
    now rewrite (find_main_absent items Hitems), (names_join items Hitems), andb_false_r.
  - apply findMainSection_scalar.
Qed.

Lemma section_selection_witness :
  _findMainSection sections
  = Return (VObj {[ "name" := VStr "main"; "logoUrl" := VStr "L";
                    "sectionMain1Description" := VStr " D ";
                    "sectionMain1Background2ImageUrl" := VStr "B" ]})
  /\ _findMainSection no_main = Return VNull.
Proof.
  split.
  - destruct (section_selection sections) as (_ & Hfirst & _).
    apply (Hfirst [VObj {[ "name" := VStr "header" ]}] _
             [VObj {[ "name" := VStr "footer" ]}] eq_refl).
    + repeat constructor. intros (o & [= <-] & E). vm_compute in E. discriminate.
    + eexists. split; [reflexivity|]. vm_compute. reflexivity.
  - destruct (section_selection no_main) as (_ & _ & Hnone & _).
    apply (Hnone _ eq_refl).
    repeat constructor; intros (o & [= <-] & E); vm_compute in E; discriminate.
Defined.

End CleaningFacts.

(** ** A blank input through the builder *)

Module BlankInputExamples.
Import JsString.

Lemma blank_input_url_witness :
  String "009" " " <> ""
  /\ all_ws (String "009" " ") = true
  /\ AdiParse.getBankOnLedgerUrl
       (NetworkNameService.switchNetworkName "kermit" NetworkNameService.new)
       (String "009" " ")
     = Some ("https://" +:+ String "009" " "
               +:+ ".BankOnLedger.com/?current-network=kermit").
Proof.
  split; [discriminate|]. split; [reflexivity|].
  apply (BlankInputFacts.blank_input_url
           (NetworkNameService.switchNetworkName "kermit" NetworkNameService.new)
           (String "009" " ")); [discriminate | reflexivity].
Defined.

End BlankInputExamples.
